(** * Spaartje analytics dashboard: the aggregation code of the pages

    A shallow embedding of the aggregation passes that the dashboard pages
    run inside their [fetchData] callbacks, followed by the properties of
    the specification, each proved of the embedding or refuted on a concrete
    input and proved in the form the code satisfies.

    The code:
    - [Module JS]: JavaScript numbers.
    - [Module Coll]: insertion-ordered maps, slices, stable sort.
    - [Module Calendar]: ECMAScript dates and the date-fns helpers in use.
    - [Module Onboarding]: the onboarding page (funnel, biggest drop-off,
      overall and per-day completion rate).
    - [Module Feature]: the page of one feature (daily breakdown).
    - [Module Dashboard]: the overview page (feature adoption, onboarding
      rate).
    - [Module Users]: the users page (DAU/WAU, daily and weekly buckets,
      cohort retention, activity segments, acquisition classes, latency
      rows), on rows whose savings are whole numbers of cents.
    - [Module Json], [Module Savings]: the savings of the users page on rows
      whose [savings_cents] is any JSON value.

    Modelling conventions.
    - JavaScript numbers are [jsnum]: a finite value carried as an exact
      rational, or one of NaN, +Infinity, -Infinity.  Rounding error of IEEE
      doubles and the sign of zero are not modelled.
    - A [Set<string>] of user ids is a [gset]; only [add], [has] and [size]
      are used on these sets by the code.  A [Map] whose entries are later
      listed with [Array.from] is an insertion-ordered association list; a
      [Map] that is only read back with [get] is a [gmap].
    - [received_at] is an instant in milliseconds since the epoch; the store
      renders it as an ISO text in UTC that ends in [+00:00].  The text
      operations the code applies to it ([split('T')[0]],
      [startsWith(today)], [new Date(...)]) are modelled by their meaning on
      that instant; the comparison of the text with a [toISOString()] text
      is [Calendar.textGe].
    - "now" ([new Date()]) and the offset of the browser's time zone are
      parameters of the passes that read the clock. *)

From Stdlib Require Import ZArith QArith Qround Qabs Lia Lqa Ascii String.
From stdpp Require Import gmap strings list pretty sets sorting.

Open Scope Z_scope.

(** ** JavaScript numbers *)

Module JS.

Inductive jsnum : Type :=
| Fin (q : Q)
| NaN
| PosInf
| NegInf.

Definition of_Z (z : Z) : jsnum := Fin (inject_Z z).

Definition Qneg_bool (q : Q) : bool := negb (Qle_bool 0 q).
Definition Qpos_bool (q : Q) : bool := negb (Qle_bool q 0).

(** [x / y]: a zero divisor gives NaN or an infinity, never an exception. *)
Definition div (x y : jsnum) : jsnum :=
  match x, y with
  | Fin a, Fin b =>
      if Qeq_bool b 0 then
        if Qeq_bool a 0 then NaN
        else if Qpos_bool a then PosInf else NegInf
      else Fin (a / b)
  | Fin _, (PosInf | NegInf) => Fin 0
  | PosInf, Fin b => if Qneg_bool b then NegInf else PosInf
  | NegInf, Fin b => if Qneg_bool b then PosInf else NegInf
  | _, _ => NaN
  end.

Definition inf_of_sign (neg : bool) : jsnum := if neg then NegInf else PosInf.

(** [x * y] *)
Definition mul (x y : jsnum) : jsnum :=
  match x, y with
  | Fin a, Fin b => Fin (a * b)
  | Fin a, PosInf | PosInf, Fin a =>
      if Qeq_bool a 0 then NaN else inf_of_sign (Qneg_bool a)
  | Fin a, NegInf | NegInf, Fin a =>
      if Qeq_bool a 0 then NaN else inf_of_sign (negb (Qneg_bool a))
  | PosInf, PosInf | NegInf, NegInf => PosInf
  | PosInf, NegInf | NegInf, PosInf => NegInf
  | _, _ => NaN
  end.

(** [x + y] *)
Definition add (x y : jsnum) : jsnum :=
  match x, y with
  | Fin a, Fin b => Fin (a + b)
  | Fin _, PosInf | PosInf, Fin _ | PosInf, PosInf => PosInf
  | Fin _, NegInf | NegInf, Fin _ | NegInf, NegInf => NegInf
  | _, _ => NaN
  end.

(** [Math.round]: the nearest integer, a tie going up. *)
Definition round (x : jsnum) : jsnum :=
  match x with
  | Fin q => of_Z (Qfloor (q + (1 # 2)))
  | other => other
  end.

(** The integer [Number.prototype.toFixed(0)] prints for a finite value:
    the sign is split off and the magnitude goes to the nearest integer,
    the larger one on a tie. *)
Definition toFixed0_magnitude (q : Q) : N := Z.to_N (Qfloor (Qabs q + (1 # 2))).

(** [x.toFixed(0)] (values of 1e21 and above, printed with an exponent by
    the engine, are outside the model). *)
Definition toFixed0 (x : jsnum) : string :=
  match x with
  | Fin q =>
      (if Qneg_bool q then "-" else "") +:+ pretty (toFixed0_magnitude q)
  | NaN => "NaN"
  | PosInf => "Infinity"
  | NegInf => "-Infinity"
  end.

(** [x > y]; any comparison with NaN is false. *)
Definition gt (x y : jsnum) : bool :=
  match x, y with
  | Fin a, Fin b => negb (Qle_bool a b)
  | PosInf, (Fin _ | NegInf) => true
  | Fin _, NegInf => true
  | _, _ => false
  end.

(** [Math.round((n / d) * 100)] *)
Definition pct (n d : Z) : jsnum :=
  round (mul (div (of_Z n) (of_Z d)) (of_Z 100)).

(** [Math.round(n / d)] *)
Definition round_div (n d : Z) : jsnum := round (div (of_Z n) (of_Z d)).

(** [Math.round((n / d) * 10) / 10] *)
Definition round_tenth (n d : Z) : jsnum :=
  div (round (mul (div (of_Z n) (of_Z d)) (of_Z 10))) (of_Z 10).

Definition is_finite (x : jsnum) : Prop :=
  match x with Fin _ => True | _ => False end.

End JS.

Abbreviation jsnum := JS.jsnum.

(** ** Rows of [analytics_events] *)

(** The keys of [props] that the pages read, with the values that the app
    writes: [savings_cents] is a whole number of cents.  [props] is a JSON
    column; [Module Savings] has the passes that add up savings on rows
    whose [savings_cents] is any JSON value. *)
Record Props : Type := {
  savings_cents : option Z;
  is_new_user : option bool;
  is_returning_device : option bool;
  list_key : option string;
}.

Record Event : Type := {
  received_at : Z;
  firebase_uid : string;
  event_name : string;
  props : option Props;
}.

(** [new Set(rows.map(e => e.firebase_uid))] *)
Definition uid_set (rows : list Event) : gset string :=
  list_to_set (firebase_uid <$> rows).

(** [s.size] *)
Definition size_Z `{Countable K} (s : gset K) : Z := Z.of_nat (size s).

(** [rows.filter(e => e.event_name === name)] *)
Definition named (name : string) (rows : list Event) : list Event :=
  filter (λ e, event_name e = name) rows.

(** ** Insertion-ordered maps, slices and sorting *)

Module Coll.

(** The pattern [if (!m.has(k)) m.set(k, init); const v = m.get(k)!; f(v)]
    on a [Map]: an existing entry is updated in place, a new key goes to
    the end. *)
Fixpoint upsert {K V : Type} `{EqDecision K}
    (k : K) (init : V) (f : V → V) (m : list (K * V)) : list (K * V) :=
  match m with
  | [] => [(k, f init)]
  | (k', v) :: m' =>
      if decide (k' = k) then (k', f v) :: m'
      else (k', v) :: upsert k init f m'
  end.

(** [m.get(k)] *)
Fixpoint get {K V : Type} `{EqDecision K} (k : K) (m : list (K * V))
  : option V :=
  match m with
  | [] => None
  | (k', v) :: m' => if decide (k' = k) then Some v else get k m'
  end.

(** [arr.slice(-n)]: the last [n] elements. *)
Definition slice_last {A : Type} (n : nat) (l : list A) : list A :=
  drop (length l - n) l.

(** [arr.sort(cmp)] with a numeric comparator; the sort is stable: an
    element goes in front of the first one it compares below. *)
Fixpoint insert_by {A : Type} (cmp : A → A → Z) (x : A) (l : list A)
  : list A :=
  match l with
  | [] => [x]
  | y :: l' => if cmp x y <? 0 then x :: y :: l' else y :: insert_by cmp x l'
  end.

Definition sort_by {A : Type} (cmp : A → A → Z) (l : list A) : list A :=
  foldl (λ acc x, insert_by cmp x acc) [] l.

(** [arr.forEach((x, i) => ...)] threading a state. *)
Definition foldl_i {A S : Type} (f : S → nat → A → S) (s : S) (l : list A)
  : S :=
  foldl (λ st p, f st p.1 p.2) s (imap pair l).

End Coll.

(** ** Dates: ECMAScript time values and the date-fns helpers in use *)

Module Calendar.

Definition msPerDay : Z := 86400000.

(** [Day(t)] *)
Definition Day (t : Z) : Z := t / msPerDay.

(** [DayFromYear(y)]: the day number of 1 January of year [y]. *)
Definition DayFromYear (y : Z) : Z :=
  365 * (y - 1970) + (y - 1969) / 4 - (y - 1901) / 100 + (y - 1601) / 400.

(** [YearFromTime], on day numbers: the largest [y] with
    [DayFromYear y <= d], found from an estimate that is off by at most
    one year. *)
Definition YearFromDay (d : Z) : Z :=
  let y := 1970 + (400 * d) / 146097 in
  if DayFromYear (y + 1) <=? d then y + 1
  else if DayFromYear y <=? d then y
  else y - 1.

(** [InLeapYear], as 0 or 1. *)
Definition InLeapYear (y : Z) : Z :=
  if negb (y mod 4 =? 0) then 0
  else if negb (y mod 100 =? 0) then 1
  else if negb (y mod 400 =? 0) then 0
  else 1.

Definition DayWithinYear (d : Z) : Z := d - DayFromYear (YearFromDay d).

(** [MonthFromTime], 0 for January. *)
Definition MonthFromDay (d : Z) : Z :=
  let w := DayWithinYear d in
  let leap := InLeapYear (YearFromDay d) in
  if w <? 31 then 0
  else if w <? 59 + leap then 1
  else if w <? 90 + leap then 2
  else if w <? 120 + leap then 3
  else if w <? 151 + leap then 4
  else if w <? 181 + leap then 5
  else if w <? 212 + leap then 6
  else if w <? 243 + leap then 7
  else if w <? 273 + leap then 8
  else if w <? 304 + leap then 9
  else if w <? 334 + leap then 10
  else 11.

(** [DateFromTime], the day of the month from 1. *)
Definition DateFromDay (d : Z) : Z :=
  let w := DayWithinYear d in
  let leap := InLeapYear (YearFromDay d) in
  match MonthFromDay d with
  | 0 => w + 1
  | 1 => w - 30
  | 2 => w - 58 - leap
  | 3 => w - 89 - leap
  | 4 => w - 119 - leap
  | 5 => w - 150 - leap
  | 6 => w - 180 - leap
  | 7 => w - 211 - leap
  | 8 => w - 242 - leap
  | 9 => w - 272 - leap
  | 10 => w - 303 - leap
  | _ => w - 333 - leap
  end.

(** [WeekDay], 0 for Sunday: 1 January 1970 was a Thursday. *)
Definition WeekDay (d : Z) : Z := (d + 4) mod 7.

(** The browser's zone is a fixed offset [tz] in milliseconds (no
    daylight-saving shifts): [LocalTime(t) = t + tz]. *)
Definition localDay (tz t : Z) : Z := Day (t + tz).

(** date-fns [subDays(date, n)] *)
Definition subDays (t n : Z) : Z := t - n * msPerDay.

(** date-fns [startOfWeek(date, { weekStartsOn: 1 })], as the local day
    number of the Monday (the result is local midnight of that day). *)
Definition startOfWeekDay (tz t : Z) : Z :=
  let day := WeekDay (localDay tz t) in
  let diff := (if day <? 1 then 7 else 0) + day - 1 in
  localDay tz t - diff.

Definition startOfWeek (tz t : Z) : Z := startOfWeekDay tz t * msPerDay - tz.

Definition monthAbbr (m : Z) : string :=
  match m with
  | 0 => "Jan" | 1 => "Feb" | 2 => "Mar" | 3 => "Apr"
  | 4 => "May" | 5 => "Jun" | 6 => "Jul" | 7 => "Aug"
  | 8 => "Sep" | 9 => "Oct" | 10 => "Nov" | _ => "Dec"
  end.

Definition twoDigits (n : Z) : string :=
  (if n <? 10 then "0" else "") +:+ pretty (Z.to_N n).

(** date-fns [format(date, 'MMM dd')] of a local day number. *)
Definition formatDay_MMM_dd (d : Z) : string :=
  monthAbbr (MonthFromDay d) +:+ " " +:+ twoDigits (DateFromDay d).

(** [format(date, 'MMM dd')] *)
Definition format_MMM_dd (tz t : Z) : string :=
  formatDay_MMM_dd (localDay tz t).

(** [received_at.split('T')[0]]: the date part of the ISO text, the UTC
    calendar day, as a day number. *)
Definition isoDate (t : Z) : Z := Day t.

(** [new Date(date)] for a date-only ISO text: UTC midnight of that day. *)
Definition dateOfIso (d : Z) : Z := d * msPerDay.

(** *** A stored timestamp against [toISOString()]

    [e.received_at >= d.toISOString()] compares two texts, character by
    character.  The store writes [2024-01-08T00:00:00+00:00], and with a
    fraction of a second [2024-01-08T00:00:00.25+00:00], the fraction
    without a zero at its end; [toISOString()] writes
    [2024-01-08T00:00:00.000Z].  Where the two differ up to the seconds,
    that decides.  Where they agree up to the seconds, the stored text goes
    on with [+], or with [.], its digits and [+], the other text with [.],
    three digits and [Z]: [+] sorts before [.] and before every digit, and
    every digit before [Z].  So the stored text is the greater one when
    its millisecond is later than the millisecond of [d], and the smaller
    one in every other case, the same millisecond included; the two texts
    are never equal.

    [textGe t d] is [>=] and [textLt t d] is [<] for the stored text of
    the instant [t] and the [toISOString()] text of the instant [d]. *)
Definition textGe (t d : Z) : bool := d <? t.
Definition textLt (t d : Z) : bool := t <=? d.

End Calendar.

(** ** The onboarding page *)

Module Onboarding.

Record Step : Type := {
  event : string;
  label : string;
  shortName : string;
  color : string;
}.

Definition ONBOARDING_STEPS : list Step := [
  {| event := "app_launch"; label := "App Launch";
     shortName := "Launch"; color := "#2563EB" |};
  {| event := "splash_load_completed"; label := "Splash Loaded";
     shortName := "Splash"; color := "#0891B2" |};
  {| event := "onboarding_started"; label := "Onboarding Started";
     shortName := "Started"; color := "#059669" |};
  {| event := "demo_list_selected"; label := "Demo List / Input";
     shortName := "Input"; color := "#D97706" |};
  {| event := "comparison_started"; label := "Comparison Started";
     shortName := "Compare"; color := "#7C3AED" |};
  {| event := "onboarding_completed"; label := "Completed";
     shortName := "Done"; color := "#DB2777" |}
].

(** [FunnelStep]; [fs_shortName] is its [shortName]. *)
Record FunnelStep : Type := {
  name : string;
  fs_shortName : string;
  value : Z;
  users : Z;
  fill : string;
  dropoff : Z;
  dropoffPct : string;
}.

(** One entry of [eventCounts]: [{ count, users }]. *)
Record StepData : Type := { count : Z; step_users : gset string }.

Definition empty_data : StepData := {| count := 0; step_users := ∅ |}.

(** [ONBOARDING_STEPS.forEach(step => eventCounts.set(step.event, ...))] *)
Definition initCounts (steps : list Step) : gmap string StepData :=
  foldl (λ m step, <[event step := empty_data]> m) ∅ steps.

(** The body of [events?.forEach(e => ...)] on [eventCounts]. *)
Definition countEvent (m : gmap string StepData) (e : Event)
  : gmap string StepData :=
  match m !! event_name e with
  | Some step =>
      <[event_name e :=
          {| count := count step + 1;
             step_users := {[firebase_uid e]} ∪ step_users step |}]> m
  | None => m
  end.

Definition eventCounts (steps : list Step) (events : list Event)
  : gmap string StepData :=
  foldl countEvent (initCounts steps) events.

(** [eventCounts.get(ev)!] *)
Definition getData (m : gmap string StepData) (ev : string) : StepData :=
  default empty_data (m !! ev).

(** The callback of [ONBOARDING_STEPS.map((step, index) => ...)]. *)
Definition funnelStep (m : gmap string StepData) (steps : list Step)
    (index : nat) (step : Step) : FunnelStep :=
  let data := getData m (event step) in
  let prevData :=
    if (0 <? index)%nat
    then (λ p, getData m (event p)) <$> steps !! (index - 1)%nat
    else None in
  let dropoff :=
    match prevData with
    | Some prev => size_Z (step_users prev) - size_Z (step_users data)
    | None => 0
    end in
  let dropoffPct :=
    match prevData with
    | Some prev =>
        if 0 <? size_Z (step_users prev)
        then JS.toFixed0
               (JS.mul (JS.div (JS.of_Z dropoff)
                               (JS.of_Z (size_Z (step_users prev))))
                       (JS.of_Z 100)) +:+ "%"
        else ""
    | None => ""
    end in
  {| name := label step;
     fs_shortName := shortName step;
     value := count data;
     users := size_Z (step_users data);
     fill := color step;
     dropoff := dropoff;
     dropoffPct := dropoffPct |}.

Definition buildFunnel (events : list Event) (steps : list Step)
  : list FunnelStep :=
  imap (funnelStep (eventCounts steps events) steps) steps.

(** [const funnel = ONBOARDING_STEPS.map(...)] *)
Definition funnel (events : list Event) : list FunnelStep :=
  buildFunnel events ONBOARDING_STEPS.

(** [`${a} → ${b}`], the label of a transition. *)
Definition transitionLabel (prev step : FunnelStep) : string :=
  fs_shortName prev +:+ " → " +:+ fs_shortName step.

(** The percentage the scan computes for a transition. *)
Definition transitionPct (prev step : FunnelStep) : jsnum :=
  JS.mul (JS.div (JS.of_Z (dropoff step)) (JS.of_Z (users prev)))
         (JS.of_Z 100).

(** The state of the scan: [biggestDropoff] and [biggestDropoffPct]. *)
Definition Biggest : Type := string * jsnum.

(** The callback of [funnel.forEach((step, i) => ...)]. *)
Definition scanStep (funnel : list FunnelStep) (st : Biggest)
    (i : nat) (step : FunnelStep) : Biggest :=
  match (if (0 <? i)%nat then funnel !! (i - 1)%nat else None) with
  | Some prev =>
      if negb (dropoff step =? 0) && (0 <? users prev) then
        let pct := transitionPct prev step in
        if JS.gt pct st.2 then (transitionLabel prev step, pct) else st
      else st
  | None => st
  end.

Definition biggestDropoff (funnel : list FunnelStep) : Biggest :=
  Coll.foldl_i (scanStep funnel) ("", JS.of_Z 0) funnel.

(** The [dropoffPct] of the step-by-step cards, computed again from the
    rows: [prevStep.users > 0 ? Math.round(...) : 0]. *)
Definition cardDropoffPct (prevStep step : FunnelStep) : jsnum :=
  if 0 <? users prevStep then JS.pct (dropoff step) (users prevStep)
  else JS.of_Z 0.

Record DayData : Type := { started : gset string; completed : gset string }.

Definition addDaily (e : Event) (day : DayData) : DayData :=
  {| started :=
       if decide (event_name e = "onboarding_started")
       then {[firebase_uid e]} ∪ started day else started day;
     completed :=
       if decide (event_name e = "onboarding_completed")
       then {[firebase_uid e]} ∪ completed day else completed day |}.

(** [dailyMap], keyed by the date part of [received_at]. *)
Definition dailyMap (events : list Event) : list (Z * DayData) :=
  foldl (λ m e,
           Coll.upsert (Calendar.isoDate (received_at e))
             {| started := ∅; completed := ∅ |} (addDaily e) m)
        [] events.

(** [DailyOnboarding], with fields [date], [started], [completed],
    [rate]. *)
Record DailyOnboarding : Type := {
  date : string;
  d_started : Z;
  d_completed : Z;
  rate : jsnum;
}.

Definition dailyRow (tz : Z) (entry : Z * DayData) : DailyOnboarding :=
  let data := entry.2 in
  {| date := Calendar.format_MMM_dd tz (Calendar.dateOfIso entry.1);
     d_started := size_Z (started data);
     d_completed := size_Z (completed data);
     rate :=
       if 0 <? size_Z (started data)
       then JS.pct (size_Z (completed data)) (size_Z (started data))
       else JS.of_Z 0 |}.

Definition daily (tz : Z) (events : list Event) : list DailyOnboarding :=
  Coll.slice_last 14 (dailyRow tz <$> dailyMap events).

(** The [stats] state, with fields [totalStarted], [totalCompleted],
    [overallRate], [biggestDropoff], [biggestDropoffPct]. *)
Record Stats : Type := {
  totalStarted : Z;
  totalCompleted : Z;
  overallRate : jsnum;
  s_biggestDropoff : string;
  s_biggestDropoffPct : jsnum;
}.

(** [eventCounts.get(ev)?.users.size || 0] *)
Definition usersOrZero (m : gmap string StepData) (ev : string) : Z :=
  match m !! ev with
  | Some d => size_Z (step_users d)
  | None => 0
  end.

Definition stats (events : list Event) : Stats :=
  let m := eventCounts ONBOARDING_STEPS events in
  let totalStarted := usersOrZero m "onboarding_started" in
  let totalCompleted := usersOrZero m "onboarding_completed" in
  let big := biggestDropoff (funnel events) in
  {| totalStarted := totalStarted;
     totalCompleted := totalCompleted;
     overallRate :=
       if 0 <? totalStarted
       then JS.pct totalCompleted totalStarted
       else JS.of_Z 0;
     s_biggestDropoff := big.1;
     s_biggestDropoffPct := JS.round big.2 |}.

End Onboarding.

(** ** The feature page *)

Module Feature.

Record DayData : Type := { events : Z; users : gset string }.

(** The body of [events.forEach(e => ...)] on [dailyMap]. *)
Definition addDaily (m : list (Z * DayData)) (e : Event)
  : list (Z * DayData) :=
  Coll.upsert (Calendar.isoDate (received_at e))
    {| events := 0; users := ∅ |}
    (λ day, {| events := events day + 1;
               users := {[firebase_uid e]} ∪ users day |})
    m.

Definition dailyMap (rows : list Event) : list (Z * DayData) :=
  foldl addDaily [] rows.

(** [DailyData], with fields [date], [events], [users]. *)
Record DailyData : Type := { date : string; d_events : Z; d_users : Z }.

Definition daily (tz : Z) (rows : list Event) : list DailyData :=
  Coll.slice_last 14
    ((λ entry : Z * DayData,
        {| date := Calendar.format_MMM_dd tz (Calendar.dateOfIso entry.1);
           d_events := events entry.2;
           d_users := size_Z (users entry.2) |}) <$> dailyMap rows).

(** [stats.avgPerUser] *)
Definition avgPerUser (rows : list Event) : jsnum :=
  let uniqueUsers := size_Z (uid_set rows) in
  if 0 <? uniqueUsers
  then JS.round_div (Z.of_nat (length rows)) uniqueUsers
  else JS.of_Z 0.

End Feature.

(** ** The overview page *)

Module Dashboard.

Definition EVENT_TO_FEATURE : list (string * string) := [
  ("browse_page_viewed", "Browse");
  ("browse_lazy_load", "Browse");
  ("chat_page_viewed", "Chat");
  ("message_sent", "Chat");
  ("basket_viewed", "Basket");
  ("basket_results_displayed", "Basket");
  ("shopping_list_viewed", "Shopping List");
  ("item_added", "Shopping List");
  ("product_added_to_list", "Shopping List");
  ("multiple_products_added", "Shopping List");
  ("settings_page_viewed", "Settings");
  ("language_selected", "Settings");
  ("onboarding_started", "Onboarding");
  ("onboarding_completed", "Onboarding");
  ("comparison_started", "Comparison");
  ("product_swapped", "Comparison");
  ("quick_action_tapped", "Quick Actions");
  ("demo_list_selected", "Demo");
  ("app_launch", "App Launch");
  ("splash_load_completed", "App Launch")
].

(** [EVENT_TO_FEATURE[e.event_name] || 'Other'] *)
Definition featureOf (e : Event) : string :=
  default "Other" (Coll.get (event_name e) EVENT_TO_FEATURE).

Record FeatureData : Type := { users : gset string; events : Z }.

(** The body of [events?.forEach(e => ...)] on [featureMap]. *)
Definition addFeature (m : list (string * FeatureData)) (e : Event)
  : list (string * FeatureData) :=
  Coll.upsert (featureOf e) {| users := ∅; events := 0 |}
    (λ f, {| users := {[firebase_uid e]} ∪ users f;
             events := events f + 1 |})
    m.

Definition featureMap (rows : list Event) : list (string * FeatureData) :=
  foldl addFeature [] rows.

(** [FeatureAdoption], with fields [feature], [users], [events],
    [adoption_rate]. *)
Record FeatureAdoption : Type := {
  feature : string;
  f_users : Z;
  f_events : Z;
  adoption_rate : jsnum;
}.

Definition featureRow (allUsers : gset string)
    (entry : string * FeatureData) : FeatureAdoption :=
  {| feature := entry.1;
     f_users := size_Z (users entry.2);
     f_events := events entry.2;
     adoption_rate := JS.pct (size_Z (users entry.2)) (size_Z allUsers) |}.

Definition featureArray (rows : list Event) : list FeatureAdoption :=
  let allUsers := uid_set rows in
  Coll.sort_by (λ a b, f_users b - f_users a)
    (featureRow allUsers <$> featureMap rows).

(** The loop that fills [usersWhoStarted] and [usersWhoCompleted]. *)
Definition startedCompleted (rows : list Event)
  : gset string * gset string :=
  foldl (λ st e,
           (if decide (event_name e = "onboarding_started")
            then {[firebase_uid e]} ∪ st.1 else st.1,
            if decide (event_name e = "onboarding_completed")
            then {[firebase_uid e]} ∪ st.2 else st.2))
        (∅, ∅) rows.

(** [setOnboardingRate(...)] *)
Definition onboardingRate (rows : list Event) : jsnum :=
  let usersWhoStarted := (startedCompleted rows).1 in
  let usersWhoCompleted := (startedCompleted rows).2 in
  if 0 <? size_Z usersWhoStarted
  then JS.pct (size_Z usersWhoCompleted) (size_Z usersWhoStarted)
  else JS.of_Z 0.

End Dashboard.

(** ** The users page *)

Module Users.

(** *** Daily users, on rows as the store returns them

    [received_at] and [firebase_uid] of a row may be [null]. *)

Record RawEvent : Type := {
  raw_received_at : option Z;
  raw_firebase_uid : option string;
  raw_event_name : string;
  raw_props : option Props;
}.

Definition raw (e : Event) : RawEvent :=
  {| raw_received_at := Some (received_at e);
     raw_firebase_uid := Some (firebase_uid e);
     raw_event_name := event_name e;
     raw_props := props e |}.

Record DayData : Type := { users : gset (option string); events : Z }.

(** The body of [events.forEach(e => ...)] on [dailyMap].  Calling
    [split] on a [null] timestamp throws: the pass ends there, [None]. *)
Definition addDaily (m : list (Z * DayData)) (e : RawEvent)
  : option (list (Z * DayData)) :=
  t ← raw_received_at e;
  Some (Coll.upsert (Calendar.isoDate t) {| users := ∅; events := 0 |}
          (λ day, {| users := {[raw_firebase_uid e]} ∪ users day;
                     events := events day + 1 |})
          m).

(** One turn of the loop; after an exception nothing more happens. *)
Definition dailyStep (acc : option (list (Z * DayData))) (e : RawEvent)
  : option (list (Z * DayData)) :=
  m ← acc; addDaily m e.

Definition dailyMap (rows : list RawEvent) : option (list (Z * DayData)) :=
  foldl dailyStep (Some []) rows.

(** [DailyUsers], with fields [date], [dau], [events]. *)
Record DailyUsers : Type := { date : string; dau : Z; d_events : Z }.

Definition dailyRow (tz : Z) (entry : Z * DayData) : DailyUsers :=
  {| date := Calendar.format_MMM_dd tz (Calendar.dateOfIso entry.1);
     dau := size_Z (users entry.2);
     d_events := events entry.2 |}.

Definition daily (tz : Z) (rows : list RawEvent)
  : option (list DailyUsers) :=
  m ← dailyMap rows; Some (Coll.slice_last 14 (dailyRow tz <$> m)).

(** *** Weekly users *)

Record WeekData : Type := { w_users : gset string; w_baskets : Z }.

(** [format(startOfWeek(new Date(e.received_at), { weekStartsOn: 1 }),
    'MMM dd')] *)
Definition weekStart (tz t : Z) : string :=
  Calendar.format_MMM_dd tz (Calendar.startOfWeek tz t).

Definition addWeekly (tz : Z) (m : list (string * WeekData)) (e : Event)
  : list (string * WeekData) :=
  Coll.upsert (weekStart tz (received_at e))
    {| w_users := ∅; w_baskets := 0 |}
    (λ week, {| w_users := {[firebase_uid e]} ∪ w_users week;
                w_baskets :=
                  if decide (event_name e = "basket_results_displayed")
                  then w_baskets week + 1 else w_baskets week |})
    m.

Definition weeklyMap (tz : Z) (rows : list Event)
  : list (string * WeekData) :=
  foldl (addWeekly tz) [] rows.

Record WeeklyUsers : Type := {
  week : string;
  wau : Z;
  baskets : Z;
  basketsPerUser : jsnum;
}.

Definition weeklyRow (entry : string * WeekData) : WeeklyUsers :=
  let data := entry.2 in
  {| week := entry.1;
     wau := size_Z (w_users data);
     baskets := w_baskets data;
     basketsPerUser :=
       if 0 <? size_Z (w_users data)
       then JS.round_tenth (w_baskets data) (size_Z (w_users data))
       else JS.of_Z 0 |}.

Definition weekly (tz : Z) (rows : list Event) : list WeeklyUsers :=
  Coll.slice_last 6 (weeklyRow <$> weeklyMap tz rows).

(** *** Headline numbers *)

(** [e.props?.savings_cents] when it is truthy. *)
Definition savingsOf (e : Event) : option Z :=
  p ← props e; n ← savings_cents p; if n =? 0 then None else Some n.

Definition len (rows : list Event) : Z := Z.of_nat (length rows).

Section Stats.
(** The clock: [new Date()], and the [tz] offset of the browser. *)
Variables (tz now : Z).
Variable rows : list Event.

(** [format(new Date(), 'yyyy-MM-dd')], as a day number. *)
Definition today : Z := Calendar.localDay tz now.
Definition sevenDaysAgo : Z := Calendar.subDays now 7.

Definition todayUsers : gset string :=
  uid_set (filter (λ e, Calendar.isoDate (received_at e) = today) rows).
Definition weekUsers : gset string :=
  uid_set (filter (λ e, Calendar.textGe (received_at e) sevenDaysAgo
                        = true) rows).
Definition monthUsers : gset string := uid_set rows.

(** The constants [dau] and [wau]. *)
Definition dau_ : Z := size_Z todayUsers.
Definition wau_ : Z := size_Z weekUsers.
Definition mau : Z := size_Z monthUsers.

Definition dauWauRatio : jsnum :=
  if 0 <? wau_ then JS.pct dau_ wau_ else JS.of_Z 0.

Definition basketEvents : list Event :=
  named "basket_results_displayed" rows.
Definition totalBaskets : Z := len basketEvents.

Definition avgBasketsPerUser : jsnum :=
  if 0 <? mau then JS.round_tenth totalBaskets mau else JS.of_Z 0.

(** [totalSavings] and [basketsWithSavings] after the loop. *)
Definition savingsTotals : Z * Z :=
  foldl (λ st e,
           match savingsOf e with
           | Some n => (st.1 + n, st.2 + 1)
           | None => st
           end)
        (0, 0) basketEvents.

Definition avgSavingsPerBasket : jsnum :=
  if 0 <? savingsTotals.2
  then JS.round_div savingsTotals.1 savingsTotals.2
  else JS.of_Z 0.

Definition actionEvents : list Event :=
  filter (λ e, event_name e = "product_swapped"
               ∨ event_name e = "comparison_started"
               ∨ event_name e = "shopping_list_saved") rows.
Definition basketsWithAction : Z := size_Z (uid_set actionEvents).
Definition basketUsers : Z := size_Z (uid_set basketEvents).

Definition actionRate : jsnum :=
  if 0 <? basketUsers then JS.pct basketsWithAction basketUsers
  else JS.of_Z 0.

Definition twoWeeksAgo : Z := Calendar.subDays now 14.
Definition oneWeekAgo : Z := Calendar.subDays now 7.

Definition usersWeek1 : gset string :=
  uid_set (filter (λ e, Calendar.textGe (received_at e) twoWeeksAgo = true
                        ∧ Calendar.textLt (received_at e) oneWeekAgo
                          = true) rows).
Definition usersWeek2 : gset string :=
  uid_set (filter (λ e, Calendar.textGe (received_at e) oneWeekAgo
                        = true) rows).
Definition retained : Z :=
  Z.of_nat (length (filter (λ u, u ∈ usersWeek2) (elements usersWeek1))).

Definition w1Retention : jsnum :=
  if 0 <? size_Z usersWeek1 then JS.pct retained (size_Z usersWeek1)
  else JS.of_Z 0.

Definition onboardingStarted : Z :=
  size_Z (uid_set (named "onboarding_started" rows)).
Definition onboardingCompleted : Z :=
  size_Z (uid_set (named "onboarding_completed" rows)).

Definition onboardingCompletionRate : jsnum :=
  if 0 <? onboardingStarted
  then JS.pct onboardingCompleted onboardingStarted
  else JS.of_Z 0.

Definition firstBasketUsers : Z := size_Z (uid_set basketEvents).

Definition firstBasketRate : jsnum :=
  if 0 <? mau then JS.pct firstBasketUsers mau else JS.of_Z 0.

(** [e.props?.savings_cents >= 300] *)
Definition bigSaving (e : Event) : bool :=
  match props e with
  | Some p => match savings_cents p with
              | Some n => 300 <=? n
              | None => false
              end
  | None => false
  end.

Definition ahaUsers : Z :=
  size_Z (uid_set (filter (λ e, event_name e = "basket_results_displayed"
                                ∧ bigSaving e = true) rows)).

Definition ahaEventRate : jsnum :=
  if 0 <? firstBasketUsers then JS.pct ahaUsers firstBasketUsers
  else JS.of_Z 0.

Definition basketAttempts : Z := len (named "comparison_started" rows).
Definition basketSuccesses : Z :=
  len (named "basket_results_displayed" rows).

Definition basketSuccessRate : jsnum :=
  if 0 <? basketAttempts then JS.pct basketSuccesses basketAttempts
  else JS.of_Z 0.

End Stats.

(** *** Acquisition: truly new and returning-device users *)

(** [e.props?.flag === true] *)
Definition flagTrue (flag : Props → option bool) (e : Event) : bool :=
  match props e with
  | Some p => match flag p with Some true => true | _ => false end
  | None => false
  end.

(** The state of the loop: [trulyNewUsers] and [returningDeviceUsers]. *)
Definition Acquisition : Type := gset string * gset string.

Definition classify (st : Acquisition) (e : Event) : Acquisition :=
  if flagTrue is_new_user e then ({[firebase_uid e]} ∪ st.1, st.2)
  else if flagTrue is_returning_device e
       then (st.1, {[firebase_uid e]} ∪ st.2)
       else st.

Definition classifyNewVsReturning (rows : list Event) : Acquisition :=
  foldl classify (∅, ∅) (named "auth_anonymous_selected" rows).

Definition trulyNewUsers (rows : list Event) : gset string :=
  (classifyNewVsReturning rows).1.
Definition returningDeviceUsers (rows : list Event) : gset string :=
  (classifyNewVsReturning rows).2.

Definition newUserConversionRate (rows : list Event) : jsnum :=
  let newUsersWithBasket :=
    filter (λ e, event_name e = "basket_results_displayed"
                 ∧ firebase_uid e ∈ trulyNewUsers rows) rows in
  if 0 <? size_Z (trulyNewUsers rows)
  then JS.pct (size_Z (uid_set newUsersWithBasket))
              (size_Z (trulyNewUsers rows))
  else JS.of_Z 0.

(** *** Cohort retention *)

(** [RetentionData], with fields [cohort], [users], [w1], [w2], [w4]. *)
Record RetentionData : Type := {
  cohort : string;
  r_users : Z;
  w1 : jsnum;
  w2 : jsnum;
  w4 : jsnum;
}.

Section Cohorts.
Variables (tz now : Z).
Variable rows : list Event.

Definition cohortStart (weeksAgo : Z) : Z :=
  Calendar.subDays now (weeksAgo * 7).
Definition cohortEnd (weeksAgo : Z) : Z :=
  Calendar.subDays now ((weeksAgo - 1) * 7).

Definition cohortUsers (weeksAgo : Z) : gset string :=
  uid_set (filter (λ e, cohortStart weeksAgo ≤ received_at e
                        ∧ received_at e < cohortEnd weeksAgo) rows).

Definition checkRetention (weeksAgo weeksLater : Z) : Z :=
  if weeksAgo - weeksLater <? 0 then 0
  else
    let checkStart := Calendar.subDays now ((weeksAgo - weeksLater) * 7) in
    let checkEnd :=
      Calendar.subDays now (Z.max 0 ((weeksAgo - weeksLater - 1) * 7)) in
    let returnedUsers :=
      filter (λ e, checkStart ≤ received_at e
                   ∧ received_at e < checkEnd
                   ∧ firebase_uid e ∈ cohortUsers weeksAgo) rows in
    size_Z (uid_set returnedUsers).

Definition retentionPct (weeksAgo weeksLater : Z) : jsnum :=
  if 0 <? size_Z (cohortUsers weeksAgo)
  then JS.pct (checkRetention weeksAgo weeksLater)
              (size_Z (cohortUsers weeksAgo))
  else JS.of_Z 0.

(** One turn of the loop: [None] is the [continue]. *)
Definition cohortRow (weeksAgo : Z) : option RetentionData :=
  if size_Z (cohortUsers weeksAgo) =? 0 then None
  else Some {| cohort := Calendar.format_MMM_dd tz (cohortStart weeksAgo);
               r_users := size_Z (cohortUsers weeksAgo);
               w1 := retentionPct weeksAgo 1;
               w2 := retentionPct weeksAgo 2;
               w4 := retentionPct weeksAgo 4 |}.

(** [for (let weeksAgo = 4; weeksAgo >= 1; weeksAgo--)] *)
Definition cohortWeeks : list Z := [4; 3; 2; 1].

Definition cohorts : list RetentionData := omap cohortRow cohortWeeks.

End Cohorts.

(** *** Segments by activity level *)

Record Activity : Type := { a_events : Z; a_savings : Z }.

Definition addActivity (m : list (string * Activity)) (e : Event)
  : list (string * Activity) :=
  Coll.upsert (firebase_uid e) {| a_events := 0; a_savings := 0 |}
    (λ user, {| a_events := a_events user + 1;
                a_savings := match savingsOf e with
                             | Some n => a_savings user + n
                             | None => a_savings user
                             end |})
    m.

Definition userActivity (rows : list Event) : list (string * Activity) :=
  foldl addActivity [] rows.

(** [UserSegment], with fields [segment], [users], [avgEvents],
    [avgSavings]. *)
Record UserSegment : Type := {
  segment : string;
  s_users : Z;
  avgEvents : jsnum;
  avgSavings : jsnum;
}.

Definition newSegment (label : string) : UserSegment :=
  {| segment := label; s_users := 0;
     avgEvents := JS.of_Z 0; avgSavings := JS.of_Z 0 |}.

Definition initialSegments : list UserSegment := [
  newSegment "Power (50+ events)";
  newSegment "Active (20-49)";
  newSegment "Casual (5-19)";
  newSegment "New (1-4)"
].

Definition segmentIndex (events : Z) : nat :=
  if 50 <=? events then 0%nat
  else if 20 <=? events then 1%nat
  else if 5 <=? events then 2%nat
  else 3%nat.

(** The callback of [userActivity.forEach((data) => ...)]. *)
Definition addUser (segments : list UserSegment) (data : Activity)
  : list UserSegment :=
  alter (λ s, {| segment := segment s;
                 s_users := s_users s + 1;
                 avgEvents := JS.add (avgEvents s) (JS.of_Z (a_events data));
                 avgSavings :=
                   JS.add (avgSavings s) (JS.of_Z (a_savings data)) |})
        (segmentIndex (a_events data)) segments.

(** The callback of [segments.forEach(s => ...)]. *)
Definition average (s : UserSegment) : UserSegment :=
  if 0 <? s_users s
  then {| segment := segment s;
          s_users := s_users s;
          avgEvents := JS.round (JS.div (avgEvents s) (JS.of_Z (s_users s)));
          avgSavings :=
            JS.round (JS.div (avgSavings s) (JS.of_Z (s_users s))) |}
  else s.

Definition segmentUsers (rows : list Event) : list UserSegment :=
  average <$> foldl addUser initialSegments (snd <$> userActivity rows).

(** *** Latency per response type *)

Record Message : Type := {
  processing_ms : option Z;
  response_type : option string;
}.

(** The body of [messages.forEach(m => ...)] on [latencyMap]. *)
Definition addLatency (m : list (string * list Z)) (msg : Message)
  : list (string * list Z) :=
  match processing_ms msg, response_type msg with
  | Some ms, Some ty =>
      if negb (ms =? 0) && negb (String.eqb ty "")
      then Coll.upsert ty [] (λ times, times ++ [ms]) m
      else m
  | _, _ => m
  end.

Definition latencyMap (messages : list Message) : list (string * list Z) :=
  foldl addLatency [] messages.

(** A row of [latencyData], with fields [type], [count], [avg], [p50],
    [p95]. *)
Record LatencyRow : Type := {
  l_type : string;
  l_count : Z;
  avg : jsnum;
  p50 : Z;
  p95 : Z;
}.

(** [type.replace(/_/g, ' ')] *)
Fixpoint replaceUnderscores (s : string) : string :=
  match s with
  | EmptyString => EmptyString
  | String c s' =>
      String (if Ascii.eqb c "_" then " "%char else c) (replaceUnderscores s')
  end.

(** [sorted[i] || 0]: an index outside the array reads [undefined]. *)
Definition atOrZero (sorted : list Z) (i : Z) : Z :=
  match (if i <? 0 then None else sorted !! Z.to_nat i) with
  | Some v => if v =? 0 then 0 else v
  | None => 0
  end.

(** [[...times].sort((a, b) => a - b)] *)
Definition sortAscending (times : list Z) : list Z :=
  Coll.sort_by (λ a b, a - b) times.

Definition p50Index (n : Z) : Z := Qfloor (inject_Z n * (5 # 10)).
Definition p95Index (n : Z) : Z :=
  Z.min (Qfloor (inject_Z n * (95 # 100))) (n - 1).

Definition sum (times : list Z) : Z := foldl Z.add 0 times.

(** The callback of [Array.from(latencyMap.entries()).map(...)]. *)
Definition percentiles (entry : string * list Z) : LatencyRow :=
  let times := entry.2 in
  let sorted := sortAscending times in
  let n := Z.of_nat (length sorted) in
  {| l_type := replaceUnderscores entry.1;
     l_count := Z.of_nat (length times);
     avg := JS.round_div (sum times) (Z.of_nat (length times));
     p50 := atOrZero sorted (p50Index n);
     p95 := atOrZero sorted (p95Index n) |}.

Definition latencies (messages : list Message) : list LatencyRow :=
  Coll.sort_by (λ a b, l_count b - l_count a)
    (percentiles <$> latencyMap messages).

End Users.

(** ** JSON values under [if] and [+=] *)

Module Json.

(** A value of a key of [props]: [null] (or no such key, or no [props]),
    a boolean, a number, a text, an array or an object.  The members of
    arrays and objects are not kept. *)
Inductive value : Type :=
| Null
| Bool (b : bool)
| Num (q : Q)
| Text (s : string)
| Array
| Object.

(** [ToBoolean], the test of [if (v)]. *)
Definition truthy (v : value) : bool :=
  match v with
  | Null => false
  | Bool b => b
  | Num q => negb (Qeq_bool q 0)
  | Text s => negb (String.eqb s "")
  | Array | Object => true
  end.

(** The largest double is [2^1024 - 2^971].  A number whose magnitude
    reaches [2^1024 - 2^970], half a step beyond it, is an infinity: when
    it is read from JSON, and when it is the sum of two numbers. *)
Definition overflow : Q := inject_Z (2 ^ 1024 - 2 ^ 970).

Definition fit (q : Q) : jsnum :=
  if Qle_bool overflow (Qabs q) then JS.inf_of_sign (JS.Qneg_bool q)
  else JS.Fin q.

(** [x + y] on numbers, with the overflow. *)
Definition add (x y : jsnum) : jsnum :=
  match JS.add x y with
  | JS.Fin s => fit s
  | other => other
  end.

(** A piece of a text that [+] has put together.  A number and a boolean
    stand for the text they are printed as, an array for the text of its
    members; an object is printed as ["[object Object]"]. *)
Inductive piece : Type :=
| PNum (x : jsnum)
| PBool (b : bool)
| PText (s : string)
| PArray
| PObject.

(** What a variable holds that started as a number and has had values
    added with [+=]: a number, or the text of the pieces in order, from
    the first text, array or object on. *)
Inductive sum : Type :=
| Number (x : jsnum)
| Concat (pieces : list piece).

Definition asPiece (v : value) : piece :=
  match v with
  | Null => PText "null"
  | Bool b => PBool b
  | Num q => PNum (fit q)
  | Text s => PText s
  | Array => PArray
  | Object => PObject
  end.

(** [acc + v]: numbers, booleans and [null] add up as numbers; anything
    added to a text, and a text, an array or an object added to anything,
    is put together as text. *)
Definition plus (acc : sum) (v : value) : sum :=
  match acc, v with
  | Number x, Null => Number (add x (JS.of_Z 0))
  | Number x, Bool b => Number (add x (JS.of_Z (if b then 1 else 0)))
  | Number x, Num q => Number (add x (fit q))
  | Number x, (Text _ | Array | Object) => Concat [PNum x; asPiece v]
  | Concat ps, _ => Concat (ps ++ [asPiece v])
  end.

Definition pieces (s : sum) : list piece :=
  match s with
  | Number x => [PNum x]
  | Concat ps => ps
  end.

(** [a + b] for two such variables. *)
Definition plusSum (a b : sum) : sum :=
  match a, b with
  | Number x, Number y => Number (add x y)
  | _, _ => Concat (pieces a ++ pieces b)
  end.

(** The characters that the numeric literals of [Number(text)] are made
    of: white space, the digits, the signs and the point, the exponent
    mark, the letters of [Infinity], and the marks and digits of
    hexadecimal, octal and binary literals.  A character above 127 may be
    white space. *)
Definition numeral_char (c : ascii) : bool :=
  let n := N_of_ascii c in
  (128 <=? n)%N
  || ((9 <=? n)%N && (n <=? 13)%N)
  || (n =? 32)%N
  || existsb (Ascii.eqb c)
       (list_ascii_of_string "0123456789+-.abcdefABCDEFinotxyIOX").

(** A text with a character that is in no numeric literal. *)
Definition garbled_text (s : string) : bool :=
  existsb (λ c, negb (numeral_char c)) (list_ascii_of_string s).

(** A piece whose text has such a character: ["true"], ["false"],
    ["[object Object]"] and ["NaN"] do. *)
Definition garbled (p : piece) : bool :=
  match p with
  | PText s => garbled_text s
  | PBool _ | PObject => true
  | PNum JS.NaN => true
  | PNum _ | PArray => false
  end.

(** [Number(s)], which [s / n] applies to [s].  A text with a character
    that is in no numeric literal is NaN.  What another text reads as (a
    number if it is a numeric literal, NaN if not) is outside the model:
    [None]. *)
Definition toNumber (s : sum) : option jsnum :=
  match s with
  | Number x => Some x
  | Concat ps => if existsb garbled ps then Some JS.NaN else None
  end.

(** The number that a variable holds; [None] when it holds a text. *)
Definition held (s : sum) : option jsnum :=
  match s with
  | Number x => Some x
  | Concat _ => None
  end.

(** [Math.round(s / n)] *)
Definition roundedQuotient (s : sum) (n : Z) : option jsnum :=
  x ← toNumber s; Some (JS.round (JS.div x (JS.of_Z n))).

End Json.

(** ** The users page: savings as the store holds them *)

Module Savings.

(** A row, with the fields that the passes on savings read.  [savings] is
    [e.props?.savings_cents]. *)
Record Row : Type := {
  uid : string;
  name : string;
  savings : Json.value;
}.

(** A row whose savings are a whole number of cents, as the store holds
    it. *)
Definition stored (e : Event) : Row :=
  {| uid := firebase_uid e;
     name := event_name e;
     savings := match props e with
                | Some p => match savings_cents p with
                            | Some n => Json.Num (inject_Z n)
                            | None => Json.Null
                            end
                | None => Json.Null
                end |}.

Definition basketEvents (rows : list Row) : list Row :=
  filter (λ r, name r = "basket_results_displayed") rows.

(** [totalSavings] and [basketsWithSavings] after the loop. *)
Definition savingsTotals (rows : list Row) : Json.sum * Z :=
  foldl (λ st r,
           if Json.truthy (savings r)
           then (Json.plus st.1 (savings r), st.2 + 1)
           else st)
        (Json.Number (JS.of_Z 0), 0) (basketEvents rows).

(** [basketsWithSavings > 0 ? Math.round(totalSavings /
    basketsWithSavings) : 0] *)
Definition avgSavingsPerBasket (rows : list Row) : option jsnum :=
  if 0 <? (savingsTotals rows).2
  then Json.roundedQuotient (savingsTotals rows).1 (savingsTotals rows).2
  else Some (JS.of_Z 0).

(** One entry of [userActivity]: [{ events, savings }]. *)
Record Activity : Type := { a_events : Z; a_savings : Json.sum }.

Definition addActivity (m : list (string * Activity)) (r : Row)
  : list (string * Activity) :=
  Coll.upsert (uid r)
    {| a_events := 0; a_savings := Json.Number (JS.of_Z 0) |}
    (λ user, {| a_events := a_events user + 1;
                a_savings := if Json.truthy (savings r)
                             then Json.plus (a_savings user) (savings r)
                             else a_savings user |})
    m.

Definition userActivity (rows : list Row) : list (string * Activity) :=
  foldl addActivity [] rows.

(** A segment while the users are added to it, its fields [segment],
    [users], [avgEvents] and [avgSavings] holding the label, the number of
    users and the two sums. *)
Record Segment : Type := {
  label : string;
  count : Z;
  sumEvents : jsnum;
  sumSavings : Json.sum;
}.

Definition newSegment (l : string) : Segment :=
  {| label := l; count := 0;
     sumEvents := JS.of_Z 0; sumSavings := Json.Number (JS.of_Z 0) |}.

Definition initialSegments : list Segment := [
  newSegment "Power (50+ events)";
  newSegment "Active (20-49)";
  newSegment "Casual (5-19)";
  newSegment "New (1-4)"
].

(** The callback of [userActivity.forEach((data) => ...)]. *)
Definition addUser (segments : list Segment) (data : Activity)
  : list Segment :=
  alter (λ s, {| label := label s;
                 count := count s + 1;
                 sumEvents := JS.add (sumEvents s) (JS.of_Z (a_events data));
                 sumSavings := Json.plusSum (sumSavings s) (a_savings data) |})
        (Users.segmentIndex (a_events data)) segments.

(** [UserSegment], with fields [segment], [users], [avgEvents],
    [avgSavings]; [avgSavings] is [None] where the model does not give
    the number. *)
Record UserSegment : Type := {
  segment : string;
  users : Z;
  avgEvents : jsnum;
  avgSavings : option jsnum;
}.

(** The callback of [segments.forEach(s => ...)]: a segment without users
    keeps what it holds. *)
Definition average (s : Segment) : UserSegment :=
  if 0 <? count s
  then {| segment := label s;
          users := count s;
          avgEvents := JS.round (JS.div (sumEvents s) (JS.of_Z (count s)));
          avgSavings := Json.roundedQuotient (sumSavings s) (count s) |}
  else {| segment := label s;
          users := count s;
          avgEvents := sumEvents s;
          avgSavings := Json.held (sumSavings s) |}.

Definition segmentUsers (rows : list Row) : list UserSegment :=
  average <$> foldl addUser initialSegments (snd <$> userActivity rows).

End Savings.

(** * Notions used in the statements

    Reference notions the statements compare the code with, and the inputs
    of the examples. *)

(** ** The onboarding funnel *)

Module OnboardingSpec.
Import Onboarding.

(** What the specification calls the unique-user count of a step. *)
Definition uniqueUsers (events : list Event) (ev : string) : Z :=
  size_Z (uid_set (named ev events)).

Definition eventCount (events : list Event) (ev : string) : Z :=
  Z.of_nat (length (named ev events)).

Definition example_steps : list Step := [
  {| event := "onboarding_started"; label := "Onboarding Started";
     shortName := "Started"; color := "#059669" |};
  {| event := "onboarding_completed"; label := "Completed";
     shortName := "Done"; color := "#DB2777" |}
].

(** User A starts and completes on day 1, user B only starts on day 2. *)
Definition example_events : list Event := [
  {| received_at := 0; firebase_uid := "A";
     event_name := "onboarding_started"; props := None |};
  {| received_at := 3600000; firebase_uid := "A";
     event_name := "onboarding_completed"; props := None |};
  {| received_at := 86400000; firebase_uid := "B";
     event_name := "onboarding_started"; props := None |}
].

(** The drop-off percentage of a transition, as an exact fraction. *)
Definition pctQ (prev step : FunnelStep) : Q :=
  inject_Z (dropoff step) / inject_Z (users prev) * inject_Z 100.

(** Transition [j]: from row [j] to row [j + 1], with a percentage (the
    row in front has users). *)
Definition transition (funnel : list FunnelStep) (j : nat)
    (p s : FunnelStep) : Prop :=
  funnel !! j = Some p ∧ funnel !! S j = Some s ∧ 0 < users p.

(** What the scan has found after the first [k] rows. *)
Definition scanned (funnel : list FunnelStep) (k : nat) (st : Biggest)
  : Prop :=
  (st = ("", JS.Fin 0)
   ∧ ∀ j p s, (S j < k)%nat → transition funnel j p s → dropoff s ≤ 0)
  ∨ (∃ i prev step,
        (S i < k)%nat ∧ transition funnel i prev step
        ∧ 0 < dropoff step
        ∧ st = (transitionLabel prev step, JS.Fin (pctQ prev step))
        ∧ (∀ j p s, (S j < k)%nat → transition funnel j p s →
                    (pctQ p s <= pctQ prev step)%Q)
        ∧ (∀ j p s, (j < i)%nat → transition funnel j p s →
                    (pctQ p s < pctQ prev step)%Q)).

(** As many distinct users as [counts] says, for each step in turn, each
    with one event of the step. *)
Definition eventsOfCounts (steps : list Step) (counts : list nat)
  : list Event :=
  mjoin (zip_with
           (λ step n,
              (λ i : nat,
                 {| received_at := 0;
                    firebase_uid := "u" +:+ pretty (N.of_nat i);
                    event_name := event step;
                    props := None |}) <$> seq 0 n)
           steps counts).

(** A funnel with user counts 100, 80, 80, 50. *)
Definition example_funnel : list FunnelStep :=
  buildFunnel
    (eventsOfCounts ONBOARDING_STEPS [100; 80; 80; 50]%nat)
    (take 4 ONBOARDING_STEPS).

(** A funnel with user counts 10, 10, 20: no step loses users. *)
Definition flat_funnel : list FunnelStep :=
  buildFunnel
    (eventsOfCounts ONBOARDING_STEPS [10; 10; 20]%nat)
    (take 3 ONBOARDING_STEPS).

End OnboardingSpec.

(** ** Feature adoption *)

Module DashboardSpec.

Definition adoption_events : list Event := [
  {| received_at := 0; firebase_uid := "A";
     event_name := "message_sent"; props := None |};
  {| received_at := 1; firebase_uid := "B";
     event_name := "basket_viewed"; props := None |};
  {| received_at := 2; firebase_uid := "A";
     event_name := "basket_viewed"; props := None |}
].

End DashboardSpec.

(** ** Segments *)

Module SegmentSpec.
Import Users.

(** The thresholds of the segments, from high to low, with their labels. *)
Definition thresholds : list (Z * string) := [
  (50, "Power (50+ events)");
  (20, "Active (20-49)");
  (5, "Casual (5-19)");
  (0, "New (1-4)")
].

(** The number of events of user [u]. *)
Definition eventsOf (u : string) (rows : list Event) : Z :=
  Z.of_nat (length (filter (λ e, firebase_uid e = u) rows)).

(** The savings the loop adds up for user [u]. *)
Definition savingsSum (u : string) (rows : list Event) : Z :=
  foldr (λ e acc, default 0 (savingsOf e) + acc) 0
        (filter (λ e, firebase_uid e = u) rows).

(** What the loop has recorded for user [u]. *)
Definition activityOf (u : string) (rows : list Event) : Activity :=
  {| a_events := eventsOf u rows; a_savings := savingsSum u rows |}.

Definition bump (a : Activity) (n s : Z) : Activity :=
  {| a_events := a_events a + n; a_savings := a_savings a + s |}.

(** The unique users of segment [k]. *)
Definition usersOfSegment (k : nat) (rows : list Event) : list string :=
  filter (λ u, segmentIndex (eventsOf u rows) = k) (elements (uid_set rows)).

(** A segment under construction: label, users, events, savings. *)
Definition Tally : Type := string * Z * Z * Z.

Definition segmentOfTally (t : Tally) : UserSegment :=
  {| segment := t.1.1.1; s_users := t.1.1.2;
     avgEvents := JS.of_Z t.1.2; avgSavings := JS.of_Z t.2 |}.

Definition addTally (ts : list Tally) (data : Activity) : list Tally :=
  alter (λ t : Tally, (t.1.1.1, t.1.1.2 + 1, t.1.2 + a_events data,
                       t.2 + a_savings data))
        (segmentIndex (a_events data)) ts.

Definition initialTallies : list Tally :=
  (λ t : Z * string, (t.2, 0, 0, 0)) <$> thresholds.

(** The activities that fall in segment [k]. *)
Definition inSegment (k : nat) (acts : list Activity) : list Activity :=
  filter (λ a, segmentIndex (a_events a) = k) acts.

Definition sumOf (f : Activity → Z) (acts : list Activity) : Z :=
  foldr (λ a acc, f a + acc) 0 acts.

(** User A with exactly 20 events, user B with one. *)
Definition boundary_events : list Event :=
  replicate 20 {| received_at := 0; firebase_uid := "A";
                  event_name := "basket_viewed"; props := None |}
  ++ [{| received_at := 1; firebase_uid := "B";
         event_name := "app_launch"; props := None |}].

End SegmentSpec.

(** ** Percentiles *)

Module LatencySpec.

(** The index the specification gives for fraction [f] of [n] values:
    [floor(f * n)], clamped to [0, n - 1]. *)
Definition clampedIndex (f : Q) (n : Z) : Z :=
  Z.max 0 (Z.min (Qfloor (f * inject_Z n)) (n - 1)).

(** The arithmetic mean, as an exact fraction. *)
Definition mean (values : list Z) : Q :=
  inject_Z (Users.sum values) / inject_Z (Z.of_nat (length values)).

Definition latency_messages : list Users.Message := [
  {| Users.processing_ms := Some 900;
     Users.response_type := Some "basket_result" |};
  {| Users.processing_ms := Some 0;
     Users.response_type := Some "basket_result" |};
  {| Users.processing_ms := Some 300;
     Users.response_type := Some "basket_result" |};
  {| Users.processing_ms := None;
     Users.response_type := Some "chat_reply" |};
  {| Users.processing_ms := Some 200;
     Users.response_type := Some "chat_reply" |}
].

End LatencySpec.

(** ** Acquisition *)

Module AcquisitionSpec.

Definition marker (uid : string) (new returning : option bool) : Event :=
  {| received_at := 0; firebase_uid := uid;
     event_name := "auth_anonymous_selected";
     props := Some {| savings_cents := None; is_new_user := new;
                      is_returning_device := returning;
                      list_key := None |} |}.

(** User A signs in twice: flagged new the first time, flagged as a
    returning device the second time. *)
Definition conflicting_events : list Event := [
  marker "A" (Some true) (Some false);
  marker "A" (Some false) (Some true)
].

(** A marker event of user [u] that the loop counts as "truly new". *)
Definition newMarker (u : string) (e : Event) : Prop :=
  event_name e = "auth_anonymous_selected" ∧ firebase_uid e = u
  ∧ Users.flagTrue is_new_user e = true.

(** A marker event of user [u] that the loop counts as "returning
    device": the new-flag is not true and the returning-flag is. *)
Definition returningMarker (u : string) (e : Event) : Prop :=
  event_name e = "auth_anonymous_selected" ∧ firebase_uid e = u
  ∧ Users.flagTrue is_new_user e = false
  ∧ Users.flagTrue is_returning_device e = true.

End AcquisitionSpec.

(** ** Cohorts *)

Module CohortSpec.
Import Users.

(** The weeks of the loop whose cohort has users. *)
Definition presentWeeks (now : Z) (rows : list Event) (weeks : list Z)
  : list Z :=
  filter (λ w, cohortUsers now rows w ≠ ∅) weeks.

(** The start of the week window of checkpoint [k] for the cohort of
    [weeksAgo]. *)
Definition checkpointStart (now weeksAgo k : Z) : Z :=
  Calendar.subDays now ((weeksAgo - k) * 7).

(** What a row says about the cohort of [weeksAgo]. *)
Definition describes (tz now : Z) (rows : list Event)
    (weeksAgo : Z) (c : RetentionData) : Prop :=
  cohort c = Calendar.format_MMM_dd tz (cohortStart now weeksAgo)
  ∧ r_users c = size_Z (cohortUsers now rows weeksAgo)
  ∧ 0 < r_users c
  ∧ (now ≤ checkpointStart now weeksAgo 1 → w1 c = JS.Fin 0)
  ∧ (now ≤ checkpointStart now weeksAgo 2 → w2 c = JS.Fin 0)
  ∧ (now ≤ checkpointStart now weeksAgo 4 → w4 c = JS.Fin 0).

(** Day 100 after the epoch, at noon. *)
Definition cohort_now : Z := 100 * Calendar.msPerDay + 43200000.

(** User A was active 5 days before [cohort_now], user B 19 and 2 days
    before. *)
Definition cohort_events : list Event := [
  {| received_at := 81 * Calendar.msPerDay; firebase_uid := "B";
     event_name := "app_launch"; props := None |};
  {| received_at := 95 * Calendar.msPerDay; firebase_uid := "A";
     event_name := "app_launch"; props := None |};
  {| received_at := 98 * Calendar.msPerDay; firebase_uid := "B";
     event_name := "basket_viewed"; props := None |}
].

End CohortSpec.

(** ** Malformed rows *)

Module MalformedSpec.
Import Users.

(** A row with its timestamp and its user id. *)
Definition wellFormed (e : RawEvent) : Prop :=
  is_Some (raw_received_at e) ∧ is_Some (raw_firebase_uid e).

(** The events counted over all buckets. *)
Definition totalEvents (m : list (Z * DayData)) : Z :=
  foldr (λ entry acc, events entry.2 + acc) 0 m.

Definition row (t : option Z) (uid : option string) : RawEvent :=
  {| raw_received_at := t; raw_firebase_uid := uid;
     raw_event_name := "app_launch"; raw_props := None |}.

(** A complete row and a row without user id, both on 1 January 1970. *)
Definition rows_missing_uid : list RawEvent :=
  [row (Some 3600000) (Some "A"); row (Some 7200000) None].

(** A complete row and a row without timestamp. *)
Definition rows_missing_timestamp : list RawEvent :=
  [row (Some 3600000) (Some "A"); row None (Some "B")].

End MalformedSpec.

(** ** Buckets *)

Module BucketSpec.
Import Calendar.

(** The day of the year on which month [m] starts, in a year with leap
    flag [leap]. *)
Definition monthStart (m leap : Z) : Z :=
  match m with
  | 0 => 0
  | 1 => 31
  | 2 => 59 + leap
  | 3 => 90 + leap
  | 4 => 120 + leap
  | 5 => 151 + leap
  | 6 => 181 + leap
  | 7 => 212 + leap
  | 8 => 243 + leap
  | 9 => 273 + leap
  | 10 => 304 + leap
  | _ => 334 + leap
  end.

(** ['MMM dd'] of a month (from 0) and a day of the month. *)
Definition label_MMM_dd (md : Z * Z) : string :=
  monthAbbr md.1 +:+ " " +:+ twoDigits md.2.

(** All months with all days of the month up to 31. *)
Definition monthDays : list (Z * Z) :=
  m ← seqZ 0 12; d ← seqZ 1 31; [(m, d)].

(** Distinct month-day pairs have distinct labels. *)
Definition labels_distinct : bool :=
  forallb (λ p,
             forallb (λ q,
                        implb (String.eqb (label_MMM_dd p) (label_MMM_dd q))
                              (bool_decide (p = q)))
                     monthDays)
          monthDays.

(** Two instants fall in the same week, the weeks starting on Monday, in
    the zone at offset [tz]. *)
Definition sameWeek (tz t1 t2 : Z) : Prop :=
  ∃ monday, WeekDay monday = 1
            ∧ monday ≤ localDay tz t1 < monday + 7
            ∧ monday ≤ localDay tz t2 < monday + 7.

(** The rows of calendar day [d]. *)
Definition rowsOfDay (d : Z) (rows : list Event) : list Event :=
  filter (λ e, Day (received_at e) = d) rows.

(** The rows whose week has the label [k]. *)
Definition rowsOfWeekLabel (tz : Z) (k : string) (rows : list Event)
  : list Event :=
  filter (λ e, Users.weekStart tz (received_at e) = k) rows.

(** Monday 1 January 2018 and Monday 1 January 2024, at noon. *)
Definition monday_2018 : Z := 17532 * msPerDay + 43200000.
Definition monday_2024 : Z := 19723 * msPerDay + 43200000.

Definition two_mondays : list Event := [
  {| received_at := monday_2018; firebase_uid := "A";
     event_name := "app_launch"; props := None |};
  {| received_at := monday_2024; firebase_uid := "B";
     event_name := "app_launch"; props := None |}
].

(** A Wednesday and the Sunday of the same week, and the Monday after. *)
Definition one_week : list Event := [
  {| received_at := 19725 * msPerDay + 1000; firebase_uid := "A";
     event_name := "app_launch"; props := None |};
  {| received_at := 19729 * msPerDay + 2000; firebase_uid := "B";
     event_name := "basket_results_displayed"; props := None |};
  {| received_at := 19730 * msPerDay; firebase_uid := "A";
     event_name := "app_launch"; props := None |}
].

End BucketSpec.

(** ** Ratios *)

Module RatioSpec.

(** A computed ratio is a number, and it is 0 when its divisor is 0. *)
Definition resolves (value : jsnum) (divisor : Z) : Prop :=
  JS.is_finite value ∧ (divisor = 0 → value = JS.Fin 0).

(** A value that adds up as a number without leaving the whole numbers
    that a double holds: a number of a magnitude up to [2^53], a boolean
    or [null]. *)
Definition plain (v : Json.value) : Prop :=
  match v with
  | Json.Num q => (Qabs q <= inject_Z (2 ^ 53))%Q
  | Json.Null | Json.Bool _ => True
  | Json.Text _ | Json.Array | Json.Object => False
  end.

(** Rows with such savings, fewer than [2^32] of them, as in every
    array. *)
Definition plainRows (rows : list Savings.Row) : Prop :=
  Z.of_nat (length rows) < 2 ^ 32
  ∧ ∀ r, r ∈ rows → plain (Savings.savings r).

(** The value is a number that the model gives. *)
Definition finite (value : option jsnum) : Prop :=
  ∃ x, value = Some x ∧ JS.is_finite x.

(** A number of a magnitude up to [2^53 * n]. *)
Definition within (n : Z) (x : jsnum) : Prop :=
  ∃ q, x = JS.Fin q ∧ (Qabs q <= inject_Z (2 ^ 53 * n))%Q.

(** A basket of user [u] with the savings [v]. *)
Definition basketOf (u : string) (v : Json.value) : Savings.Row :=
  {| Savings.uid := u; Savings.name := "basket_results_displayed";
     Savings.savings := v |}.

(** One basket whose savings are the text ["n/a"]. *)
Definition text_savings : list Savings.Row :=
  [basketOf "A" (Json.Text "n/a")].

(** Two baskets whose savings are 1e308 each. *)
Definition large_savings : list Savings.Row :=
  [basketOf "A" (Json.Num (inject_Z (10 ^ 308)));
   basketOf "B" (Json.Num (inject_Z (10 ^ 308)))].

(** Three baskets with 250, 0 and 375 cents, and a row without savings. *)
Definition plain_savings : list Savings.Row :=
  [basketOf "A" (Json.Num (inject_Z 250));
   basketOf "A" (Json.Num (inject_Z 0));
   basketOf "B" (Json.Num (inject_Z 375));
   {| Savings.uid := "C"; Savings.name := "app_launch";
      Savings.savings := Json.Null |}].

End RatioSpec.

(** * The rest of the pages

    The tables and numbers of the pages that the sections above leave out,
    the access check in front of the pages and the start of the time range,
    followed by the notions that the statements about them use.

    The code:
    - [Module Clock]: the time of day in a formatted date.
    - [Module FeatureTables]: the page of one feature (event breakdown, top
      users, stats).
    - [Module Counter]: counting by key, the pattern of the count tables.
    - [Module DemoLists]: the onboarding page (demo lists).
    - [Module Overview]: the overview page (new users, daily activity, count
      tables, processing time, savings, list activity, store health, today).
    - [Module Middleware]: the access check.
    - [Module DateFilter]: [getDateFilter], with date-fns [subMonths].

    Modelling conventions, besides the ones above.
    - A row of a count table is the pair of its key and its count.
    - A state that a pass only sets under a condition is a function of its
      value before the pass.
    - A response of the access check is [NextResponse.next()] or a redirect
      to a path, with the cookie it sets. *)

(** ** Time of day *)

Module Clock.
Import Calendar.

(** [HourFromTime] and [MinFromTime] *)
Definition HourFromTime (t : Z) : Z := (t / 3600000) mod 24.
Definition MinFromTime (t : Z) : Z := (t / 60000) mod 60.

(** date-fns [format(date, 'MMM dd HH:mm')] *)
Definition format_MMM_dd_HH_mm (tz t : Z) : string :=
  format_MMM_dd tz t +:+ " " +:+ twoDigits (HourFromTime (t + tz))
  +:+ ":" +:+ twoDigits (MinFromTime (t + tz)).

End Clock.

(** ** The feature page: event breakdown, top users, stats *)

Module FeatureTables.

(** One entry of [eventMap]: [{ count, users }]. *)
Record EventEntry : Type := { count : Z; users : gset string }.

(** The body of [events.forEach(e => ...)] on [eventMap]. *)
Definition addEvent (m : list (string * EventEntry)) (e : Event)
  : list (string * EventEntry) :=
  Coll.upsert (event_name e) {| count := 0; users := ∅ |}
    (λ ev, {| count := count ev + 1;
              users := {[firebase_uid e]} ∪ users ev |})
    m.

Definition eventMap (rows : list Event) : list (string * EventEntry) :=
  foldl addEvent [] rows.

(** [EventData], with fields [name], [count], [users]. *)
Record EventData : Type := { name : string; e_count : Z; e_users : Z }.

Definition breakdownRow (entry : string * EventEntry) : EventData :=
  {| name := Users.replaceUnderscores entry.1;
     e_count := count entry.2;
     e_users := size_Z (users entry.2) |}.

(** [const breakdown = Array.from(eventMap.entries()).map(...).sort(...)] *)
Definition breakdown (rows : list Event) : list EventData :=
  Coll.sort_by (λ a b, e_count b - e_count a)
    (breakdownRow <$> eventMap rows).

(** One entry of [userMap]: [{ events, lastSeen }]. *)
Record UserEntry : Type := { events : Z; lastSeen : Z }.

(** The body of [events.forEach(e => ...)] on [userMap]: a new user starts
    with the timestamp of the row, a known one moves to a later one. *)
Definition addUser (m : list (string * UserEntry)) (e : Event)
  : list (string * UserEntry) :=
  Coll.upsert (firebase_uid e)
    {| events := 0; lastSeen := received_at e |}
    (λ user, {| events := events user + 1;
                lastSeen := if lastSeen user <? received_at e
                            then received_at e else lastSeen user |})
    m.

Definition userMap (rows : list Event) : list (string * UserEntry) :=
  foldl addUser [] rows.

(** [UserData], with fields [user], [events], [lastSeen]. *)
Record UserData : Type := {
  user : string;
  u_events : Z;
  u_lastSeen : string;
}.

Definition userRow (tz : Z) (entry : string * UserEntry) : UserData :=
  {| user := substring 0 8 entry.1 +:+ "...";
     u_events := events entry.2;
     u_lastSeen := Clock.format_MMM_dd_HH_mm tz (lastSeen entry.2) |}.

(** [const users = Array.from(userMap.entries()).map(...).sort(...)
    .slice(0, 10)], on rows that all have a timestamp and a user;
    [topUsersPass] below is the pass on rows as the store returns them. *)
Definition topUsers (tz : Z) (rows : list Event) : list UserData :=
  take 10 (Coll.sort_by (λ a b, u_events b - u_events a)
             (userRow tz <$> userMap rows)).

(** The [stats] state, with fields [totalEvents], [uniqueUsers],
    [avgPerUser], [todayEvents]. *)
Record Stats : Type := {
  totalEvents : Z;
  uniqueUsers : Z;
  avgPerUser : jsnum;
  todayEvents : Z;
}.

(** The value that [setStats] is called with, on rows that all have a
    timestamp and a user; [statsPass] below is the state after the pass
    on rows as the store returns them. *)
Definition stats (tz now : Z) (rows : list Event) : Stats :=
  let today := Calendar.localDay tz now in
  {| totalEvents := Z.of_nat (length rows);
     uniqueUsers := size_Z (uid_set rows);
     avgPerUser := Feature.avgPerUser rows;
     todayEvents :=
       Z.of_nat (length (filter (λ e, Calendar.isoDate (received_at e)
                                      = today) rows)) |}.

(** *** The pass on rows as the store returns them

    [received_at] and [firebase_uid] of a row may be [null].  The pass has
    no [try]: where a callback throws, the pass ends and the states that
    it has not set yet keep their values. *)

(** A row that the first loop has read: it calls [split] on every
    timestamp, which throws on [null]. *)
Record Row : Type := { r_received_at : Z; r_firebase_uid : option string }.

Definition readRow (e : Users.RawEvent) : option Row :=
  t ← Users.raw_received_at e;
  Some {| r_received_at := t; r_firebase_uid := Users.raw_firebase_uid e |}.

Definition readRows (rows : list Users.RawEvent) : option (list Row) :=
  mapM readRow rows.

(** A row with a timestamp and a user, as the first loop reads it. *)
Definition complete (e : Event) : Row :=
  {| r_received_at := received_at e;
     r_firebase_uid := Some (firebase_uid e) |}.

(** The body of [events.forEach(e => ...)] on [userMap]; [null] is a key
    like any other. *)
Definition addRow (m : list (option string * UserEntry)) (r : Row)
  : list (option string * UserEntry) :=
  Coll.upsert (r_firebase_uid r)
    {| events := 0; lastSeen := r_received_at r |}
    (λ user, {| events := events user + 1;
                lastSeen := if lastSeen user <? r_received_at r
                            then r_received_at r else lastSeen user |})
    m.

Definition userMapOf (rows : list Row) : list (option string * UserEntry) :=
  foldl addRow [] rows.

(** The callback of [.map(([user, data]) => ...)]: [user.slice(0, 8)]
    throws on the key [null]. *)
Definition userDataOf (tz : Z) (entry : option string * UserEntry)
  : option UserData :=
  u ← entry.1; Some (userRow tz (u, entry.2)).

(** The value that [setTopUsers] is called with; [None] when the pass has
    thrown before the call. *)
Definition topUsersPass (tz : Z) (rows : list Users.RawEvent)
  : option (list UserData) :=
  read ← readRows rows;
  users ← mapM (userDataOf tz) (userMapOf read);
  Some (take 10 (Coll.sort_by (λ a b, u_events b - u_events a) users)).

(** The [stats] state after the pass, [prev] being the state before it:
    [setStats] comes after [setTopUsers]. *)
Definition statsPass (prev : Stats) (tz now : Z)
    (rows : list Users.RawEvent) : Stats :=
  match topUsersPass tz rows with
  | None => prev
  | Some _ =>
      let len := Z.of_nat (length rows) in
      let uniqueUsers :=
        size_Z (list_to_set (Users.raw_firebase_uid <$> rows)
                : gset (option string)) in
      {| totalEvents := len;
         uniqueUsers := uniqueUsers;
         avgPerUser := if 0 <? uniqueUsers
                       then JS.round_div len uniqueUsers else JS.of_Z 0;
         todayEvents :=
           Z.of_nat (length (filter (λ e, Calendar.isoDate
                                            <$> Users.raw_received_at e
                                          = Some (Calendar.localDay tz now))
                                    rows)) |}
  end.

End FeatureTables.

(** ** Counting by key *)

Module Counter.

(** [m.set(k, (m.get(k) || 0) + 1)] *)
Definition bump {K : Type} `{EqDecision K} (k : K) (m : list (K * Z))
  : list (K * Z) :=
  Coll.upsert k 0 (λ n, n + 1) m.

(** [keys.forEach(k => m.set(k, (m.get(k) || 0) + 1))] on a new [Map] *)
Definition countBy {K : Type} `{EqDecision K} (keys : list K)
  : list (K * Z) :=
  foldl (λ m k, bump k m) [] keys.

(** [Array.from(m.entries()).map(([key, count]) => ({ key, count }))
    .sort((a, b) => b.count - a.count)]; a row is the pair of its two
    fields. *)
Definition byCountDesc {K : Type} (m : list (K * Z)) : list (K * Z) :=
  Coll.sort_by (λ a b, b.2 - a.2) m.

End Counter.

(** ** The onboarding page: demo lists *)

Module DemoLists.

(** [e.props?.list_key] when it is truthy. *)
Definition listKey (e : Event) : option string :=
  p ← props e; k ← list_key p; if String.eqb k "" then None else Some k.

(** The second half of the body of [events?.forEach(e => ...)]. *)
Definition addDemoList (m : list (string * Z)) (e : Event)
  : list (string * Z) :=
  if decide (event_name e = "demo_list_selected")
  then match listKey e with
       | Some key => Counter.bump key m
       | None => m
       end
  else m.

Definition demoLists (events : list Event) : list (string * Z) :=
  foldl addDemoList [] events.

(** [setDemoListStats(...)]: rows [{ list, count }]. *)
Definition demoListStats (events : list Event) : list (string * Z) :=
  Counter.byCountDesc (demoLists events).

End DemoLists.

(** ** The overview page: the other tables *)

Module Overview.

(** A row of [analytics_events] with its [platform] column. *)
Record Row : Type := { event : Event; platform : option string }.

(** A row of [chat_sessions]. *)
Record Session : Type := {
  s_created_at : Z;
  user_id : string;
  state : string;
}.

(** A row of [chat_messages]. *)
Record ChatMessage : Type := {
  m_created_at : Z;
  role : string;
  response_type : option string;
  processing_ms : option Z;
}.

(** *** New users *)

(** [userFirstEvent]: the first row of a user sets the entry, later rows
    leave it. *)
Definition userFirstEvent (allEvents : list Event) : list (string * Z) :=
  foldl (λ m e, Coll.upsert (firebase_uid e) (received_at e) (λ v, v) m)
        [] allEvents.

(** [Array.from(userFirstEvent.values()).filter(firstEvent =>
    firstEvent >= dateFilter).length] *)
Definition newUsersCount (dateFilter : Z) (allEvents : list Event) : Z :=
  Z.of_nat (length (filter (λ firstEvent,
                              Calendar.textGe firstEvent dateFilter = true)
                           (userFirstEvent allEvents).*2)).

(** [allUsers.size] *)
Definition totalUsers (events : list Event) : Z := size_Z (uid_set events).

(** *** Daily activity *)

(** [DailyStats], with fields [date], [unique_users], [total_events]. *)
Record DailyStats : Type := {
  date : string;
  unique_users : Z;
  total_events : Z;
}.

Definition dailyRow (tz : Z) (entry : Z * Feature.DayData) : DailyStats :=
  {| date := Calendar.format_MMM_dd tz (Calendar.dateOfIso entry.1);
     unique_users := size_Z (Feature.users entry.2);
     total_events := Feature.events entry.2 |}.

(** [Array.from(dailyMap.entries()).map(...).reverse().slice(-14)]; the
    loop that fills [dailyMap] is the one of the feature page. *)
Definition dailyStatsArray (tz : Z) (events : list Event)
  : list DailyStats :=
  Coll.slice_last 14 (reverse (dailyRow tz <$> Feature.dailyMap events)).

(** *** Count tables *)

(** [eventArray]: rows [{ event_name, count }]. *)
Definition eventArray (events : list Event) : list (string * Z) :=
  take 10 (Counter.byCountDesc (Counter.countBy (event_name <$> events))).

(** [funnelArray]: rows [{ state, count }]. *)
Definition funnelArray (sessions : list Session) : list (string * Z) :=
  Counter.byCountDesc (Counter.countBy (state <$> sessions)).

(** [e.platform || 'unknown'] *)
Definition platformOf (r : Row) : string :=
  match platform r with
  | Some p => if String.eqb p "" then "unknown" else p
  | None => "unknown"
  end.

(** [setPlatformData(...)]: rows [{ platform, count }]. *)
Definition platformData (rows : list Row) : list (string * Z) :=
  Counter.byCountDesc (Counter.countBy (platformOf <$> rows)).

(** [m.role === 'assistant' && m.response_type], with the type. *)
Definition assistantType (m : ChatMessage) : option string :=
  if decide (role m = "assistant")
  then ty ← response_type m; if String.eqb ty "" then None else Some ty
  else None.

(** [setResponseTypes(...)]: rows [{ type, count }]. *)
Definition responseTypes (messages : list ChatMessage)
  : list (string * Z) :=
  Counter.byCountDesc (Counter.countBy (omap assistantType messages)).

(** *** Processing time, savings, baskets *)

(** [messages?.filter(m => m.processing_ms).map(m => m.processing_ms)] *)
Definition processingTimes (messages : list ChatMessage) : list Z :=
  omap (λ m, n ← processing_ms m; if n =? 0 then None else Some n)
       messages.

(** The value of [avgProcessingMs] after the fetch, [prev] before it: the
    state is only set when there are processing times. *)
Definition avgProcessingMs (prev : jsnum) (messages : list ChatMessage)
  : jsnum :=
  let times := processingTimes messages in
  if (0 <? length times)%nat
  then JS.round_div (Users.sum times) (Z.of_nat (length times))
  else prev.

(** [savings] and [baskets] after the loop. *)
Definition savingsBaskets (events : list Event) : Z * Z :=
  foldl (λ st e,
           (match Users.savingsOf e with
            | Some n => st.1 + n
            | None => st.1
            end,
            if decide (event_name e = "basket_results_displayed")
            then st.2 + 1 else st.2))
        (0, 0) events.

Definition totalSavings (events : list Event) : Z :=
  (savingsBaskets events).1.
Definition basketsGenerated (events : list Event) : Z :=
  (savingsBaskets events).2.

(** *** List activity *)

(** [listActions]: pairs of [key] and [label]. *)
Definition listActions : list (string * string) := [
  ("shopping_list_viewed", "Lists Viewed");
  ("product_added_to_list", "Products Added");
  ("multiple_products_added", "Bulk Adds");
  ("shopping_list_saved", "Lists Saved");
  ("item_added", "Items Added")
].

(** A row of [listStats], with fields [action], [count], [users]. *)
Record ListStat : Type := { action : string; l_count : Z; l_users : Z }.

Definition listStat (events : list Event) (a : string * string)
  : ListStat :=
  let actionEvents := named a.1 events in
  {| action := a.2;
     l_count := Z.of_nat (length actionEvents);
     l_users := size_Z (uid_set actionEvents) |}.

(** [listActions.map(...).filter(s => s.count > 0)] *)
Definition listStatsOf (actions : list (string * string))
    (events : list Event) : list ListStat :=
  filter (λ s, 0 < l_count s) (listStat events <$> actions).

Definition listStatsData (events : list Event) : list ListStat :=
  listStatsOf listActions events.

(** *** Store health *)

(** A row of [stores]. *)
Record Store : Type := { id : Z; store_name : string }.

(** [StoreHealth], with fields [name], [products], [promos]. *)
Record StoreHealth : Type := { name : string; products : Z; promos : Z }.

(** [m.get(id) || 0] *)
Definition getOrZero (m : list (Z * Z)) (k : Z) : Z :=
  default 0 (Coll.get k m).

(** [stores.map((s) => ({ ... }))]; the arguments are the [store_id]
    columns of [promotions] and [store_offerings]. *)
Definition storeHealthData (stores : list Store)
    (promoCounts productCounts : list Z) : list StoreHealth :=
  let promoMap := Counter.countBy promoCounts in
  let productMap := Counter.countBy productCounts in
  (λ s, {| name := store_name s;
           products := getOrZero productMap (id s);
           promos := getOrZero promoMap (id s) |}) <$> stores.

(** The value of [storeHealth] after the fetch, [prev] before it: a
    query without data leaves the state as it was. *)
Definition storeHealth (prev : list StoreHealth)
    (stores : option (list Store)) (promoCounts productCounts : option (list Z))
  : list StoreHealth :=
  match stores, promoCounts, productCounts with
  | Some s, Some promo, Some product =>
      take 10 (Coll.sort_by (λ a b, products b - products a)
                 (storeHealthData s promo product))
  | _, _, _ => prev
  end.

(** *** Today *)

(** The [todayStats] state, with fields [users], [events], [sessions],
    [messages]. *)
Record TodayStats : Type := {
  t_users : Z;
  t_events : Z;
  t_sessions : Z;
  t_messages : Z;
}.

Definition todayStats (tz now : Z) (events : list Event)
    (sessions : list Session) (messages : list ChatMessage) : TodayStats :=
  let today := Calendar.localDay tz now in
  let todayEvents :=
    filter (λ e, Calendar.isoDate (received_at e) = today) events in
  {| t_users := size_Z (uid_set todayEvents);
     t_events := Z.of_nat (length todayEvents);
     t_sessions :=
       Z.of_nat (length (filter (λ s, Calendar.isoDate (s_created_at s)
                                      = today) sessions));
     t_messages :=
       Z.of_nat (length (filter (λ m, Calendar.isoDate (m_created_at m)
                                      = today) messages)) |}.

End Overview.

(** ** The access check in front of the pages *)

Module Middleware.

(** [s.startsWith(prefix)] *)
Definition startsWith (prefix s : string) : bool := String.prefix prefix s.

(** [s.includes(sub)] *)
Fixpoint includes (sub s : string) : bool :=
  String.prefix sub s
  || match s with
     | EmptyString => false
     | String _ s' => includes sub s'
     end.

(** What the check reads from a request: [nextUrl.pathname],
    [searchParams.get('key')] and the value of the cookie
    [dashboard_key]. *)
Record Request : Type := {
  pathname : string;
  urlKey : option string;
  cookieKey : option string;
}.

(** The cookie a response sets: name, value and options. *)
Record Cookie : Type := {
  c_name : string;
  c_value : string;
  httpOnly : bool;
  secure : bool;
  sameSite : string;
  maxAge : Z;
}.

(** [NextResponse.next()], or [NextResponse.redirect(new URL(path,
    request.url))], which drops the query, with the cookie it sets. *)
Inductive Response : Type :=
| Next
| Redirect (path : string) (cookie : option Cookie).

(** [process.env.DASHBOARD_SECRET_KEY || 'spaartje2024'] *)
Definition SECRET_KEY (env : option string) : string :=
  match env with
  | Some k => if String.eqb k "" then "spaartje2024" else k
  | None => "spaartje2024"
  end.

(** [k === SECRET_KEY] for a value that may be missing. *)
Definition isKey (secret : string) (k : option string) : bool :=
  match k with
  | Some v => String.eqb v secret
  | None => false
  end.

(** The paths the check skips. *)
Definition skipped (path : string) : bool :=
  startsWith "/_next" path || startsWith "/api" path || includes "." path.

(** [middleware(request)]; [env] is [DASHBOARD_SECRET_KEY] and
    [production] is [NODE_ENV === 'production']. *)
Definition middleware (env : option string) (production : bool)
    (request : Request) : Response :=
  if skipped (pathname request) then Next
  else if isKey (SECRET_KEY env) (urlKey request) then
    Redirect (pathname request)
      (Some {| c_name := "dashboard_key";
               c_value := SECRET_KEY env;
               httpOnly := true;
               secure := production;
               sameSite := "lax";
               maxAge := 60 * 60 * 24 * 30 |})
  else if isKey (SECRET_KEY env) (cookieKey request) then Next
  else if negb (String.eqb (pathname request) "/access-denied")
       then Redirect "/access-denied" None
       else Next.

End Middleware.

(** ** The start of the time range *)

Module DateFilter.
Import Calendar.

(** The number of days of month [m] (0 for January) in a year with leap
    flag [leap]. *)
Definition DaysInMonth (leap m : Z) : Z :=
  match m with
  | 1 => 28 + leap
  | 3 | 5 | 8 | 10 => 30
  | _ => 31
  end.

(** [MakeDay(year, month, date)] for a month from 0 to 11. *)
Definition MakeDay (y m dt : Z) : Z :=
  DayFromYear y + BucketSpec.monthStart m (InLeapYear y) + dt - 1.

(** date-fns [subMonths(date, amount)], which is [addMonths(date,
    -amount)]: the same day of the month, [amount] months earlier, or the
    last day of that month when the month is shorter; the local time of
    day stays. *)
Definition subMonths (tz t amount : Z) : Z :=
  let lt := t + tz in
  let d := Day lt in
  let months := YearFromDay d * 12 + MonthFromDay d - amount in
  let y := months / 12 in
  let m := months mod 12 in
  let daysInMonth := DaysInMonth (InLeapYear y) m in
  let dt := Z.min (DateFromDay d) daysInMonth in
  MakeDay y m dt * msPerDay + lt mod msPerDay - tz.

(** The values of [timeRange]. *)
Inductive TimeRange : Type :=
| R24h | R7d | R30d | R3m | R6m | R9m | R1y.

(** [getDateFilter(range)], the same on all four pages; [now] is
    [new Date()]. *)
Definition getDateFilter (tz now : Z) (range : TimeRange) : Z :=
  match range with
  | R24h => subDays now 1
  | R7d => subDays now 7
  | R30d => subDays now 30
  | R3m => subMonths tz now 3
  | R6m => subMonths tz now 6
  | R9m => subMonths tz now 9
  | R1y => subMonths tz now 12
  end.

(** The ranges from the shortest to the longest. *)
Definition ranges : list TimeRange := [R24h; R7d; R30d; R3m; R6m; R9m; R1y].

End DateFilter.

(** ** Orders and sums in the statements *)

Module TableSpec.

(** The values of [key] never go up along the list. *)
Definition descendingBy {A : Type} (key : A → Z) (l : list A) : Prop :=
  StronglySorted (λ a b, key b ≤ key a) l.

(** The rows come in the order of their timestamps, as
    [.order('received_at', { ascending: true })] and
    [{ ascending: false }] give them. *)
Definition ascendingTime (rows : list Event) : Prop :=
  StronglySorted (λ a b, received_at a ≤ received_at b) rows.

Definition descendingTime (rows : list Event) : Prop :=
  StronglySorted (λ a b, received_at b ≤ received_at a) rows.

(** The sum of [f] over a list. *)
Definition total {A : Type} (f : A → Z) (l : list A) : Z :=
  foldr (λ x acc, f x + acc) 0 l.

(** How often [k] occurs in [l]. *)
Definition occurrences {K : Type} `{EqDecision K} (k : K) (l : list K)
  : Z :=
  Z.of_nat (length (filter (λ x, x = k) l)).

(** The rows of user [u]. *)
Definition rowsOfUser (u : string) (rows : list Event) : list Event :=
  filter (λ e, firebase_uid e = u) rows.

(** Rows with the same [key] keep their order from [l] to [l']. *)
Definition tiesKeepOrder {A : Type} (key : A → Z) (l l' : list A) : Prop :=
  ∀ c : Z, filter (λ x, key x = c) l' = filter (λ x, key x = c) l.

(** [l] is a stable sort of [l0] by [key], largest first. *)
Definition sortedDescending {A : Type} (key : A → Z) (l0 l : list A)
  : Prop :=
  l ≡ₚ l0 ∧ descendingBy key l ∧ tiesKeepOrder key l0 l.

(** [shown] are the first [n] rows of a list in which no row that follows
    has a larger [key]. *)
Definition topOf {A : Type} (key : A → Z) (n : nat) (all shown : list A)
  : Prop :=
  (length shown ≤ n)%nat
  ∧ descendingBy key shown
  ∧ ∃ rest, shown ++ rest ≡ₚ all
            ∧ (rest ≠ [] → length shown = n)
            ∧ ∀ a b, a ∈ shown → b ∈ rest → key b ≤ key a.

(** The distinct elements of [l], in the order of their first
    occurrence. *)
Fixpoint firstSeen {K : Type} `{EqDecision K} (l : list K) : list K :=
  match l with
  | [] => []
  | x :: l' => x :: filter (λ y, y ≠ x) (firstSeen l')
  end.

(** The latest timestamp of a list of rows that is not empty. *)
Definition latest (l : list Event) : Z :=
  match l with
  | [] => 0
  | e :: l' => foldl Z.max (received_at e) (received_at <$> l')
  end.

(** [days] are the latest days that have rows, at most [n] of them, the
    oldest first. *)
Definition latestDays (n : nat) (rows : list Event) (days : list Z)
  : Prop :=
  StronglySorted Z.lt days
  ∧ (length days ≤ n)%nat
  ∧ (∀ d, d ∈ days → BucketSpec.rowsOfDay d rows ≠ [])
  ∧ (∀ d, BucketSpec.rowsOfDay d rows ≠ [] → d ∉ days →
          length days = n ∧ ∀ d', d' ∈ days → d < d').

(** The row of day [d] on the feature page and on the overview page. *)
Definition featureDay (tz : Z) (rows : list Event) (d : Z)
  : Feature.DailyData :=
  let l := BucketSpec.rowsOfDay d rows in
  {| Feature.date := Calendar.format_MMM_dd tz (Calendar.dateOfIso d);
     Feature.d_events := Z.of_nat (length l);
     Feature.d_users := size_Z (uid_set l) |}.

Definition overviewDay (tz : Z) (rows : list Event) (d : Z)
  : Overview.DailyStats :=
  let l := BucketSpec.rowsOfDay d rows in
  {| Overview.date := Calendar.format_MMM_dd tz (Calendar.dateOfIso d);
     Overview.unique_users := size_Z (uid_set l);
     Overview.total_events := Z.of_nat (length l) |}.

(** The row of event name [ev] in the event breakdown. *)
Definition eventRow (rows : list Event) (ev : string)
  : FeatureTables.EventData :=
  {| FeatureTables.name := Users.replaceUnderscores ev;
     FeatureTables.e_count := Z.of_nat (length (named ev rows));
     FeatureTables.e_users := size_Z (uid_set (named ev rows)) |}.

(** The entry and the row of user [u] in the top users. *)
Definition userEntry (rows : list Event) (u : string)
  : FeatureTables.UserEntry :=
  {| FeatureTables.events := Z.of_nat (length (rowsOfUser u rows));
     FeatureTables.lastSeen := latest (rowsOfUser u rows) |}.

Definition userRowOf (tz : Z) (rows : list Event) (u : string)
  : FeatureTables.UserData :=
  FeatureTables.userRow tz (u, userEntry rows u).

End TableSpec.

(** ** The tiers of the segments in the statements *)

Module TierSpec.
Import SegmentSpec TableSpec.

(** The tier of a number of events, in the words of the specification:
    the thresholds are tried from the highest to the lowest, and the first
    one that the number meets is the tier. *)
Definition tierOf (n : Z) : option nat :=
  fst <$> list_find (λ th : Z * string, th.1 ≤ n) thresholds.

(** The unique users of tier [k]. *)
Definition usersOfTier (k : nat) (rows : list Event) : list string :=
  filter (λ u, tierOf (eventsOf u rows) = Some k) (elements (uid_set rows)).

(** User A with 60 events, user B with 20, user C with 19, user D with
    one. *)
Definition tier_events : list Event :=
  let row u := {| received_at := 0; firebase_uid := u;
                  event_name := "basket_viewed"; props := None |} in
  replicate 60 (row "A") ++ replicate 20 (row "B")
  ++ replicate 19 (row "C") ++ [row "D"].

End TierSpec.

(** ** The rows of a time range in the statements *)

Module FetchSpec.

(** The rows that the query of the users page returns for [range] when
    the page asks at [now]: [.gte('received_at', dateFilter)] keeps the
    rows from the date filter on, and the store has no row from a day or
    more after the moment of asking. *)
Definition fetched (tz now : Z) (range : DateFilter.TimeRange)
    (rows : list Event) : Prop :=
  ∀ e, e ∈ rows →
       DateFilter.getDateFilter tz now range ≤ received_at e
       < now + Calendar.msPerDay.

End FetchSpec.

(** ** The funnel in the statements *)

Module FunnelSpec.
Import Onboarding.

(** The users of a step, read from the counts. *)
Definition stepUsers (m : gmap string StepData) (s : Step) : Z :=
  size_Z (step_users (getData m (event s))).

End FunnelSpec.

(** ** Rates and latency rows in the statements *)

Module RateSpec.

(** A whole number between 0 and 100. *)
Definition percentage (x : jsnum) : Prop :=
  ∃ k : Z, x = JS.Fin (inject_Z k) ∧ 0 ≤ k ≤ 100.

(** One user with a basket, and two users who swap a product. *)
Definition action_rows : list Event := [
  {| received_at := 0; firebase_uid := "A";
     event_name := "basket_results_displayed"; props := None |};
  {| received_at := 1; firebase_uid := "A";
     event_name := "product_swapped"; props := None |};
  {| received_at := 2; firebase_uid := "B";
     event_name := "product_swapped"; props := None |}
].

(** The response type and the time of a message that has both. *)
Definition timedType (msg : Users.Message) : option (string * Z) :=
  ms ← Users.processing_ms msg;
  ty ← Users.response_type msg;
  if negb (ms =? 0) && negb (String.eqb ty "") then Some (ty, ms)
  else None.

(** The times of the messages of response type [ty], in the order of the
    messages. *)
Definition timesOf (ty : string) (messages : list Users.Message)
  : list Z :=
  (filter (λ p : string * Z, p.1 = ty) (omap timedType messages)).*2.

(** The response types of the messages, in the order of their first
    message. *)
Definition timedTypes (messages : list Users.Message) : list string :=
  TableSpec.firstSeen (omap timedType messages).*1.

(** A message of response type [ty] that took [ms] milliseconds. *)
Definition tookOf (ty : string) (ms : Z) (msg : Users.Message) : Prop :=
  Users.response_type msg = Some ty ∧ Users.processing_ms msg = Some ms.

(** A row of events at time [t] for user [u]. *)
Definition launch (t : Z) (u : string) : Event :=
  {| received_at := t; firebase_uid := u;
     event_name := "app_launch"; props := None |}.

End RateSpec.

(** ** The overview page in the statements *)

Module OverviewSpec.
Import Overview TableSpec.

(** The users with a row up to the millisecond [cut], that millisecond
    included. *)
Definition usersUpTo (cut : Z) (allEvents : list Event) : gset string :=
  uid_set (filter (λ e, received_at e ≤ cut) allEvents).

(** The rows that [.gte('received_at', dateFilter)] selects. *)
Definition since (cut : Z) (allEvents : list Event) : list Event :=
  filter (λ e, cut ≤ received_at e) allEvents.

(** The row of a store: its offerings and its promotions. *)
Definition storeRow (promoCounts productCounts : list Z) (s : Store)
  : StoreHealth :=
  {| name := store_name s;
     products := occurrences (id s) productCounts;
     promos := occurrences (id s) promoCounts |}.

(** Only basket rows carry savings. *)
Definition savingsOnBaskets (rows : list Event) : Prop :=
  ∀ e, e ∈ rows → is_Some (Users.savingsOf e) →
       event_name e = "basket_results_displayed".

(** A basket of user [u] at time [t] that saves [n] cents. *)
Definition basket (t : Z) (u : string) (n : Z) : Event :=
  {| received_at := t; firebase_uid := u;
     event_name := "basket_results_displayed";
     props := Some {| savings_cents := Some n; is_new_user := None;
                      is_returning_device := None; list_key := None |} |}.

(** A message with a processing time. *)
Definition timed (t : Z) : ChatMessage :=
  {| m_created_at := 0; role := "assistant";
     response_type := None; processing_ms := Some t |}.

End OverviewSpec.

(** ** The access check in the statements *)

Module MiddlewareSpec.
Import Middleware.

(** The request a browser sends when it follows a redirect: the new
    path, no query, and the cookie it holds, replaced by the one the
    response sets. *)
Definition follow (request : Request) (r : Response) : option Request :=
  match r with
  | Next => None
  | Redirect path cookie =>
      Some {| pathname := path;
              urlKey := None;
              cookieKey :=
                match cookie with
                | Some c =>
                    if String.eqb (c_name c) "dashboard_key"
                    then Some (c_value c) else cookieKey request
                | None => cookieKey request
                end |}
  end.

(** A request with the key in the URL. *)
Definition login (path key : string) : Request :=
  {| pathname := path; urlKey := Some key; cookieKey := None |}.

End MiddlewareSpec.

(** ** The daily chart of the users page in the statements *)

Module UsersDailySpec.

(** A day of the feature page, as the users page holds it. *)
Definition asUsersDay (entry : Z * Feature.DayData) : Z * Users.DayData :=
  (entry.1, {| Users.users := set_map Some (Feature.users entry.2);
               Users.events := Feature.events entry.2 |}).

(** A row of the daily chart of the feature page, as a row of the daily
    chart of the users page. *)
Definition asUsersRow (r : Feature.DailyData) : Users.DailyUsers :=
  {| Users.date := Feature.date r;
     Users.dau := Feature.d_users r;
     Users.d_events := Feature.d_events r |}.

End UsersDailySpec.

(** * Proofs *)

(** Linear arithmetic with divisions by constants. *)
Ltac div_lia := Z.to_euclidean_division_equations; lia.

(** ** The embedding on concrete values *)

Section Checks.

(** [(37.5).toFixed(0)] is ["38"], [(-0.1).toFixed(0)] is ["-0"]. *)
Example toFixed0_half : JS.toFixed0 (JS.Fin (75 # 2)) = "38".
Proof. by vm_compute. Qed.

Example toFixed0_small_negative : JS.toFixed0 (JS.Fin (-1 # 10)) = "-0".
Proof. by vm_compute. Qed.

(** [Math.round(2.5)] is 3 and [Math.round(-2.5)] is -2. *)
Example round_half_up :
  JS.round (JS.Fin (5 # 2)) = JS.Fin 3
  ∧ JS.round (JS.Fin (-5 # 2)) = JS.Fin (-2).
Proof. by vm_compute. Qed.

(** [0 / 0] is NaN, [1 / 0] is Infinity. *)
Example div_by_zero :
  JS.div (JS.of_Z 0) (JS.of_Z 0) = JS.NaN
  ∧ JS.div (JS.of_Z 1) (JS.of_Z 0) = JS.PosInf
  ∧ JS.pct 0 0 = JS.NaN.
Proof. by vm_compute. Qed.

(** Day 19782 is 29 February 2024, day 11016 is 29 February 2000, day -1 is
    31 December 1969. *)
Example leap_days :
  Calendar.formatDay_MMM_dd 19782 = "Feb 29"
  ∧ Calendar.formatDay_MMM_dd 19783 = "Mar 01"
  ∧ Calendar.formatDay_MMM_dd 11016 = "Feb 29"
  ∧ Calendar.YearFromDay 11016 = 2000
  ∧ Calendar.formatDay_MMM_dd (-1) = "Dec 31".
Proof. by vm_compute. Qed.

(** Sunday 7 January 2024, 23:00, belongs to the week of Monday 1 January;
    an hour later in a zone two hours ahead it is Monday 8 January. *)
Example week_of_sunday :
  Calendar.WeekDay 19729 = 0
  ∧ Users.weekStart 0 (19729 * Calendar.msPerDay + 82800000) = "Jan 01"
  ∧ Users.weekStart 7200000 (19729 * Calendar.msPerDay + 82800000)
    = "Jan 08".
Proof. by vm_compute. Qed.

(** The sort keeps the order of elements that compare equal. *)
Example sort_by_stable :
  Coll.sort_by (λ a b : Z * string, b.1 - a.1)
    [(1, "a"); (3, "b"); (1, "c"); (3, "d")]
  = [(3, "b"); (3, "d"); (1, "a"); (1, "c")].
Proof. by vm_compute. Qed.

(** A new key goes to the end, a known key is updated where it is. *)
Example upsert_order :
  Coll.upsert "b" 0 Z.succ (Coll.upsert "a" 0 Z.succ
                              (Coll.upsert "b" 0 Z.succ []))
  = [("b", 2); ("a", 1)].
Proof. by vm_compute. Qed.

End Checks.

(** ** Facts about JavaScript numbers *)

Section JSFacts.

Lemma Qeq_bool_inject_Z_0 (z : Z) : Qeq_bool (inject_Z z) 0 = (z =? 0).
Proof.
  unfold Qeq_bool, inject_Z; simpl. rewrite Z.mul_1_r.
  destruct z; reflexivity.
Qed.

Lemma div_of_Z (n d : Z) :
  d ≠ 0 → JS.div (JS.of_Z n) (JS.of_Z d) = JS.Fin (inject_Z n / inject_Z d).
Proof.
  intros Hd. unfold JS.div, JS.of_Z. rewrite Qeq_bool_inject_Z_0.
  destruct (Z.eqb_spec d 0); [contradiction | reflexivity].
Qed.

Lemma pct_finite (n d : Z) :
  d ≠ 0 →
  JS.pct n d
  = JS.of_Z (Qfloor (inject_Z n / inject_Z d * inject_Z 100 + (1 # 2))).
Proof. intros Hd. unfold JS.pct. rewrite div_of_Z by done. reflexivity. Qed.

Lemma Qneg_bool_spec (q : Q) : JS.Qneg_bool q = true ↔ (q < 0)%Q.
Proof.
  unfold JS.Qneg_bool. rewrite negb_true_iff.
  destruct (Qle_bool 0 q) eqn:E.
  - apply Qle_bool_iff in E. split; [discriminate |].
    intros H. exfalso. eapply Qlt_not_le; eauto.
  - split; [intros _ | reflexivity].
    apply Qnot_le_lt. intros H. apply Qle_bool_iff in H. congruence.
Qed.

Lemma toFixed0_magnitude_nearest (q : Q) :
  (Qabs (inject_Z (Z.of_N (JS.toFixed0_magnitude q)) - Qabs q) <= 1 # 2)%Q.
Proof.
  unfold JS.toFixed0_magnitude.
  set (x := Qabs q).
  assert (Hx : (0 <= x)%Q) by apply Qabs_nonneg.
  assert (H0 : 0 <= Qfloor (x + (1 # 2))).
  { change 0 with (Qfloor 0). apply Qfloor_resp_le.
    apply Qle_trans with x; [done |].
    rewrite <- (Qplus_0_r x) at 1. apply Qplus_le_r. discriminate. }
  rewrite Z2N.id by done.
  pose proof (Qfloor_le (x + (1 # 2))) as Hlo.
  pose proof (Qlt_floor (x + (1 # 2))) as Hhi.
  rewrite inject_Z_plus in Hhi.
  change (inject_Z 1) with 1%Q in Hhi.
  apply Qabs_Qle_condition. split; lra.
Qed.

End JSFacts.

(** ** The onboarding funnel *)

Section Funnel.
Import Onboarding OnboardingSpec.

Lemma initCounts_from (steps : list Step) (m : gmap string StepData) ev :
  foldl (λ m step, <[event step := empty_data]> m) m steps !! ev
  = if decide (ev ∈ event <$> steps) then Some empty_data else m !! ev.
Proof.
  revert m. induction steps as [|s steps IH]; intros m; cbn [foldl].
  - rewrite decide_False; [done | set_solver].
  - rewrite IH, fmap_cons. destruct (decide (ev = event s)) as [->|Hne].
    + rewrite lookup_insert_eq.
      rewrite (decide_True (P := event s ∈ event s :: _)) by set_solver.
      by destruct (decide _).
    + rewrite lookup_insert_ne by done.
      destruct (decide (ev ∈ event <$> steps)).
      * rewrite decide_True; [done | set_solver].
      * rewrite decide_False; [done | set_solver].
Qed.

Lemma initCounts_lookup (steps : list Step) ev :
  ev ∈ event <$> steps → initCounts steps !! ev = Some empty_data.
Proof.
  intros Hin. unfold initCounts. rewrite initCounts_from.
  by rewrite decide_True.
Qed.

Lemma named_cons (ev : string) (e : Event) (events : list Event) :
  named ev (e :: events)
  = if decide (event_name e = ev) then e :: named ev events
    else named ev events.
Proof. unfold named. by rewrite filter_cons. Qed.

Lemma countEvent_fold (events : list Event) (m : gmap string StepData) ev d :
  m !! ev = Some d →
  foldl countEvent m events !! ev
  = Some {| count := count d + eventCount events ev;
            step_users := uid_set (named ev events) ∪ step_users d |}.
Proof.
  revert m d. induction events as [|e events IH]; intros m d Hm;
    cbn [foldl].
  - rewrite Hm. unfold eventCount, uid_set; simpl. f_equal.
    destruct d as [c u]; simpl. f_equal; [lia | set_solver].
  - unfold eventCount. rewrite named_cons. unfold countEvent at 2.
    destruct (decide (event_name e = ev)) as [->|Hne].
    + rewrite Hm. erewrite IH; [| apply lookup_insert_eq]. simpl.
      unfold eventCount. f_equal.
      f_equal; [cbn [length]; lia |].
      unfold uid_set. rewrite fmap_cons, list_to_set_cons. set_solver.
    + destruct (m !! event_name e) as [step|] eqn:E.
      * erewrite IH; [done |]. by rewrite lookup_insert_ne.
      * by erewrite IH.
Qed.

Lemma eventCounts_lookup (steps : list Step) (events : list Event) ev :
  ev ∈ event <$> steps →
  getData (eventCounts steps events) ev
  = {| count := eventCount events ev;
       step_users := uid_set (named ev events) |}.
Proof.
  intros Hin. unfold getData, eventCounts.
  erewrite countEvent_fold; [| by apply initCounts_lookup]. simpl.
  f_equal. set_solver.
Qed.

Lemma transition_pct_sign (d p : Z) :
  0 < p →
  JS.Qneg_bool (inject_Z d / inject_Z p * inject_Z 100) = (d <? 0).
Proof.
  intros Hp. destruct p as [|p|p]; try lia.
  unfold JS.Qneg_bool, Qle_bool, Qdiv, Qmult, Qinv, inject_Z.
  cbn [Qnum Qden].
  destruct (Z.leb_spec (0 * Z.pos (1 * p * 1)) (d * 1 * 100 * 1));
    destruct (Z.ltb_spec d 0); simpl; lia.
Qed.

(** C1.  In the funnel built from any events over any ordered list of
    steps, the row of a step that has a predecessor reports the events and
    the unique users of the step, the drop-off [users(before) -
    users(step)] (negative when the step has more users: no clamping), and
    as drop-off percentage the empty text when the predecessor has no
    users, otherwise the text made of the sign, the integer nearest to
    [|dropoff| / users(before) * 100] and a percent sign.  For A (started,
    completed) and B (started only) over [started, completed] the rows
    report 2 and 1 users, a drop-off of 1 and 50%. *)
Theorem buildFunnel_dropoff :
  (∀ (events : list Event) (steps : list Step) (i : nat) (prev step : Step),
      steps !! i = Some prev →
      steps !! S i = Some step →
      let before := uniqueUsers events (event prev) in
      let here := uniqueUsers events (event step) in
      ∃ row : FunnelStep,
        buildFunnel events steps !! S i = Some row
        ∧ value row = eventCount events (event step)
        ∧ users row = here
        ∧ dropoff row = before - here
        ∧ (before < here → dropoff row < 0)
        ∧ (before = 0 → dropoffPct row = "")
        ∧ (before ≠ 0 →
           ∃ n : N,
             dropoffPct row
             = (if dropoff row <? 0 then "-" else "") +:+ pretty n +:+ "%"
             ∧ (Qabs (inject_Z (Z.of_N n)
                      - Qabs (inject_Z (before - here) / inject_Z before
                              * inject_Z 100)) <= 1 # 2)%Q))
  ∧ (users <$> buildFunnel example_events example_steps = [2; 1]
     ∧ dropoff <$> buildFunnel example_events example_steps !! 1%nat
       = Some 1
     ∧ dropoffPct <$> buildFunnel example_events example_steps !! 1%nat
       = Some "50%").
Proof.
  split; [| by vm_compute].
  intros events steps i prev step Hprev Hstep before here.
  assert (Hin1 : event prev ∈ event <$> steps).
  { apply list_elem_of_fmap. exists prev. split; [done |].
    by eapply list_elem_of_lookup_2. }
  assert (Hin2 : event step ∈ event <$> steps).
  { apply list_elem_of_fmap. exists step. split; [done |].
    by eapply list_elem_of_lookup_2. }
  exists (funnelStep (eventCounts steps events) steps (S i) step).
  split.
  { unfold buildFunnel. rewrite list_lookup_imap, Hstep. done. }
  unfold funnelStep.
  replace (S i - 1)%nat with i by lia. rewrite Hprev.
  cbn [Nat.ltb Nat.leb fmap option_fmap option_map value users dropoff
       dropoffPct].
  rewrite !eventCounts_lookup by done.
  cbn [count step_users]. fold (uniqueUsers events (event prev)).
  fold (uniqueUsers events (event step)). fold before. fold here.
  assert (Hnn : 0 ≤ before) by (unfold before, uniqueUsers, size_Z; lia).
  split; [done |]. split; [done |]. split; [done |]. split; [lia |]. split.
  - intros ->. done.
  - intros Hne. destruct (Z.ltb_spec 0 before) as [Hpos|]; [| lia].
    exists (JS.toFixed0_magnitude
              (inject_Z (before - here) / inject_Z before * inject_Z 100)).
    split; [| apply toFixed0_magnitude_nearest].
    rewrite div_of_Z by done.
    cbn [JS.mul JS.of_Z JS.toFixed0].
    rewrite transition_pct_sign by done.
    by destruct (before - here <? 0).
Qed.

(** The funnel of the example, through the general statement. *)
Lemma buildFunnel_dropoff_witness :
  ∃ row : FunnelStep,
    buildFunnel example_events example_steps !! 1%nat = Some row
    ∧ users row = 1 ∧ dropoff row = 1.
Proof.
  destruct (proj1 buildFunnel_dropoff example_events example_steps 0%nat
              _ _ eq_refl eq_refl)
    as (row & Hrow & _ & Hu & Hd & _).
  exists row. split; [exact Hrow |]. split.
  - rewrite Hu. vm_compute. reflexivity.
  - rewrite Hd. vm_compute. reflexivity.
Defined.

End Funnel.

(** ** Loops with an index *)

Section IndexedLoops.
Context {A S : Type}.

Lemma foldl_i_snoc (f : S → nat → A → S) (s : S) (l : list A) (x : A) :
  Coll.foldl_i f s (l ++ [x]) = f (Coll.foldl_i f s l) (length l) x.
Proof.
  unfold Coll.foldl_i. rewrite imap_app, foldl_app. simpl.
  by rewrite Nat.add_0_r.
Qed.

Lemma foldl_i_take_S (f : S → nat → A → S) (s : S) (l : list A) k x :
  l !! k = Some x →
  Coll.foldl_i f s (take (Datatypes.S k) l)
  = f (Coll.foldl_i f s (take k l)) k x.
Proof.
  intros Hk. erewrite take_S_r by done. rewrite foldl_i_snoc.
  rewrite length_take_le; [done |].
  apply lookup_lt_Some in Hk. lia.
Qed.
End IndexedLoops.

(** ** The biggest drop-off *)

Section Biggest.
Import Onboarding OnboardingSpec.

Lemma transitionPct_finite prev step :
  0 < users prev → transitionPct prev step = JS.Fin (pctQ prev step).
Proof.
  intros H. unfold transitionPct. rewrite div_of_Z by lia. reflexivity.
Qed.

Lemma pctQ_sign prev step :
  0 < users prev →
  ((0 < dropoff step ↔ (0 < pctQ prev step)%Q)
   ∧ (dropoff step ≤ 0 ↔ (pctQ prev step <= 0)%Q)).
Proof.
  intros H. unfold pctQ. destruct (users prev) as [|p|p]; try lia.
  unfold Qlt, Qle, Qdiv, Qmult, Qinv, inject_Z. cbn [Qnum Qden].
  lia.
Qed.

Lemma gt_Fin (a b : Q) : JS.gt (JS.Fin a) (JS.Fin b) = true ↔ (b < a)%Q.
Proof.
  unfold JS.gt. rewrite negb_true_iff. destruct (Qle_bool a b) eqn:E.
  - apply Qle_bool_iff in E. split; [discriminate | lra].
  - split; [intros _ | done]. apply Qnot_le_lt. intros H.
    apply Qle_bool_iff in H. congruence.
Qed.

Lemma scanStep_first funnel st step : scanStep funnel st 0 step = st.
Proof. reflexivity. Qed.

Lemma scanStep_skip funnel st k prev step :
  funnel !! k = Some prev →
  ¬ (dropoff step ≠ 0 ∧ 0 < users prev) →
  scanStep funnel st (S k) step = st.
Proof.
  intros Hp Hg. unfold scanStep. replace (S k - 1)%nat with k by lia.
  cbn [Nat.ltb Nat.leb]. rewrite Hp.
  destruct (Z.eqb_spec (dropoff step) 0), (Z.ltb_spec 0 (users prev));
    simpl; try done; lia.
Qed.

Lemma scanStep_compare funnel lbl q k prev step :
  funnel !! k = Some prev →
  dropoff step ≠ 0 → 0 < users prev →
  scanStep funnel (lbl, JS.Fin q) (S k) step
  = if JS.gt (JS.Fin (pctQ prev step)) (JS.Fin q)
    then (transitionLabel prev step, JS.Fin (pctQ prev step))
    else (lbl, JS.Fin q).
Proof.
  intros Hp Hd Hu. unfold scanStep. replace (S k - 1)%nat with k by lia.
  cbn [Nat.ltb Nat.leb]. rewrite Hp.
  destruct (Z.eqb_spec (dropoff step) 0); [done |].
  destruct (Z.ltb_spec 0 (users prev)); [| lia].
  cbn [negb andb snd]. by rewrite transitionPct_finite.
Qed.

Lemma transition_inj funnel j p s p' s' :
  transition funnel j p s → transition funnel j p' s' → p = p' ∧ s = s'.
Proof. intros (?&?&?) (?&?&?). split; congruence. Qed.

Lemma scanned_step funnel k st step :
  funnel !! k = Some step →
  scanned funnel k st →
  scanned funnel (S k) (scanStep funnel st k step).
Proof.
  intros Hk Hst. destruct k as [|k].
  { rewrite scanStep_first. destruct Hst as [[-> H]|(i&?&?&?&_)]; [| lia].
    left. split; [done | intros; lia]. }
  destruct (funnel !! k) as [prev|] eqn:Hprev.
  2: { apply lookup_lt_Some in Hk. apply lookup_ge_None in Hprev. lia. }
  assert (Hlast : ∀ j p s, (S j < S (S k))%nat → transition funnel j p s →
                  (S j < S k)%nat ∨ (j = k ∧ p = prev ∧ s = step)).
  { intros j p s Hj (Hp & Hs & Hu).
    destruct (decide (j = k)) as [->|]; [right | left; lia].
    split; [done |]. split; congruence. }
  destruct (decide (dropoff step ≠ 0 ∧ 0 < users prev)) as [[Hd Hu]|Hg].
  2: { rewrite (scanStep_skip _ _ _ prev) by done.
       destruct Hst as [[-> H]|(i&pi&si&Hi&Ht&Hpos&->&Hmax&Hfirst)].
       - left. split; [done |]. intros j p s Hj Htr.
         destruct (Hlast _ _ _ Hj Htr) as [?|(->&->&->)]; [by eapply H |].
         destruct Htr as (_&_&?). lia.
       - right. exists i, pi, si. split; [lia |]. do 3 (split; [done |]).
         split; [| done]. intros j p s Hj Htr.
         destruct (Hlast _ _ _ Hj Htr) as [?|(->&->&->)]; [by eapply Hmax |].
         destruct Htr as (_&_&Hu).
         assert (dropoff step = 0) by lia.
         destruct Ht as (_&_&Hui).
         apply (pctQ_sign pi si) in Hpos; [| done].
         assert (pctQ prev step <= 0)%Q; [| lra].
         apply pctQ_sign; [done | lia]. }
  assert (Htk : transition funnel k prev step) by done.
  destruct Hst as [[-> H]|(i&pi&si&Hi&Ht&Hpos&->&Hmax&Hfirst)].
  - rewrite (scanStep_compare _ _ _ _ prev) by done.
    destruct (JS.gt _ _) eqn:E.
    + apply gt_Fin in E. right. exists k, prev, step.
      split; [lia |]. split; [done |]. split; [by apply (pctQ_sign prev) |].
      split; [done |]. split.
      * intros j p s Hj Htr.
        destruct (Hlast _ _ _ Hj Htr) as [?|(->&->&->)]; [| lra].
        assert (pctQ p s <= 0)%Q; [| lra].
        destruct Htr as (?&?&?). apply pctQ_sign; [done |].
        eapply H; [done |]. by split.
      * intros j p s Hj Htr.
        assert (pctQ p s <= 0)%Q; [| lra].
        pose proof Htr as (?&?&?). apply pctQ_sign; [done |].
        eapply (H j); [lia | done].
    + left. split; [done |]. intros j p s Hj Htr.
      destruct (Hlast _ _ _ Hj Htr) as [?|(->&->&->)]; [by eapply H |].
      apply (pctQ_sign prev step); [done |].
      apply Qnot_lt_le. intros Hlt. apply gt_Fin in Hlt. congruence.
  - rewrite (scanStep_compare _ _ _ _ prev) by done.
    destruct (JS.gt _ _) eqn:E.
    + apply gt_Fin in E. right. exists k, prev, step.
      split; [lia |]. split; [done |].
      split.
      { apply (pctQ_sign prev); [done |].
        destruct Ht as (_&_&?). apply (pctQ_sign pi si) in Hpos; [| done].
        lra. }
      split; [done |]. split.
      * intros j p s Hj Htr.
        destruct (Hlast _ _ _ Hj Htr) as [Hlt|(->&->&->)]; [| lra].
        specialize (Hmax j p s Hlt Htr). lra.
      * intros j p s Hj Htr.
        assert (pctQ p s <= pctQ pi si)%Q by (apply (Hmax j); [lia | done]).
        lra.
    + right. exists i, pi, si. split; [lia |]. do 3 (split; [done |]).
      split; [| done]. intros j p s Hj Htr.
      destruct (Hlast _ _ _ Hj Htr) as [?|(->&->&->)]; [by eapply Hmax |].
      apply Qnot_lt_le. intros Hlt. apply gt_Fin in Hlt. congruence.
Qed.

Lemma scanned_prefix funnel k :
  (k ≤ length funnel)%nat →
  scanned funnel k
    (Coll.foldl_i (scanStep funnel) ("", JS.of_Z 0) (take k funnel)).
Proof.
  induction k as [|k IH]; intros Hk.
  - left. split; [done | intros; lia].
  - destruct (funnel !! k) as [step|] eqn:E.
    2: { apply lookup_ge_None in E. lia. }
    rewrite (foldl_i_take_S _ _ _ _ step) by done.
    apply scanned_step; [done |]. apply IH. lia.
Qed.

Lemma scanned_all funnel : scanned funnel (length funnel) (biggestDropoff funnel).
Proof.
  pose proof (scanned_prefix funnel (length funnel) (le_n _)) as H.
  by rewrite firstn_all in H.
Qed.

Lemma example_funnel_rows :
  (λ r, (fs_shortName r, users r, dropoff r, dropoffPct r))
    <$> example_funnel
  = [("Launch", 100, 0, ""); ("Splash", 80, 20, "20%");
     ("Started", 80, 0, "0%"); ("Input", 50, 30, "38%")].
Proof. by vm_compute. Qed.

Lemma flat_funnel_rows :
  (λ r, (fs_shortName r, users r, dropoff r, dropoffPct r)) <$> flat_funnel
  = [("Launch", 10, 0, ""); ("Splash", 10, 0, "0%");
     ("Started", 20, -10, "-100%")].
Proof. by vm_compute. Qed.




End Biggest.

(** ** Insertion-ordered maps and the stable sort *)

Section OrderFacts.
Context {K V : Type} `{EqDecision K}.

Lemma upsert_elem (k : K) (init : V) (f : V → V) (m : list (K * V)) x :
  x ∈ Coll.upsert k init f m →
  x ∈ m ∨ (∃ v, (k, v) ∈ m ∧ x = (k, f v)) ∨ x = (k, f init).
Proof.
  induction m as [|[k' v] m IH]; simpl.
  - intros ->%list_elem_of_singleton. by right; right.
  - destruct (decide (k' = k)) as [->|Hne].
    + intros [->|Hin]%elem_of_cons.
      * right; left. exists v. split; [left | done].
      * left. by right.
    + intros Hx. apply elem_of_cons in Hx as [->|Hin]; [by left; left |].
      destruct (IH Hin) as [?| [(v' & ? & ->)| ->]].
      * left. by right.
      * right; left. exists v'. split; [by right | done].
      * by right; right.
Qed.

Lemma insert_by_perm {A : Type} (cmp : A → A → Z) (x : A) (l : list A) :
  Coll.insert_by cmp x l ≡ₚ x :: l.
Proof.
  induction l as [|y l IH]; simpl; [done |].
  destruct (cmp x y <? 0); [done |]. rewrite IH. apply Permutation_swap.
Qed.

Lemma sort_by_perm {A : Type} (cmp : A → A → Z) (l : list A) :
  Coll.sort_by cmp l ≡ₚ l.
Proof.
  unfold Coll.sort_by.
  enough (H : ∀ acc, foldl (λ acc x, Coll.insert_by cmp x acc) acc l
                     ≡ₚ l ++ acc).
  { rewrite H. by rewrite app_nil_r. }
  induction l as [|x l IH]; intros acc; simpl; [done |].
  rewrite IH, insert_by_perm. by rewrite Permutation_middle.
Qed.
End OrderFacts.

(** ** Percentages in integer arithmetic *)

Section Rates.

(** [Math.round((n / d) * 100)] in integer arithmetic. *)
Lemma pct_closed_form (n d : Z) :
  0 < d → JS.pct n d = JS.of_Z ((200 * n + d) / (2 * d)).
Proof.
  intros Hd. rewrite pct_finite by lia. f_equal.
  destruct d as [|p|p]; try lia.
  unfold Qfloor, Qplus, Qdiv, Qmult, Qinv, inject_Z. cbn [Qnum Qden].
  f_equal; lia.
Qed.

Lemma pct_range (n d : Z) :
  0 ≤ n ≤ d → 0 < d →
  ∃ k, JS.pct n d = JS.Fin (inject_Z k) ∧ 0 ≤ k ≤ 100.
Proof.
  intros Hn Hd. exists ((200 * n + d) / (2 * d)).
  split; [by apply pct_closed_form |]. split.
  - apply Z.div_pos; lia.
  - enough ((200 * n + d) / (2 * d) < 101) by lia.
    apply Z.div_lt_upper_bound; lia.
Qed.

End Rates.

(** ** Feature adoption *)

Section Adoption.
Import Dashboard DashboardSpec.

Lemma featureMap_users (rows : list Event) f d :
  (f, d) ∈ featureMap rows → users d ⊆ uid_set rows ∧ users d ≠ ∅.
Proof.
  unfold featureMap.
  enough (H : ∀ pre m,
             (∀ f d, (f, d) ∈ m → users d ⊆ uid_set pre ∧ users d ≠ ∅) →
             ∀ f d, (f, d) ∈ foldl addFeature m rows →
                    users d ⊆ uid_set (pre ++ rows) ∧ users d ≠ ∅).
  { intros Hin. apply (H [] [] ltac:(by intros ?? ?%elem_of_nil) f d Hin). }
  induction rows as [|e rows IH]; intros pre m Hm f' d' Hin; simpl in Hin.
  - rewrite app_nil_r. by apply (Hm f').
  - replace (pre ++ e :: rows) with ((pre ++ [e]) ++ rows)
      by (by rewrite <- app_assoc).
    eapply IH; [| exact Hin]. clear f' d' Hin. intros f' d' Hin.
    assert (Hsub : ∀ X : gset string,
               X ⊆ uid_set pre → X ⊆ uid_set (pre ++ [e])).
    { intros X HX. unfold uid_set in *. rewrite fmap_app, list_to_set_app_L.
      set_solver. }
    assert (He : firebase_uid e ∈ uid_set (pre ++ [e])).
    { unfold uid_set. rewrite fmap_app, list_to_set_app_L. set_solver. }
    apply upsert_elem in Hin as [Hin| [(v & Hin & Heq)|Heq]].
    + destruct (Hm f' d' Hin). split; [by apply Hsub | done].
    + injection Heq as -> ->. destruct (Hm _ _ Hin) as [Hs ?]. simpl.
      apply Hsub in Hs. split; set_solver.
    + injection Heq as -> ->. simpl. split; set_solver.
Qed.

(** C10.  Every row of the feature-adoption table has an adoption rate
    that is an integer from 0 to 100: the users of the feature are some of
    the users of the input, there is at least one of them, so the divisor
    is not zero and the ratio is at most 1. *)
Theorem adoption_rate_bounds (rows : list Event) (r : FeatureAdoption) :
  r ∈ featureArray rows →
  0 < f_users r ≤ size_Z (uid_set rows)
  ∧ ∃ k : Z, adoption_rate r = JS.Fin (inject_Z k) ∧ 0 ≤ k ≤ 100.
Proof.
  unfold featureArray. rewrite sort_by_perm.
  intros ([f d] & -> & Hin)%list_elem_of_fmap.
  destruct (featureMap_users _ _ _ Hin) as [Hsub Hne].
  assert (Hsz : (0 < size (users d) ≤ size (uid_set rows))%nat).
  { split; [| by apply subseteq_size].
    assert (size (users d) ≠ 0)%nat; [| lia].
    apply size_non_empty_iff. by intros ?%leibniz_equiv. }
  unfold featureRow; cbn [f_users adoption_rate fst snd].
  unfold size_Z. split; [lia |]. apply pct_range; lia.
Qed.

Lemma adoption_rate_bounds_witness :
  ∃ r, r ∈ featureArray adoption_events
       ∧ feature r = "Chat"
       ∧ 0 < f_users r ≤ size_Z (uid_set adoption_events)
       ∧ ∃ k : Z, adoption_rate r = JS.Fin (inject_Z k) ∧ 0 ≤ k ≤ 100.
Proof.
  destruct (featureArray adoption_events !! 1%nat) as [r|] eqn:E;
    [| by vm_compute in E].
  exists r.
  assert (Hin : r ∈ featureArray adoption_events)
    by (by eapply list_elem_of_lookup_2).
  split; [exact Hin |]. split.
  - vm_compute in E. injection E as <-. reflexivity.
  - exact (adoption_rate_bounds adoption_events r Hin).
Defined.

End Adoption.

(** ** Lookups in insertion-ordered maps *)

Section MapFacts.
Context {K V : Type} `{EqDecision K}.
Implicit Types (m : list (K * V)) (k : K).

Lemma upsert_get k k' init f m :
  Coll.get k' (Coll.upsert k init f m)
  = if decide (k' = k) then Some (f (default init (Coll.get k m)))
    else Coll.get k' m.
Proof.
  induction m as [|[k0 v] m IH]; simpl.
  - repeat case_decide; congruence.
  - destruct (decide (k0 = k)) as [->|Hne]; simpl.
    + repeat case_decide; congruence.
    + rewrite IH. repeat case_decide; congruence.
Qed.

Lemma upsert_keys k init f m :
  (Coll.upsert k init f m).*1
  = if decide (k ∈ m.*1) then m.*1 else m.*1 ++ [k].
Proof.
  induction m as [|[k0 v] m IH]; cbn [Coll.upsert].
  - rewrite decide_False; [done | by intros ?%elem_of_nil].
  - rewrite fmap_cons. cbn [fst].
    destruct (decide (k0 = k)) as [->|Hne]; rewrite fmap_cons; cbn [fst].
    + rewrite decide_True; [done | by left].
    + rewrite IH. destruct (decide (k ∈ m.*1)).
      * rewrite decide_True; [done | by right].
      * rewrite decide_False; [done |].
        intros [?|?]%elem_of_cons; congruence.
Qed.

Lemma upsert_NoDup k init f m :
  NoDup m.*1 → NoDup (Coll.upsert k init f m).*1.
Proof.
  intros Hm. rewrite upsert_keys. destruct (decide _); [done |].
  apply NoDup_app. split; [done |]. split; [| apply NoDup_singleton].
  intros x Hx ->%list_elem_of_singleton. done.
Qed.

Lemma get_elem m k v : NoDup m.*1 → (k, v) ∈ m → Coll.get k m = Some v.
Proof.
  induction m as [|[k0 v0] m IH]; simpl; intros Hnd Hin.
  - by apply elem_of_nil in Hin.
  - apply NoDup_cons in Hnd as [Hk0 Hnd].
    apply elem_of_cons in Hin as [[= -> ->]|Hin].
    + by rewrite decide_True.
    + rewrite decide_False; [by apply IH |].
      intros ->. apply Hk0. apply list_elem_of_fmap. by exists (k, v).
Qed.

Lemma foldl_upsert_NoDup {A} (key : A → K) (init : V) (step : A → V → V)
    (rows : list A) m :
  NoDup m.*1 →
  NoDup (foldl (λ m e, Coll.upsert (key e) init (step e) m) m rows).*1.
Proof.
  revert m. induction rows as [|e rows IH]; intros m Hm; simpl; [done |].
  apply IH. by apply upsert_NoDup.
Qed.
End MapFacts.

(** ** Segments by activity level *)

Section Segments.
Import Users SegmentSpec.

Lemma eventsOf_cons u e rows :
  eventsOf u (e :: rows)
  = (if decide (firebase_uid e = u) then 1 else 0) + eventsOf u rows.
Proof.
  unfold eventsOf. rewrite filter_cons.
  destruct (decide _); cbn [length]; lia.
Qed.

Lemma savingsSum_cons u e rows :
  savingsSum u (e :: rows)
  = (if decide (firebase_uid e = u) then default 0 (savingsOf e) else 0)
    + savingsSum u rows.
Proof.
  unfold savingsSum. rewrite filter_cons. by destruct (decide _).
Qed.

Lemma uid_set_cons e rows : uid_set (e :: rows) = {[firebase_uid e]} ∪ uid_set rows.
Proof. unfold uid_set. by rewrite fmap_cons, list_to_set_cons. Qed.

Lemma eventsOf_nonneg u rows : 0 ≤ eventsOf u rows.
Proof. unfold eventsOf. lia. Qed.

Lemma eventsOf_zero_savings u rows :
  eventsOf u rows = 0 → savingsSum u rows = 0.
Proof.
  unfold eventsOf, savingsSum.
  destruct (filter _ rows); cbn [length foldr]; [done | lia].
Qed.

Lemma eventsOf_pos_iff u rows : 0 < eventsOf u rows ↔ u ∈ uid_set rows.
Proof.
  induction rows as [|e rows IH].
  - unfold eventsOf, uid_set. cbn. split; [lia | set_solver].
  - pose proof (eventsOf_nonneg u rows).
    pose proof (uid_set_cons e rows) as Hc. pose proof (eventsOf_cons u e rows).
    destruct (decide (firebase_uid e = u)) as [<-|Hne].
    + split; [set_solver | lia].
    + split; [intros Hp | intros Hin].
      * assert (u ∈ uid_set rows) by (apply IH; lia). set_solver.
      * assert (0 < eventsOf u rows) by (apply IH; set_solver). lia.
Qed.

Lemma bump_bump a n s n' s' : bump (bump a n s) n' s' = bump a (n + n') (s + s').
Proof. unfold bump; simpl. f_equal; lia. Qed.

Lemma addActivity_get m e u :
  Coll.get u (addActivity m e)
  = if decide (u = firebase_uid e)
    then Some (bump (default {| a_events := 0; a_savings := 0 |}
                             (Coll.get u m))
                    1 (default 0 (savingsOf e)))
    else Coll.get u m.
Proof.
  unfold addActivity. rewrite upsert_get.
  destruct (decide (u = firebase_uid e)) as [->|]; [| done].
  f_equal. unfold bump. f_equal. destruct (savingsOf e); simpl; lia.
Qed.

Lemma userActivity_get_from rows m u :
  Coll.get u (foldl addActivity m rows)
  = if decide (eventsOf u rows = 0) then Coll.get u m
    else Some (bump (default {| a_events := 0; a_savings := 0 |}
                             (Coll.get u m))
                    (eventsOf u rows) (savingsSum u rows)).
Proof.
  revert m. induction rows as [|e rows IH]; intros m; cbn [foldl].
  - by rewrite decide_True.
  - rewrite IH, addActivity_get, eventsOf_cons, savingsSum_cons.
    pose proof (eventsOf_nonneg u rows) as Hn.
    destruct (decide (u = firebase_uid e)) as [->|Hne].
    + rewrite !(decide_True (P := firebase_uid e = firebase_uid e)) by done.
      rewrite (decide_False (P := 1 + _ = 0)) by lia.
      destruct (decide (eventsOf (firebase_uid e) rows = 0)) as [Hz|Hz].
      * rewrite Hz, (eventsOf_zero_savings _ _ Hz). do 2 f_equal; lia.
      * cbn [from_option id]. by rewrite bump_bump.
    + rewrite !(decide_False (P := firebase_uid e = u)) by done.
      rewrite !Z.add_0_l. done.
Qed.

Lemma userActivity_get rows u :
  u ∈ uid_set rows →
  Coll.get u (userActivity rows) = Some (activityOf u rows).
Proof.
  intros Hu%eventsOf_pos_iff. unfold userActivity.
  rewrite userActivity_get_from, decide_False by lia.
  cbn. unfold bump, activityOf. cbn. done.
Qed.

Lemma userActivity_keys_from rows (m : list (string * Activity)) :
  list_to_set (foldl addActivity m rows).*1
  = (list_to_set m.*1 : gset string) ∪ uid_set rows.
Proof.
  revert m. induction rows as [|e rows IH]; intros m; cbn [foldl].
  - unfold uid_set. set_solver.
  - rewrite IH, uid_set_cons. unfold addActivity. rewrite upsert_keys.
    destruct (decide _) as [Hin|Hnin].
    + assert (firebase_uid e ∈ (list_to_set m.*1 : gset string))
        by by apply elem_of_list_to_set.
      set_solver.
    + rewrite list_to_set_app_L. set_solver.
Qed.

Lemma userActivity_NoDup rows : NoDup (userActivity rows).*1.
Proof.
  unfold userActivity.
  apply (foldl_upsert_NoDup firebase_uid {| a_events := 0; a_savings := 0 |}
           (λ e user,
              {| a_events := a_events user + 1;
                 a_savings := match savingsOf e with
                              | Some n => a_savings user + n
                              | None => a_savings user
                              end |})).
  apply NoDup_nil_2.
Qed.

Lemma userActivity_keys rows :
  (userActivity rows).*1 ≡ₚ elements (uid_set rows).
Proof.
  rewrite <- (elements_list_to_set (C := gset string) (userActivity rows).*1)
    by apply userActivity_NoDup.
  unfold userActivity. rewrite userActivity_keys_from.
  rewrite fmap_nil, list_to_set_nil. by rewrite (left_id_L ∅ (∪)).
Qed.

Lemma userActivity_entries rows :
  userActivity rows
  = (λ u, (u, activityOf u rows)) <$> (userActivity rows).*1.
Proof.
  pose proof (userActivity_NoDup rows) as Hnd.
  assert (Hall : ∀ u a, (u, a) ∈ userActivity rows → a = activityOf u rows).
  { intros u a Hin.
    pose proof (get_elem _ _ _ Hnd Hin) as Hget.
    assert (Hu : u ∈ uid_set rows).
    { apply elem_of_elements. rewrite <- userActivity_keys.
      apply list_elem_of_fmap. by exists (u, a). }
    rewrite (userActivity_get _ _ Hu) in Hget. congruence. }
  clear Hnd. induction (userActivity rows) as [|[u a] m IH]; [done |].
  rewrite !fmap_cons. cbn [fst]. f_equal.
  - f_equal. apply Hall. by left.
  - apply IH. intros u' a' Hin. apply Hall. by right.
Qed.

(** The users whose activity falls in segment [k] are the unique users of
    that segment. *)
Lemma inSegment_users k rows :
  length (inSegment k (userActivity rows).*2)
  = length (usersOfSegment k rows).
Proof.
  unfold inSegment, usersOfSegment.
  rewrite <- (userActivity_keys rows).
  rewrite (userActivity_entries rows) at 1.
  rewrite <- list_fmap_compose.
  induction ((userActivity rows).*1) as [|u us IH]; [done |].
  rewrite fmap_cons, !filter_cons. cbn [compose snd activityOf a_events].
  destruct (decide _); cbn [length]; by rewrite IH.
Qed.

Lemma add_of_Z (a b : Z) : JS.add (JS.of_Z a) (JS.of_Z b) = JS.of_Z (a + b).
Proof.
  unfold JS.add, JS.of_Z, Qplus, inject_Z. cbn [Qnum Qden]. do 2 f_equal. lia.
Qed.

Lemma addUser_tally (ts : list Tally) (data : Activity) :
  addUser (segmentOfTally <$> ts) data = segmentOfTally <$> addTally ts data.
Proof.
  unfold addUser, addTally. symmetry. apply list_fmap_alter.
  apply Forall_forall. intros [[[l c] ev] sv] _.
  unfold segmentOfTally.
  cbn [segment s_users avgEvents avgSavings fst snd]. by rewrite !add_of_Z.
Qed.

Lemma foldl_addUser_tally (acts : list Activity) (ts : list Tally) :
  foldl addUser (segmentOfTally <$> ts) acts
  = segmentOfTally <$> foldl addTally ts acts.
Proof.
  revert ts. induction acts as [|a acts IH]; intros ts; cbn [foldl]; [done |].
  by rewrite addUser_tally, IH.
Qed.

Lemma inSegment_cons k a acts :
  inSegment k (a :: acts)
  = if decide (segmentIndex (a_events a) = k) then a :: inSegment k acts
    else inSegment k acts.
Proof. unfold inSegment. by rewrite filter_cons. Qed.

Lemma tally_eq (l l' : string) (c c' e e' s s' : Z) :
  l = l' → c = c' → e = e' → s = s' → (l, c, e, s) = (l', c', e', s').
Proof. by intros -> -> -> ->. Qed.

Lemma foldl_addTally_lookup (acts : list Activity) (ts : list Tally) k :
  foldl addTally ts acts !! k
  = (λ t : Tally,
       (t.1.1.1,
        t.1.1.2 + Z.of_nat (length (inSegment k acts)),
        t.1.2 + sumOf a_events (inSegment k acts),
        t.2 + sumOf a_savings (inSegment k acts))) <$> ts !! k.
Proof.
  revert ts. induction acts as [|a acts IH]; intros ts; cbn [foldl].
  - destruct (ts !! k) as [[[[l c] ev] sv]|]; [| done].
    cbn. f_equal. apply tally_eq; [done | lia..].
  - rewrite IH, inSegment_cons. unfold addTally at 1.
    destruct (decide (segmentIndex (a_events a) = k)) as [->|Hne].
    + rewrite list_lookup_alter_eq.
      destruct (ts !! _) as [[[[l c] ev] sv]|]; [| done].
      cbn [fmap option_fmap option_map fst snd]. f_equal.
      apply tally_eq; [done | unfold sumOf; cbn [length foldr]; lia..].
    + by rewrite list_lookup_alter_ne.
Qed.

Lemma segmentUsers_lookup rows k :
  segmentUsers rows !! k
  = (λ t : Z * string,
       let acts := inSegment k (userActivity rows).*2 in
       average (segmentOfTally (t.2, Z.of_nat (length acts),
                                sumOf a_events acts, sumOf a_savings acts)))
      <$> thresholds !! k.
Proof.
  unfold segmentUsers.
  change initialSegments with (segmentOfTally <$> initialTallies).
  rewrite foldl_addUser_tally, !list_lookup_fmap, foldl_addTally_lookup.
  unfold initialTallies. rewrite list_lookup_fmap.
  destruct (thresholds !! k) as [[mn l]|]; cbn; [| done].
  do 3 f_equal.
Qed.

Lemma segmentIndex_highest (n : Z) (mn : Z) (l : string) :
  0 ≤ n →
  thresholds !! segmentIndex n = Some (mn, l) →
  mn ≤ n
  ∧ ∀ j mn' l', (j < segmentIndex n)%nat →
                thresholds !! j = Some (mn', l') → n < mn'.
Proof.
  intros Hn. unfold segmentIndex.
  destruct (Z.leb_spec 50 n); [| destruct (Z.leb_spec 20 n);
                                 [| destruct (Z.leb_spec 5 n)]];
    intros [= <- <-]; (split; [lia |]); intros j mn' l' Hj Hl;
    repeat (destruct j as [|j]; [injection Hl as <- <-; lia |]); lia.
Qed.

(** *** The tiers of the specification *)

Lemma tierOf_spec (n : Z) (k : nat) :
  TierSpec.tierOf n = Some k
  ↔ ∃ mn l, thresholds !! k = Some (mn, l)
            ∧ mn ≤ n
            ∧ ∀ j mn' l', (j < k)%nat →
                          thresholds !! j = Some (mn', l') → n < mn'.
Proof.
  unfold TierSpec.tierOf. split.
  - destruct (list_find _ thresholds) as [[i [mn l]]|] eqn:E; [| done].
    intros [= <-]. apply list_find_Some in E as (Hi & Hmet & Hfirst).
    exists mn, l. split; [done |]. split; [done |].
    intros j mn' l' Hj Hl. specialize (Hfirst j (mn', l') Hl Hj).
    cbn in Hfirst. lia.
  - intros (mn & l & Hk & Hmet & Hfirst).
    assert (list_find (λ th : Z * string, th.1 ≤ n) thresholds
            = Some (k, (mn, l))) as ->; [| done].
    apply list_find_Some. split; [done |]. split; [done |].
    intros j [mn' l'] Hl Hj. specialize (Hfirst j mn' l' Hj Hl).
    cbn. lia.
Qed.

(** The cascade of comparisons selects the tier. *)
Lemma tierOf_segmentIndex (n : Z) :
  0 ≤ n → TierSpec.tierOf n = Some (segmentIndex n).
Proof.
  intros Hn. apply tierOf_spec.
  destruct (thresholds !! segmentIndex n) as [[mn l]|] eqn:E.
  - exists mn, l. split; [done |]. by apply (segmentIndex_highest n mn l).
  - exfalso. unfold segmentIndex in E. by repeat case_match.
Qed.

Lemma usersOfTier_segment (k : nat) (rows : list Event) :
  TierSpec.usersOfTier k rows = usersOfSegment k rows.
Proof.
  unfold TierSpec.usersOfTier, usersOfSegment.
  induction (elements (uid_set rows)) as [|u us IH]; [done |].
  rewrite !filter_cons, IH.
  rewrite (tierOf_segmentIndex _ (eventsOf_nonneg u rows)).
  destruct (decide (segmentIndex (eventsOf u rows) = k)) as [->|Hne].
  - by rewrite decide_True.
  - rewrite decide_False; [done |]. by intros [= ?].
Qed.

Lemma sumOf_perm (f : Activity → Z) (l l' : list Activity) :
  l ≡ₚ l' → sumOf f l = sumOf f l'.
Proof.
  unfold sumOf. induction 1; cbn [foldr]; lia.
Qed.

(** The activities of a segment are those of its unique users. *)
Lemma inSegment_activities (k : nat) (rows : list Event) :
  inSegment k (userActivity rows).*2
  ≡ₚ (λ u, activityOf u rows) <$> usersOfSegment k rows.
Proof.
  unfold inSegment, usersOfSegment.
  rewrite <- (userActivity_keys rows).
  rewrite (userActivity_entries rows) at 1.
  rewrite <- list_fmap_compose.
  induction ((userActivity rows).*1) as [|u us IH]; [done |].
  rewrite fmap_cons, !filter_cons. cbn [compose snd activityOf a_events].
  destruct (decide _); [rewrite fmap_cons; by constructor | done].
Qed.

(** C5.  The output lists the four configured segments in order, whatever
    the rows.  Every unique user has one tier, the first threshold from
    the top that the number of their events meets, and is counted in the
    segment of that tier: the users of a segment are the unique users of
    its tier, and the two averages are the rounded means of their events
    and savings.  A segment without users has 0 users and 0 for both
    averages.  The cascade of comparisons selects the tier for every
    number of events; 20 events are in "Active (20-49)". *)
Theorem segmentUsers_tiers :
  (∀ rows : list Event,
      segment <$> segmentUsers rows = thresholds.*2
      ∧ (∀ u, u ∈ uid_set rows →
              ∃ k, TierSpec.tierOf (eventsOf u rows) = Some k
                   ∧ u ∈ TierSpec.usersOfTier k rows
                   ∧ is_Some (segmentUsers rows !! k))
      ∧ ∀ k s, segmentUsers rows !! k = Some s →
          let mine := TierSpec.usersOfTier k rows in
          let acts := (λ u, activityOf u rows) <$> mine in
          s_users s = Z.of_nat (length mine)
          ∧ (s_users s = 0 →
             avgEvents s = JS.Fin 0 ∧ avgSavings s = JS.Fin 0)
          ∧ (0 < s_users s →
             avgEvents s = JS.round_div (sumOf a_events acts) (s_users s)
             ∧ avgSavings s
               = JS.round_div (sumOf a_savings acts) (s_users s)))
  ∧ (∀ (n : Z) (k : nat),
        TierSpec.tierOf n = Some k
        ↔ ∃ mn l, thresholds !! k = Some (mn, l)
                  ∧ mn ≤ n
                  ∧ ∀ j mn' l', (j < k)%nat →
                                thresholds !! j = Some (mn', l') → n < mn')
  ∧ (∀ n : Z, 0 ≤ n → TierSpec.tierOf n = Some (segmentIndex n))
  ∧ (TierSpec.tierOf 20 = Some 1%nat
     ∧ thresholds !! 1%nat = Some (20, "Active (20-49)")
     ∧ TierSpec.usersOfTier 1 boundary_events = ["A"]
     ∧ TierSpec.usersOfTier 2 boundary_events = []
     ∧ s_users <$> segmentUsers boundary_events = [0; 1; 0; 1]).
Proof.
  split; [| split; [apply tierOf_spec
                   | split; [apply tierOf_segmentIndex | by vm_compute]]].
  intros rows. split; [| split].
  - apply list_eq. intros k.
    rewrite !list_lookup_fmap, segmentUsers_lookup.
    destruct (thresholds !! k) as [[mn l]|]; [| done].
    cbn. unfold average, segmentOfTally. cbn. by destruct (0 <? _).
  - intros u Hu. exists (segmentIndex (eventsOf u rows)).
    split; [apply tierOf_segmentIndex, eventsOf_nonneg |]. split.
    + rewrite usersOfTier_segment. unfold usersOfSegment.
      apply list_elem_of_filter. split; [done | by apply elem_of_elements].
    + rewrite segmentUsers_lookup. unfold segmentIndex.
      by repeat case_match.
  - intros k s. rewrite segmentUsers_lookup.
    destruct (thresholds !! k) as [[mn l]|]; [| done].
    cbn [fmap option_fmap option_map]. intros [= <-]. cbn zeta.
    rewrite usersOfTier_segment, <- inSegment_users.
    rewrite <- !(sumOf_perm _ _ _ (inSegment_activities k rows)).
    set (acts := inSegment k (userActivity rows).*2).
    unfold average, segmentOfTally. cbn [s_users fst snd].
    destruct (Z.ltb_spec 0 (Z.of_nat (length acts))) as [Hpos|Hz];
      cbn [s_users avgEvents avgSavings].
    + split; [done |]. split; [lia |]. intros _. done.
    + split; [done |]. split; [| lia]. intros _.
      destruct acts; [done | cbn [length] in Hz; lia].
Qed.

(** User A, with 60 events, is of the first tier and is counted in the
    first segment. *)
Lemma segmentUsers_tiers_witness :
  TierSpec.tierOf 60 = Some (segmentIndex 60)
  ∧ ∃ s, segmentUsers TierSpec.tier_events !! 0%nat = Some s
         ∧ s_users s
           = Z.of_nat (length (TierSpec.usersOfTier 0 TierSpec.tier_events))
         ∧ TierSpec.usersOfTier 0 TierSpec.tier_events = ["A"].
Proof.
  split; [apply (proj1 (proj2 (proj2 segmentUsers_tiers))); lia |].
  destruct (segmentUsers TierSpec.tier_events !! 0%nat) as [s|] eqn:E;
    [| by vm_compute in E].
  exists s. split; [done |]. split; [| by vm_compute].
  apply (proj2 (proj2 (proj1 segmentUsers_tiers TierSpec.tier_events))
           0%nat s E).
Defined.

End Segments.

(** ** The ascending sort *)

Section Sorting.

Lemma insert_ascending_sorted (x : Z) (l : list Z) :
  Sorted Z.le l → Sorted Z.le (Coll.insert_by (λ a b, a - b) x l).
Proof.
  induction 1 as [|y l Hl IH Hhd]; cbn [Coll.insert_by].
  - by repeat constructor.
  - destruct (Z.ltb_spec (x - y) 0).
    + constructor; [by constructor |]. constructor. lia.
    + constructor; [done |].
      destruct l as [|z l]; cbn [Coll.insert_by] in *.
      * constructor. lia.
      * destruct (Z.ltb_spec (x - z) 0); constructor; [lia |].
        by inversion Hhd.
Qed.

Lemma sortAscending_sorted (times : list Z) :
  Sorted Z.le (Users.sortAscending times).
Proof.
  unfold Users.sortAscending, Coll.sort_by.
  enough (H : ∀ acc, Sorted Z.le acc →
                     Sorted Z.le (foldl (λ acc x,
                                    Coll.insert_by (λ a b, a - b) x acc)
                                    acc times))
    by (apply H; constructor).
  induction times as [|x times IH]; intros acc Hacc; cbn [foldl]; [done |].
  apply IH. by apply insert_ascending_sorted.
Qed.

Lemma sortAscending_perm (times : list Z) :
  Users.sortAscending times ≡ₚ times.
Proof. apply sort_by_perm. Qed.

End Sorting.

(** ** Latency rows *)

Section Latency.
Import Users LatencySpec.

Lemma p50Index_clamped (n : Z) : 1 ≤ n → p50Index n = clampedIndex (1 # 2) n.
Proof.
  intros Hn. unfold p50Index, clampedIndex, Qfloor, Qmult, inject_Z.
  cbn [Qnum Qden]. Z.to_euclidean_division_equations; lia.
Qed.

Lemma p95Index_clamped (n : Z) :
  1 ≤ n → p95Index n = clampedIndex (95 # 100) n.
Proof.
  intros Hn. unfold p95Index, clampedIndex, Qfloor, Qmult, inject_Z.
  cbn [Qnum Qden]. Z.to_euclidean_division_equations; lia.
Qed.

Lemma clampedIndex_range (f : Q) (n : Z) :
  1 ≤ n → 0 ≤ clampedIndex f n ≤ n - 1.
Proof. unfold clampedIndex. lia. Qed.

Lemma atOrZero_lookup (sorted : list Z) (i : Z) :
  0 ≤ i < Z.of_nat (length sorted) →
  sorted !! Z.to_nat i = Some (atOrZero sorted i).
Proof.
  intros Hi. unfold atOrZero.
  destruct (Z.ltb_spec i 0); [lia |].
  destruct (sorted !! Z.to_nat i) as [v|] eqn:E.
  - destruct (Z.eqb_spec v 0); congruence.
  - apply lookup_ge_None in E. lia.
Qed.

Lemma round_div_finite (n d : Z) :
  d ≠ 0 →
  JS.round_div n d = JS.round (JS.Fin (inject_Z n / inject_Z d)).
Proof. intros Hd. unfold JS.round_div. by rewrite div_of_Z. Qed.

(** Every list of times in [latencyMap] has at least one value. *)
Lemma latencyMap_nonempty (messages : list Message) ty times :
  (ty, times) ∈ latencyMap messages → times ≠ [].
Proof.
  unfold latencyMap.
  enough (H : ∀ m, (∀ ty times, (ty, times) ∈ m → times ≠ []) →
                   ∀ ty times, (ty, times) ∈ foldl addLatency m messages →
                               times ≠ []).
  { apply (H []). intros ty' times' Hin. by apply elem_of_nil in Hin. }
  clear ty times.
  induction messages as [|msg messages IH]; intros m Hm ty times;
    cbn [foldl]; [apply Hm |].
  apply IH. clear ty times. intros ty times. unfold addLatency.
  destruct (processing_ms msg) as [ms|]; [| apply Hm].
  destruct (response_type msg) as [ty'|]; [| apply Hm].
  destruct (_ && _); [| apply Hm].
  intros Hin. apply upsert_elem in Hin as [Hin| [(v & Hin & Heq)|Heq]].
  - by eapply Hm.
  - injection Heq as -> ->. by destruct v.
  - by injection Heq as -> ->.
Qed.

Lemma percentiles_nonempty (ty : string) (times : list Z) :
  times ≠ [] →
  let row := percentiles (ty, times) in
  let sorted := sortAscending times in
  let n := Z.of_nat (length times) in
  Sorted Z.le sorted
  ∧ sorted ≡ₚ times
  ∧ l_count row = n
  ∧ sorted !! Z.to_nat (clampedIndex (1 # 2) n) = Some (p50 row)
  ∧ sorted !! Z.to_nat (clampedIndex (95 # 100) n) = Some (p95 row)
  ∧ avg row = JS.round (JS.Fin (mean times)).
Proof.
  intros Hne row sorted n.
  assert (Hlen : length sorted = length times)
    by apply Permutation_length, sortAscending_perm.
  assert (Hn : 1 ≤ n) by (unfold n; destruct times; cbn [length]; [done | lia]).
  split; [apply sortAscending_sorted |].
  split; [apply sortAscending_perm |]. split; [done |].
  unfold row, percentiles. cbn [p50 p95 avg snd]. fold sorted.
  rewrite Hlen. fold n.
  rewrite p50Index_clamped, p95Index_clamped by done.
  pose proof (clampedIndex_range (1 # 2) n Hn).
  pose proof (clampedIndex_range (95 # 100) n Hn).
  split; [apply atOrZero_lookup; lia |].
  split; [apply atOrZero_lookup; lia |].
  apply round_div_finite. lia.
Qed.




End Latency.

(** ** Truly new and returning-device users *)

Section Acquisition.
Import Users AcquisitionSpec.

Lemma classify_fold (l : list Event) (st : Users.Acquisition) (u : string) :
  (u ∈ (foldl classify st l).1
   ↔ u ∈ st.1
     ∨ ∃ e, e ∈ l ∧ firebase_uid e = u ∧ flagTrue is_new_user e = true)
  ∧ (u ∈ (foldl classify st l).2
     ↔ u ∈ st.2
       ∨ ∃ e, e ∈ l ∧ firebase_uid e = u
              ∧ flagTrue is_new_user e = false
              ∧ flagTrue is_returning_device e = true).
Proof.
  revert st. induction l as [|e l IH]; intros [N R]; cbn [foldl].
  - cbn [fst snd]. split; (split; [by left |]).
    + intros [?|(e & ?%elem_of_nil & _)]; done.
    + intros [?|(e & ?%elem_of_nil & _)]; done.
  - destruct (IH (classify (N, R) e)) as [IH1 IH2].
    rewrite IH1, IH2. clear IH IH1 IH2. unfold classify. cbn [fst snd].
    destruct (flagTrue is_new_user e) eqn:En;
      [| destruct (flagTrue is_returning_device e) eqn:Er];
      cbn [fst snd]; (split; split).
    all: try (intros [Hin|(e' & He' & Hu & Hf)];
              [ try (by left);
                try (apply elem_of_union in Hin as [->%elem_of_singleton|?];
                     [right; exists e; split; [by left | done] | by left])
              | right; exists e'; split; [by right | done] ]).
    all: intros [?|(e' & [->|He']%elem_of_cons & Hu & Hf)];
      try (by left); try (left; set_solver);
      try (right; exists e'; split; [done | done]);
      try (destruct Hf; congruence); try congruence.
Qed.

(** C7, as the code has it.  The loop does not look at earlier
    occurrences: a user is in "truly new" exactly when one of their marker
    events has the new-flag true, and in "returning-device" exactly when
    one of their marker events has the returning-flag true without the
    new-flag.  One event puts its user in at most one class, and further
    events only add users to the classes. *)
Theorem classifyNewVsReturning_membership :
  ∀ (rows : list Event) (u : string),
    (u ∈ trulyNewUsers rows ↔ ∃ e, e ∈ rows ∧ newMarker u e)
    ∧ (u ∈ returningDeviceUsers rows ↔ ∃ e, e ∈ rows ∧ returningMarker u e)
    ∧ (∀ e, ¬ (newMarker u e ∧ returningMarker u e))
    ∧ (∀ more, trulyNewUsers rows ⊆ trulyNewUsers (rows ++ more)
               ∧ returningDeviceUsers rows
                 ⊆ returningDeviceUsers (rows ++ more)).
Proof.
  assert (Hnew : ∀ rows u,
             u ∈ trulyNewUsers rows ↔ ∃ e, e ∈ rows ∧ newMarker u e).
  { intros rows u. unfold trulyNewUsers, classifyNewVsReturning.
    rewrite (proj1 (classify_fold _ _ u)). cbn [fst]. unfold newMarker, named.
    split.
    - intros [?|(e & [? ?]%list_elem_of_filter & ? & ?)]; [set_solver |].
      by exists e.
    - intros (e & ? & ? & ? & ?). right. exists e.
      split; [by apply list_elem_of_filter | done]. }
  assert (Hret : ∀ rows u,
             u ∈ returningDeviceUsers rows
             ↔ ∃ e, e ∈ rows ∧ returningMarker u e).
  { intros rows u. unfold returningDeviceUsers, classifyNewVsReturning.
    rewrite (proj2 (classify_fold _ _ u)). cbn [snd].
    unfold returningMarker, named. split.
    - intros [?|(e & [? ?]%list_elem_of_filter & ? & ? & ?)]; [set_solver |].
      by exists e.
    - intros (e & ? & ? & ? & ? & ?). right. exists e.
      split; [by apply list_elem_of_filter | done]. }
  intros rows u. split; [apply Hnew |]. split; [apply Hret |]. split.
  - intros e [(_ & _ & Hn) (_ & _ & Hn' & _)]. congruence.
  - intros more. split; intros v.
    + rewrite !Hnew. intros (e & ? & ?). exists e.
      split; [apply elem_of_app; by left | done].
    + rewrite !Hret. intros (e & ? & ?). exists e.
      split; [apply elem_of_app; by left | done].
Qed.

Lemma classifyNewVsReturning_membership_witness :
  "A" ∈ trulyNewUsers conflicting_events.
Proof.
  apply (proj1 (classifyNewVsReturning_membership conflicting_events "A")).
  exists (marker "A" (Some true) (Some false)).
  split; [by left | by repeat split].
Defined.

(** C7 as stated fails: user A, flagged new on the first occurrence and
    returning on the second, ends up in both classes. *)
Lemma classifyNewVsReturning_counterexample :
  "A" ∈ trulyNewUsers conflicting_events
  ∧ "A" ∈ returningDeviceUsers conflicting_events.
Proof. by vm_compute. Qed.

End Acquisition.

(** ** Cohort retention *)

Section Cohorts.
Import Users CohortSpec.

Lemma size_Z_zero_iff (X : gset string) : size_Z X = 0 ↔ X = ∅.
Proof.
  unfold size_Z. split.
  - intros H. apply leibniz_equiv, size_empty_iff. lia.
  - intros ->. done.
Qed.

Lemma filter_none {A} (P : A → Prop) `{∀ x, Decision (P x)} (l : list A) :
  (∀ x, ¬ P x) → filter P l = [].
Proof.
  intros Hno. induction l as [|x l IH]; [done |].
  by rewrite filter_cons_False.
Qed.

Lemma pct_zero (d : Z) : 0 < d → JS.pct 0 d = JS.Fin 0.
Proof.
  intros Hd. rewrite pct_closed_form by done.
  rewrite Z.mul_0_r, Z.add_0_l, Z.div_small by lia. done.
Qed.

Section Pass.
Variables (tz now : Z) (rows : list Event).

Lemma checkRetention_insufficient (weeksAgo k : Z) :
  now ≤ checkpointStart now weeksAgo k →
  checkRetention now rows weeksAgo k = 0.
Proof.
  unfold checkpointStart, Calendar.subDays, Calendar.msPerDay.
  intros Hle. unfold checkRetention.
  destruct (Z.ltb_spec (weeksAgo - k) 0); [done |].
  assert (weeksAgo - k = 0) as -> by lia.
  rewrite filter_none; [done |]. intros e.
  unfold Calendar.subDays, Calendar.msPerDay. lia.
Qed.

Lemma retentionPct_insufficient (weeksAgo k : Z) :
  now ≤ checkpointStart now weeksAgo k →
  retentionPct now rows weeksAgo k = JS.Fin 0.
Proof.
  intros Hle. unfold retentionPct.
  rewrite checkRetention_insufficient by done.
  destruct (Z.ltb_spec 0 (size_Z (cohortUsers now rows weeksAgo)));
    [by apply pct_zero | done].
Qed.

Lemma cohortRow_describes (weeksAgo : Z) (c : RetentionData) :
  cohortRow tz now rows weeksAgo = Some c →
  describes tz now rows weeksAgo c.
Proof.
  unfold cohortRow.
  destruct (Z.eqb_spec (size_Z (cohortUsers now rows weeksAgo)) 0) as [|Hne];
    [done |].
  intros [= <-]. unfold describes. cbn [cohort r_users w1 w2 w4].
  split; [done |]. split; [done |].
  split; [unfold size_Z in *; lia |].
  repeat split; apply retentionPct_insufficient.
Qed.

Lemma cohortRow_None (weeksAgo : Z) :
  cohortRow tz now rows weeksAgo = None
  ↔ cohortUsers now rows weeksAgo = ∅.
Proof.
  unfold cohortRow. rewrite <- size_Z_zero_iff.
  by destruct (Z.eqb_spec (size_Z (cohortUsers now rows weeksAgo)) 0).
Qed.

Lemma cohorts_describes (weeks : list Z) :
  Forall2 (describes tz now rows) (presentWeeks now rows weeks)
          (omap (cohortRow tz now rows) weeks).
Proof.
  unfold presentWeeks. induction weeks as [|w weeks IH]; [constructor |].
  rewrite filter_cons. cbn [omap list_omap].
  destruct (cohortRow tz now rows w) as [c|] eqn:E.
  - rewrite decide_True.
    + constructor; [by apply cohortRow_describes | done].
    + intros Hn%cohortRow_None. congruence.
  - rewrite decide_False; [done |].
    intros Hn. by apply Hn, cohortRow_None.
Qed.

Lemma presentWeeks_ascending (weeks : list Z) :
  StronglySorted (λ a b, b < a) weeks →
  StronglySorted Z.lt (cohortStart now <$> presentWeeks now rows weeks).
Proof.
  unfold presentWeeks. induction 1 as [|w weeks Hs IH Hall]; [constructor |].
  rewrite filter_cons. destruct (decide _); [| done].
  rewrite fmap_cons. constructor; [done |].
  apply Forall_fmap, Forall_forall. intros w' [_ Hin]%list_elem_of_filter.
  rewrite Forall_forall in Hall. specialize (Hall w' Hin).
  unfold cohortStart, Calendar.subDays, Calendar.msPerDay. cbn. lia.
Qed.

End Pass.

(** C4.  The rows of the cohort table are the weeks 4, 3, 2, 1 before
    "now" whose cohort has users, in that order, so by ascending cohort
    start; a week whose cohort is empty has no row.  Every row carries all
    three checkpoints, and a checkpoint whose week window starts at "now"
    or later (not enough time elapsed) is 0. *)
Theorem cohortRetention_rows (tz now : Z) (rows : list Event) :
  let weeks := presentWeeks now rows cohortWeeks in
  Forall2 (describes tz now rows) weeks (cohorts tz now rows)
  ∧ StronglySorted Z.lt (cohortStart now <$> weeks)
  ∧ (∀ w, w ∈ weeks ↔ w ∈ cohortWeeks ∧ cohortUsers now rows w ≠ ∅)
  ∧ (∀ w k, now ≤ checkpointStart now w k →
            retentionPct now rows w k = JS.Fin 0).
Proof.
  intros weeks. split; [apply cohorts_describes |]. split.
  - apply presentWeeks_ascending. unfold cohortWeeks.
    repeat (constructor; [| repeat constructor; lia]). constructor.
  - split; [| apply retentionPct_insufficient].
    intros w. unfold weeks, presentWeeks. rewrite list_elem_of_filter.
    tauto.
Qed.

(** The cohort of one week ago: its row is there, and its checkpoint at 4
    weeks, which lies ahead of "now", is 0. *)
Lemma cohortRetention_rows_witness :
  cohort_now ≤ checkpointStart cohort_now 1 4
  ∧ retentionPct cohort_now cohort_events 1 4 = JS.Fin 0
  ∧ presentWeeks cohort_now cohort_events cohortWeeks = [3; 1]
  ∧ (cohort <$> cohorts 0 cohort_now cohort_events = ["Mar 21"; "Apr 04"]
     ∧ r_users <$> cohorts 0 cohort_now cohort_events = [1; 2]
     ∧ w4 <$> cohorts 0 cohort_now cohort_events = [JS.Fin 0; JS.Fin 0]).
Proof.
  assert (H : cohort_now ≤ checkpointStart cohort_now 1 4) by (by vm_compute).
  split; [exact H |]. split.
  - exact (proj2 (proj2 (proj2 (cohortRetention_rows 0 cohort_now
                                  cohort_events))) 1 4 H).
  - split; [by vm_compute | by vm_compute].
Defined.

End Cohorts.

(** ** Rows without timestamp or user id *)

Section Malformed.
Import Users MalformedSpec.

Lemma dailyMap_failed (rows : list RawEvent) : foldl dailyStep None rows = None.
Proof. by induction rows. Qed.

Lemma dailyMap_fails_from (rows : list RawEvent) acc :
  (∃ e, e ∈ rows ∧ raw_received_at e = None) → foldl dailyStep acc rows = None.
Proof.
  revert acc. induction rows as [|e rows IH]; intros acc (e' & Hin & Hnone).
  - by apply elem_of_nil in Hin.
  - cbn [foldl]. apply elem_of_cons in Hin as [->|Hin].
    + replace (dailyStep acc e) with (@None (list (Z * DayData))).
      * apply dailyMap_failed.
      * unfold dailyStep. destruct acc; [| done].
        cbn. unfold addDaily. by rewrite Hnone.
    + apply IH. by exists e'.
Qed.

Lemma totalEvents_addDaily (m : list (Z * DayData)) d uid :
  totalEvents
    (Coll.upsert d {| users := ∅; events := 0 |}
       (λ day, {| users := {[uid]} ∪ users day; events := events day + 1 |})
       m)
  = totalEvents m + 1.
Proof.
  induction m as [|[d' day] m IH]; cbn [Coll.upsert]; [done |].
  destruct (decide (d' = d)); unfold totalEvents in *; cbn in *; lia.
Qed.

Lemma dailyMap_counts_from (rows : list RawEvent) (m : list (Z * DayData)) :
  (∀ e, e ∈ rows → is_Some (raw_received_at e)) →
  ∃ m', foldl dailyStep (Some m) rows = Some m'
        ∧ totalEvents m' = totalEvents m + Z.of_nat (length rows)
        ∧ (∀ d day, Coll.get d m = Some day →
                    ∃ day', Coll.get d m' = Some day'
                            ∧ users day ⊆ users day')
        ∧ (∀ e, e ∈ rows →
                ∃ t day', raw_received_at e = Some t
                          ∧ Coll.get (Calendar.isoDate t) m' = Some day'
                          ∧ raw_firebase_uid e ∈ users day').
Proof.
  revert m. induction rows as [|e rows IH]; intros m Hall.
  - exists m. split; [done |]. split; [cbn; lia |]. split.
    + intros d day ?. by exists day.
    + intros e ?%elem_of_nil. done.
  - destruct (Hall e) as [t Ht]; [by left |].
    set (m1 := Coll.upsert (Calendar.isoDate t) {| users := ∅; events := 0 |}
                 (λ day, {| users := {[raw_firebase_uid e]} ∪ users day;
                            events := events day + 1 |}) m).
    assert (Hstep : dailyStep (Some m) e = Some m1).
    { unfold dailyStep. cbn. unfold addDaily. by rewrite Ht. }
    destruct (IH m1) as (m' & Hm' & Htot & Hkeep & Hrows).
    { intros e' ?. apply Hall. by right. }
    exists m'. cbn [foldl]. rewrite Hstep. split; [done |]. split.
    { rewrite Htot. unfold m1. rewrite totalEvents_addDaily.
      cbn [length]. lia. }
    assert (Hm1 : ∀ d day, Coll.get d m = Some day →
                           ∃ day1, Coll.get d m1 = Some day1
                                   ∧ users day ⊆ users day1).
    { intros d day Hd. unfold m1. rewrite upsert_get.
      destruct (decide (d = Calendar.isoDate t)) as [->|].
      - rewrite Hd. eexists. split; [done |]. cbn. set_solver.
      - exists day. by split. }
    split.
    + intros d day Hd. destruct (Hm1 d day Hd) as (day1 & Hd1 & Hs1).
      destruct (Hkeep d day1 Hd1) as (day' & Hd' & Hs').
      exists day'. split; [done | set_solver].
    + intros e' [->|Hin]%elem_of_cons; [| by apply Hrows].
      assert (∃ day1, Coll.get (Calendar.isoDate t) m1 = Some day1
                      ∧ raw_firebase_uid e ∈ users day1)
        as (day1 & Hd1 & Hu1).
      { unfold m1. rewrite upsert_get, decide_True by done.
        eexists. split; [done |]. cbn. set_solver. }
      destruct (Hkeep _ day1 Hd1) as (day' & Hd' & Hs').
      exists t, day'. split; [done |]. split; [done | set_solver].
Qed.

(** Rows that have both fields never make the pass fail. *)
Lemma dailyMap_raw_total (rows : list Event) :
  is_Some (dailyMap (raw <$> rows)).
Proof.
  destruct (dailyMap_counts_from (raw <$> rows) []) as (m & Hm & _).
  - intros e (e' & -> & _)%list_elem_of_fmap. by eexists.
  - by exists m.
Qed.

(** C3, as the code has it.  The daily aggregation does not validate its
    rows.  A row without timestamp makes the whole pass fail.  When every
    row has a timestamp the pass succeeds and counts every row, also one
    without user id: the events of the buckets add up to the number of
    rows, and each row's user id, missing or not, is among the users of
    the bucket of its day. *)
Theorem dailyMap_no_validation (rows : list RawEvent) :
  ((∃ e, e ∈ rows ∧ raw_received_at e = None) →
   dailyMap rows = None ∧ ∀ tz, daily tz rows = None)
  ∧ ((∀ e, e ∈ rows → is_Some (raw_received_at e)) →
     ∃ m, dailyMap rows = Some m
          ∧ totalEvents m = Z.of_nat (length rows)
          ∧ ∀ e, e ∈ rows →
                 ∃ t day, raw_received_at e = Some t
                          ∧ Coll.get (Calendar.isoDate t) m = Some day
                          ∧ raw_firebase_uid e ∈ users day).
Proof.
  split.
  - intros Hbad. assert (Hnone : dailyMap rows = None)
      by (by apply dailyMap_fails_from).
    split; [done |]. intros tz. unfold daily. by rewrite Hnone.
  - intros Hall.
    destruct (dailyMap_counts_from rows [] Hall) as (m & Hm & Htot & _ & Hrows).
    exists m. split; [done |]. split; [| done].
    rewrite Htot. cbn. lia.
Qed.

Lemma dailyMap_no_validation_witness :
  dailyMap rows_missing_timestamp = None
  ∧ ∃ m, dailyMap rows_missing_uid = Some m
         ∧ totalEvents m = 2.
Proof.
  split.
  - apply (proj1 (dailyMap_no_validation rows_missing_timestamp)).
    exists (row None (Some "B")). split; [| reflexivity].
    right. left.
  - destruct (proj2 (dailyMap_no_validation rows_missing_uid))
      as (m & Hm & Htot & _).
    + intros e He. unfold rows_missing_uid in He.
      apply elem_of_cons in He as [->|He]; [by eexists |].
      apply elem_of_cons in He as [->|He]; [by eexists |].
      by apply elem_of_nil in He.
    + exists m. split; [exact Hm | exact Htot].
Defined.

(** C3 as stated fails: the row without user id is counted (two events and
    two users on its day, against one and one once it is dropped), and the
    row without timestamp makes the pass fail. *)
Lemma malformed_rows_counterexample :
  daily 0 rows_missing_uid
  = Some [{| date := "Jan 01"; dau := 2; d_events := 2 |}]
  ∧ daily 0 (filter wellFormed rows_missing_uid)
    = Some [{| date := "Jan 01"; dau := 1; d_events := 1 |}]
  ∧ daily 0 rows_missing_timestamp = None
  ∧ daily 0 (filter wellFormed rows_missing_timestamp)
    = Some [{| date := "Jan 01"; dau := 1; d_events := 1 |}].
Proof. repeat split; by vm_compute. Qed.

End Malformed.

(** ** Calendar *)

Section CalendarFacts.
Import Calendar BucketSpec.

Lemma YearFromDay_spec (d : Z) :
  DayFromYear (YearFromDay d) ≤ d < DayFromYear (YearFromDay d + 1).
Proof.
  unfold YearFromDay.
  set (y := 1970 + 400 * d / 146097).
  assert (Hest : DayFromYear (y - 1) ≤ d < DayFromYear (y + 2))
    by (unfold y, DayFromYear; div_lia).
  destruct (Z.leb_spec (DayFromYear (y + 1)) d);
    [| destruct (Z.leb_spec (DayFromYear y) d)].
  - replace (y + 1 + 1) with (y + 2) by lia. lia.
  - lia.
  - replace (y - 1 + 1) with y by lia. lia.
Qed.

Lemma InLeapYear_range (y : Z) : 0 ≤ InLeapYear y ≤ 1.
Proof.
  unfold InLeapYear.
  destruct (y mod 4 =? 0), (y mod 100 =? 0), (y mod 400 =? 0); cbn; lia.
Qed.

Lemma DayFromYear_succ (y : Z) :
  DayFromYear (y + 1) = DayFromYear y + 365 + InLeapYear y.
Proof.
  unfold InLeapYear, DayFromYear.
  destruct (Z.eqb_spec (y mod 4) 0), (Z.eqb_spec (y mod 100) 0),
    (Z.eqb_spec (y mod 400) 0); cbn [negb]; div_lia.
Qed.

Lemma DayFromYear_mono (y1 y2 : Z) :
  y1 ≤ y2 → DayFromYear y1 + 365 * (y2 - y1) ≤ DayFromYear y2.
Proof. unfold DayFromYear. div_lia. Qed.

Lemma DayWithinYear_range (d : Z) :
  0 ≤ DayWithinYear d < 365 + InLeapYear (YearFromDay d).
Proof.
  unfold DayWithinYear. pose proof (YearFromDay_spec d) as H.
  rewrite DayFromYear_succ in H. lia.
Qed.

(** Month and day of the month give the day of the year back. *)
Lemma month_date_spec (d : Z) :
  0 ≤ MonthFromDay d ≤ 11
  ∧ 1 ≤ DateFromDay d ≤ 31
  ∧ DayWithinYear d
    = monthStart (MonthFromDay d) (InLeapYear (YearFromDay d))
      + DateFromDay d - 1.
Proof.
  pose proof (DayWithinYear_range d) as Hw.
  pose proof (InLeapYear_range (YearFromDay d)) as Hl.
  unfold DateFromDay, MonthFromDay.
  set (w := DayWithinYear d) in *. set (leap := InLeapYear _) in *.
  repeat (match goal with
          | |- context [?a <? ?b] => destruct (Z.ltb_spec a b)
          end; [cbn [monthStart]; lia |]).
  cbn [monthStart]; lia.
Qed.

(** Two days with the same month and day of the month, a whole number of
    weeks and at most 372 days apart, are the same day. *)
Lemma same_month_date_same_day (d1 d2 : Z) :
  MonthFromDay d1 = MonthFromDay d2 →
  DateFromDay d1 = DateFromDay d2 →
  d1 ≤ d2 ≤ d1 + 372 →
  (d2 - d1) mod 7 = 0 →
  d1 = d2.
Proof.
  intros Hm Hd Hle Hweek.
  destruct (month_date_spec d1) as (Hm1 & Hdd1 & Hw1).
  destruct (month_date_spec d2) as (_ & _ & Hw2).
  pose proof (DayWithinYear_range d1) as Hr1.
  pose proof (DayWithinYear_range d2) as Hr2.
  rewrite <- Hm, <- Hd in Hw2.
  unfold DayWithinYear in *.
  set (y1 := YearFromDay d1) in *. set (y2 := YearFromDay d2) in *.
  pose proof (InLeapYear_range y1) as Hl1.
  pose proof (InLeapYear_range y2) as Hl2.
  set (l1 := InLeapYear y1) in *. set (l2 := InLeapYear y2) in *.
  set (m := MonthFromDay d1) in *. set (dd := DateFromDay d1) in *.
  assert (Hshift : monthStart m l2 - monthStart m l1 = 0
                   ∨ monthStart m l2 - monthStart m l1 = l2 - l1).
  { assert (m = 0 ∨ m = 1 ∨ m = 2 ∨ m = 3 ∨ m = 4 ∨ m = 5 ∨ m = 6 ∨ m = 7
            ∨ m = 8 ∨ m = 9 ∨ m = 10 ∨ m = 11) as Hcases by lia.
    repeat (destruct Hcases as [->|Hcases]; [cbn; lia |]).
    subst m. rewrite Hcases. cbn; lia. }
  destruct (Z.lt_trichotomy y1 y2) as [Hlt|[Heq|Hgt]].
  - destruct (decide (y2 = y1 + 1)) as [Hy|Hy].
    + pose proof (DayFromYear_succ y1) as Hs. fold l1 in Hs.
      rewrite <- Hy in Hs.
      assert (d2 - d1 = 365 ∨ d2 - d1 = 366) as [Hx|Hx] by lia;
        rewrite Hx in Hweek; by vm_compute in Hweek.
    + pose proof (DayFromYear_mono y1 y2). lia.
  - assert (l1 = l2) by (unfold l1, l2; by rewrite Heq).
    rewrite Heq in *. lia.
  - pose proof (DayFromYear_succ y2) as Hs. fold l2 in Hs.
    pose proof (DayFromYear_mono (y2 + 1) y1). lia.
Qed.

Lemma labels_distinct_ok : labels_distinct = true.
Proof. by vm_compute. Qed.

Lemma label_MMM_dd_inj (m1 d1 m2 d2 : Z) :
  0 ≤ m1 ≤ 11 → 1 ≤ d1 ≤ 31 → 0 ≤ m2 ≤ 11 → 1 ≤ d2 ≤ 31 →
  label_MMM_dd (m1, d1) = label_MMM_dd (m2, d2) → m1 = m2 ∧ d1 = d2.
Proof.
  intros Hm1 Hd1 Hm2 Hd2 Heq.
  assert (Hin : ∀ m d, 0 ≤ m ≤ 11 → 1 ≤ d ≤ 31 → (m, d) ∈ monthDays).
  { intros m d Hm Hd. unfold monthDays.
    apply list_elem_of_bind. exists m. split; [| apply elem_of_seqZ; lia].
    apply list_elem_of_bind. exists d. split; [by left |].
    apply elem_of_seqZ; lia. }
  pose proof labels_distinct_ok as Hok. unfold labels_distinct in Hok.
  rewrite forallb_forall in Hok.
  specialize (Hok (m1, d1) (proj1 (list_elem_of_In _ _) (Hin _ _ Hm1 Hd1))).
  rewrite forallb_forall in Hok.
  specialize (Hok (m2, d2) (proj1 (list_elem_of_In _ _) (Hin _ _ Hm2 Hd2))).
  rewrite Heq, String.eqb_refl in Hok. cbn [implb] in Hok.
  apply bool_decide_eq_true in Hok. by injection Hok.
Qed.

Lemma formatDay_inj_week (d1 d2 : Z) :
  formatDay_MMM_dd d1 = formatDay_MMM_dd d2 →
  d1 ≤ d2 ≤ d1 + 372 → (d2 - d1) mod 7 = 0 → d1 = d2.
Proof.
  intros Heq Hle Hweek.
  destruct (month_date_spec d1) as (? & ? & _).
  destruct (month_date_spec d2) as (? & ? & _).
  destruct (label_MMM_dd_inj (MonthFromDay d1) (DateFromDay d1)
              (MonthFromDay d2) (DateFromDay d2)) as [Hm Hd]; try done.
  by apply same_month_date_same_day.
Qed.

End CalendarFacts.

(** ** Grouping loops *)

Section GroupFacts.
Context {K V A : Type} `{EqDecision K}.

(** What a grouping loop leaves under key [k]: the rows of that key,
    folded into the entry in their order. *)
Lemma foldl_upsert_get (key : A → K) (init : V) (step : A → V → V)
    (rows : list A) (m : list (K * V)) (k : K) :
  Coll.get k (foldl (λ m e, Coll.upsert (key e) init (step e) m) m rows)
  = match filter (λ e, key e = k) rows with
    | [] => Coll.get k m
    | l => Some (foldl (λ v e, step e v) (default init (Coll.get k m)) l)
    end.
Proof.
  revert m. induction rows as [|e rows IH]; intros m; cbn [foldl]; [done |].
  rewrite IH, upsert_get, filter_cons.
  destruct (decide (key e = k)) as [<-|Hne].
  - rewrite decide_True by done. cbn [foldl from_option id].
    by destruct (filter _ rows).
  - by rewrite decide_False by done.
Qed.
End GroupFacts.

(** ** Daily and weekly buckets *)

Section Buckets.
Import Calendar BucketSpec.

Lemma Day_spec (t d : Z) : Day t = d ↔ d * msPerDay ≤ t < (d + 1) * msPerDay.
Proof. unfold Day, msPerDay. div_lia. Qed.

Lemma startOfWeekDay_spec (tz t : Z) :
  WeekDay (startOfWeekDay tz t) = 1
  ∧ startOfWeekDay tz t ≤ localDay tz t < startOfWeekDay tz t + 7.
Proof.
  unfold startOfWeekDay, WeekDay.
  destruct (Z.ltb_spec ((localDay tz t + 4) mod 7) 1); div_lia.
Qed.

Lemma monday_unique (m1 m2 d1 d2 : Z) :
  WeekDay m1 = 1 → WeekDay m2 = 1 →
  m1 ≤ d1 < m1 + 7 → m2 ≤ d2 < m2 + 7 →
  (m1 = m2 ↔ m2 ≤ d1 < m2 + 7).
Proof. unfold WeekDay. div_lia. Qed.

Lemma sameWeek_iff (tz t1 t2 : Z) :
  sameWeek tz t1 t2 ↔ startOfWeekDay tz t1 = startOfWeekDay tz t2.
Proof.
  destruct (startOfWeekDay_spec tz t1) as [Hw1 Hr1].
  destruct (startOfWeekDay_spec tz t2) as [Hw2 Hr2].
  unfold sameWeek. split.
  - intros (m & Hm & H1 & H2).
    pose proof (monday_unique m _ _ _ Hm Hw1 H1 Hr1).
    pose proof (monday_unique m _ _ _ Hm Hw2 H2 Hr2). lia.
  - intros Heq. exists (startOfWeekDay tz t1). split; [done |].
    split; [done |]. by rewrite Heq.
Qed.

Lemma weekStart_day (tz t : Z) :
  Users.weekStart tz t = formatDay_MMM_dd (startOfWeekDay tz t).
Proof.
  unfold Users.weekStart, format_MMM_dd, localDay, startOfWeek, Day.
  f_equal. unfold msPerDay. div_lia.
Qed.

Lemma weekStart_inj (tz t1 t2 : Z) :
  Z.abs (t1 - t2) < 367 * msPerDay →
  Users.weekStart tz t1 = Users.weekStart tz t2 →
  startOfWeekDay tz t1 = startOfWeekDay tz t2.
Proof.
  rewrite !weekStart_day. intros Hnear Heq.
  destruct (startOfWeekDay_spec tz t1) as [Hw1 Hr1].
  destruct (startOfWeekDay_spec tz t2) as [Hw2 Hr2].
  assert (Hdays : Z.abs (localDay tz t1 - localDay tz t2) ≤ 367)
    by (unfold localDay, Day, msPerDay in *; div_lia).
  set (m1 := startOfWeekDay tz t1) in *.
  set (m2 := startOfWeekDay tz t2) in *.
  unfold WeekDay in *.
  destruct (Z.le_ge_cases m1 m2).
  - apply formatDay_inj_week; [done | div_lia | div_lia].
  - symmetry. apply formatDay_inj_week; [done | div_lia | div_lia].
Qed.

Lemma daily_bucket (l : list Event) (v : Feature.DayData) :
  foldl (λ day e,
           {| Feature.events := Feature.events day + 1;
              Feature.users := {[firebase_uid e]} ∪ Feature.users day |})
        v l
  = {| Feature.events := Feature.events v + Z.of_nat (length l);
       Feature.users := uid_set l ∪ Feature.users v |}.
Proof.
  revert v. induction l as [|e l IH]; intros [n u]; cbn [foldl].
  - cbn. f_equal; [lia | set_solver].
  - rewrite IH. cbn [Feature.events Feature.users length].
    rewrite uid_set_cons. f_equal; [lia | set_solver].
Qed.

Lemma weekly_bucket (l : list Event) (v : Users.WeekData) :
  foldl (λ week e,
           {| Users.w_users := {[firebase_uid e]} ∪ Users.w_users week;
              Users.w_baskets :=
                if decide (event_name e = "basket_results_displayed")
                then Users.w_baskets week + 1 else Users.w_baskets week |})
        v l
  = {| Users.w_users := uid_set l ∪ Users.w_users v;
       Users.w_baskets :=
         Users.w_baskets v
         + Z.of_nat (length (named "basket_results_displayed" l)) |}.
Proof.
  revert v. induction l as [|e l IH]; intros [u n]; cbn [foldl].
  - cbn. f_equal; [set_solver | lia].
  - rewrite IH. cbn [Users.w_users Users.w_baskets].
    rewrite uid_set_cons, named_cons.
    destruct (decide _); cbn [length]; f_equal; try set_solver; lia.
Qed.

Lemma dailyMap_get (rows : list Event) (d : Z) :
  Coll.get d (Feature.dailyMap rows)
  = match rowsOfDay d rows with
    | [] => None
    | l => Some {| Feature.events := Z.of_nat (length l);
                   Feature.users := uid_set l |}
    end.
Proof.
  unfold Feature.dailyMap, Feature.addDaily, isoDate.
  rewrite (foldl_upsert_get (λ e, Day (received_at e))
             {| Feature.events := 0; Feature.users := ∅ |}
             (λ e day,
                {| Feature.events := Feature.events day + 1;
                   Feature.users := {[firebase_uid e]} ∪ Feature.users day |})).
  unfold rowsOfDay. destruct (filter _ rows) as [|e l] eqn:E; [done |].
  rewrite daily_bucket. cbn [from_option id Coll.get Feature.events
                             Feature.users].
  f_equal. f_equal; try lia; set_solver.
Qed.

Lemma weeklyMap_get (tz : Z) (rows : list Event) (k : string) :
  Coll.get k (Users.weeklyMap tz rows)
  = match rowsOfWeekLabel tz k rows with
    | [] => None
    | l => Some {| Users.w_users := uid_set l;
                   Users.w_baskets :=
                     Z.of_nat (length (named "basket_results_displayed" l)) |}
    end.
Proof.
  unfold Users.weeklyMap, Users.addWeekly.
  rewrite (foldl_upsert_get (λ e, Users.weekStart tz (received_at e))
             {| Users.w_users := ∅; Users.w_baskets := 0 |}
             (λ e week,
                {| Users.w_users := {[firebase_uid e]} ∪ Users.w_users week;
                   Users.w_baskets :=
                     if decide (event_name e = "basket_results_displayed")
                     then Users.w_baskets week + 1
                     else Users.w_baskets week |})).
  unfold rowsOfWeekLabel. destruct (filter _ rows) as [|e l] eqn:E; [done |].
  rewrite weekly_bucket. cbn [from_option id Coll.get Users.w_users
                              Users.w_baskets].
  f_equal. f_equal; try lia; set_solver.
Qed.

End Buckets.

(** ** Ratios and their divisors *)

Section Ratios.
Import RatioSpec.

Lemma guarded_pct (n d : Z) :
  resolves (if 0 <? d then JS.pct n d else JS.of_Z 0) d.
Proof.
  unfold resolves. destruct (Z.ltb_spec 0 d) as [Hd|Hd].
  - rewrite pct_finite by lia. split; [done | lia].
  - by split.
Qed.

Lemma guarded_round_div (n d : Z) :
  resolves (if 0 <? d then JS.round_div n d else JS.of_Z 0) d.
Proof.
  unfold resolves. destruct (Z.ltb_spec 0 d) as [Hd|Hd].
  - rewrite round_div_finite by lia. split; [done | lia].
  - by split.
Qed.

Lemma guarded_round_tenth (n d : Z) :
  resolves (if 0 <? d then JS.round_tenth n d else JS.of_Z 0) d.
Proof.
  unfold resolves. destruct (Z.ltb_spec 0 d) as [Hd|Hd].
  - unfold JS.round_tenth. rewrite div_of_Z by lia.
    cbn [JS.mul JS.of_Z JS.round]. fold (JS.of_Z 10).
    rewrite (div_of_Z _ 10) by done. split; [done | lia].
  - by split.
Qed.

(** A ratio written as [d > 0 ? Math.round(...) : 0]. *)
Ltac guarded :=
  first [apply guarded_pct | apply guarded_round_div
        | apply guarded_round_tenth].

Lemma slice_last_elem {A} (n : nat) (l : list A) (x : A) :
  x ∈ Coll.slice_last n l → x ∈ l.
Proof.
  unfold Coll.slice_last. intros Hin.
  rewrite <- (take_drop (length l - n) l). apply elem_of_app. by right.
Qed.

Lemma cohorts_finite (tz now : Z) (rows : list Event)
    (c : Users.RetentionData) :
  c ∈ Users.cohorts tz now rows →
  JS.is_finite (Users.w1 c) ∧ JS.is_finite (Users.w2 c)
  ∧ JS.is_finite (Users.w4 c).
Proof.
  unfold Users.cohorts. intros (w & _ & Hrow)%list_elem_of_omap.
  unfold Users.cohortRow in Hrow.
  destruct (_ =? 0); [done |]. injection Hrow as <-.
  cbn [Users.w1 Users.w2 Users.w4]. unfold Users.retentionPct.
  repeat split; apply guarded_pct.
Qed.

Lemma featureArray_finite (rows : list Event)
    (r : Dashboard.FeatureAdoption) :
  r ∈ Dashboard.featureArray rows → JS.is_finite (Dashboard.adoption_rate r).
Proof.
  unfold Dashboard.featureArray. rewrite sort_by_perm.
  intros ([f d] & -> & Hin)%list_elem_of_fmap.
  destruct (featureMap_users _ _ _ Hin) as [Hsub Hne].
  assert (Hsz : (0 < size (Dashboard.users d) ≤ size (uid_set rows))%nat).
  { split; [| by apply subseteq_size].
    assert (size (Dashboard.users d) ≠ 0)%nat; [| lia].
    apply size_non_empty_iff. by intros ?%leibniz_equiv. }
  unfold Dashboard.featureRow; cbn [Dashboard.adoption_rate fst snd].
  rewrite pct_finite; [done |]. unfold size_Z. lia.
Qed.

Lemma latencies_finite (messages : list Users.Message)
    (r : Users.LatencyRow) :
  r ∈ Users.latencies messages → JS.is_finite (Users.avg r).
Proof.
  unfold Users.latencies. rewrite sort_by_perm.
  intros ([ty times] & -> & Hin)%list_elem_of_fmap.
  apply latencyMap_nonempty in Hin.
  unfold Users.percentiles. cbn [Users.avg snd].
  rewrite round_div_finite; [done |]. destruct times; [done | cbn; lia].
Qed.

(** *** Savings of any JSON value *)

Lemma filter_fmap_comm {A B} (f : A → B) (P : B → Prop)
    `{∀ x, Decision (P x)} (l : list A) :
  filter P (f <$> l) = f <$> filter (λ x, P (f x)) l.
Proof.
  induction l as [|x l IH]; [done |].
  rewrite fmap_cons, !filter_cons, IH.
  by destruct (decide (P (f x))).
Qed.

Lemma fit_small (q : Q) (b : Z) :
  (Qabs q <= inject_Z b)%Q → b ≤ 2 ^ 117 → Json.fit q = JS.Fin q.
Proof.
  intros Hq Hb. unfold Json.fit.
  destruct (Qle_bool Json.overflow (Qabs q)) eqn:E; [| done].
  exfalso. apply Qle_bool_iff in E.
  assert (Json.overflow <= inject_Z b)%Q as Hle
    by (eapply Qle_trans; eassumption).
  unfold Json.overflow in Hle. rewrite <- Zle_Qle in Hle.
  assert (2 ^ 117 < 2 ^ 1024 - 2 ^ 970) by (by vm_compute). lia.
Qed.

Lemma within_mono (n n' : Z) (x : jsnum) :
  n ≤ n' → within n x → within n' x.
Proof.
  intros Hn (q & -> & Hq). exists q. split; [done |].
  eapply Qle_trans; [exact Hq |]. rewrite <- Zle_Qle. lia.
Qed.

Lemma within_finite (n : Z) (x : jsnum) : within n x → JS.is_finite x.
Proof. by intros (q & -> & _). Qed.

Lemma within_of_Z (z : Z) : Z.abs z ≤ 1 → within 1 (JS.of_Z z).
Proof.
  intros Hz. exists (inject_Z z). split; [done |].
  unfold Qabs, inject_Z, Qle. cbn [Qnum Qden]. lia.
Qed.

Lemma within_zero (n : Z) : 0 ≤ n → within n (JS.of_Z 0).
Proof.
  intros Hn. exists (inject_Z 0). split; [done |].
  unfold Qabs, inject_Z, Qle. cbn [Qnum Qden Z.abs]. lia.
Qed.

(** Sums of numbers of these magnitudes stay clear of the overflow. *)
Lemma add_within (n m : Z) (x y : jsnum) :
  0 ≤ n → 0 ≤ m → n + m ≤ 2 ^ 64 →
  within n x → within m y → within (n + m) (Json.add x y).
Proof.
  intros Hn Hm Hnm (a & -> & Ha) (b & -> & Hb).
  assert (Qabs (a + b) <= inject_Z (2 ^ 53 * (n + m)))%Q as Hab.
  { eapply Qle_trans; [apply Qabs_triangle |].
    rewrite Z.mul_add_distr_l, inject_Z_plus.
    by apply Qplus_le_compat. }
  exists (a + b)%Q. split; [| done].
  unfold Json.add, JS.add. apply (fit_small _ _ Hab).
  assert (2 ^ 53 * 2 ^ 64 = 2 ^ 117) by (by vm_compute). nia.
Qed.

Lemma plain_within (v : Json.value) :
  plain v →
  ∀ x n, 0 ≤ n → n + 1 ≤ 2 ^ 64 → within n x →
         ∃ y, Json.plus (Json.Number x) v = Json.Number y
              ∧ within (n + 1) y.
Proof.
  intros Hv x n Hn Hb Hx.
  destruct v as [|b|q|s| |]; cbn [plain] in Hv; try done;
    cbn [Json.plus]; eexists; (split; [reflexivity |]).
  - apply add_within; try done. by apply within_of_Z.
  - apply add_within; try done. apply within_of_Z. by destruct b.
  - apply add_within; try done. exists q. split.
    + apply (fit_small _ (2 ^ 53)); [done | by vm_compute].
    + by rewrite Z.mul_1_r.
Qed.

Lemma rounded_finite (q : Q) (n : Z) :
  0 < n → JS.is_finite (JS.round (JS.div (JS.Fin q) (JS.of_Z n))).
Proof.
  intros Hn. unfold JS.div, JS.of_Z. rewrite Qeq_bool_inject_Z_0.
  destruct (Z.eqb_spec n 0); [lia | done].
Qed.

Lemma roundedQuotient_finite (k n : Z) (x : jsnum) :
  0 < n → within k x → finite (Json.roundedQuotient (Json.Number x) n).
Proof.
  intros Hn (q & -> & _). eexists. split; [reflexivity |].
  by apply rounded_finite.
Qed.

Lemma savingsTotals_within (l : list Savings.Row) :
  Forall (λ r, plain (Savings.savings r)) l →
  ∀ x c n, 0 ≤ n → n + Z.of_nat (length l) ≤ 2 ^ 64 → within n x →
    ∃ y c',
      foldl (λ st r,
               if Json.truthy (Savings.savings r)
               then (Json.plus st.1 (Savings.savings r), st.2 + 1)
               else st)
            (Json.Number x, c) l
      = (Json.Number y, c')
      ∧ within (n + Z.of_nat (length l)) y.
Proof.
  induction 1 as [|r l Hr _ IH]; intros x c n Hn Hb Hx; cbn [foldl].
  - exists x, c. split; [done |]. cbn [length]. by rewrite Z.add_0_r.
  - cbn [length] in Hb. rewrite Nat2Z.inj_succ in Hb.
    destruct (Json.truthy (Savings.savings r)); cbn [fst snd].
    + destruct (plain_within _ Hr x n Hn ltac:(lia) Hx) as (y & -> & Hy).
      destruct (IH y (c + 1) (n + 1) ltac:(lia) ltac:(lia) Hy)
        as (z & c' & -> & Hz).
      exists z, c'. split; [done |]. cbn [length].
      by replace (n + Z.of_nat (S (length l)))
        with (n + 1 + Z.of_nat (length l)) by lia.
    + destruct (IH x c n Hn ltac:(lia) Hx) as (z & c' & -> & Hz).
      exists z, c'. split; [done |].
      apply (within_mono (n + Z.of_nat (length l))); [cbn [length]; lia |].
      done.
Qed.

Lemma plainRows_basketEvents (rows : list Savings.Row) :
  plainRows rows →
  Forall (λ r, plain (Savings.savings r)) (Savings.basketEvents rows)
  ∧ Z.of_nat (length (Savings.basketEvents rows)) < 2 ^ 32.
Proof.
  intros [Hlen Hp]. split.
  - apply Forall_forall. intros r [_ Hr]%list_elem_of_filter. by apply Hp.
  - pose proof (length_filter (λ r, Savings.name r
                                    = "basket_results_displayed") rows).
    unfold Savings.basketEvents. lia.
Qed.

Lemma avgSavingsPerBasket_finite (rows : list Savings.Row) :
  plainRows rows → finite (Savings.avgSavingsPerBasket rows).
Proof.
  intros [Hf Hlen]%plainRows_basketEvents.
  unfold Savings.avgSavingsPerBasket, Savings.savingsTotals.
  destruct (savingsTotals_within _ Hf (JS.of_Z 0) 0 0)
    as (y & c & -> & Hy); [done | | by apply within_zero |].
  { assert (2 ^ 32 ≤ 2 ^ 64) by (by vm_compute). lia. }
  cbn [fst snd]. destruct (Z.ltb_spec 0 c).
  - by apply (roundedQuotient_finite _ _ _ ltac:(done) Hy).
  - by exists (JS.of_Z 0).
Qed.

(** *** The segments *)

Lemma upsert_length {K V} `{EqDecision K} (k : K) (init : V) (f : V → V)
    (m : list (K * V)) :
  (length (Coll.upsert k init f m) ≤ S (length m))%nat.
Proof.
  induction m as [|[k0 v0] m IH]; cbn [Coll.upsert length]; [done |].
  destruct (decide (k0 = k)); cbn [length]; lia.
Qed.

Lemma userActivity_length (rows : list Savings.Row) :
  (length (Savings.userActivity rows) ≤ length rows)%nat.
Proof.
  unfold Savings.userActivity.
  enough (∀ m, (length (foldl Savings.addActivity m rows)
                ≤ length m + length rows)%nat) as H by apply (H []).
  induction rows as [|r rows IH]; intros m; cbn [foldl length]; [lia |].
  etrans; [apply IH |]. unfold Savings.addActivity.
  pose proof (upsert_length (Savings.uid r)
                {| Savings.a_events := 0;
                   Savings.a_savings := Json.Number (JS.of_Z 0) |}
                (λ user,
                   {| Savings.a_events := Savings.a_events user + 1;
                      Savings.a_savings :=
                        if Json.truthy (Savings.savings r)
                        then Json.plus (Savings.a_savings user)
                               (Savings.savings r)
                        else Savings.a_savings user |}) m).
  lia.
Qed.

(** The savings of every user are a number of a magnitude up to [2^53]
    times the number of rows. *)
Lemma userActivity_within (rows : list Savings.Row) :
  plainRows rows →
  ∀ a, a ∈ (Savings.userActivity rows).*2 →
       ∃ x, Savings.a_savings a = Json.Number x
            ∧ within (Z.of_nat (length rows)) x.
Proof.
  intros [Hlen Hp]. unfold Savings.userActivity.
  assert (2 ^ 32 ≤ 2 ^ 64) as H64 by (by vm_compute).
  enough (H : ∀ m n,
             0 ≤ n → n + Z.of_nat (length rows) ≤ 2 ^ 64 →
             (∀ a, a ∈ m.*2 →
                   ∃ x, Savings.a_savings a = Json.Number x ∧ within n x) →
             ∀ a, a ∈ (foldl Savings.addActivity m rows).*2 →
                  ∃ x, Savings.a_savings a = Json.Number x
                       ∧ within (n + Z.of_nat (length rows)) x).
  { intros a Ha. apply (H [] 0); [done | lia | | done].
    intros a' Ha'. by apply elem_of_nil in Ha'. }
  clear Hlen.
  induction rows as [|r rows IH]; intros m n Hn Hb Hm a Ha;
    cbn [foldl length] in *.
  - rewrite Z.add_0_r. by apply Hm.
  - rewrite Nat2Z.inj_succ in Hb.
    replace (n + Z.of_nat (S (length rows)))
      with (n + 1 + Z.of_nat (length rows)) by lia.
    apply (IH ltac:(intros r' Hr'; apply Hp; by right)
             (Savings.addActivity m r) (n + 1)); [lia | lia | | done].
    clear a Ha. intros a ((u & a') & -> & Hin)%list_elem_of_fmap.
    cbn [snd]. unfold Savings.addActivity in Hin.
    assert (Hr : plain (Savings.savings r)) by (apply Hp; by left).
    assert (Hstep : ∀ x, within n x →
              ∃ y, (if Json.truthy (Savings.savings r)
                    then Json.plus (Json.Number x) (Savings.savings r)
                    else Json.Number x) = Json.Number y
                   ∧ within (n + 1) y).
    { intros x Hx. destruct (Json.truthy (Savings.savings r)).
      - by apply plain_within; [| | lia |].
      - exists x. split; [done |]. by apply (within_mono n); [lia |]. }
    apply upsert_elem in Hin as [Hin| [(v & Hin & Heq)|Heq]].
    + destruct (Hm a') as (x & Hx & Hw);
        [apply list_elem_of_fmap; by exists (u, a') |].
      exists x. split; [done |]. by apply (within_mono n); [lia |].
    + injection Heq as -> ->. cbn [Savings.a_savings].
      destruct (Hm v) as (x & -> & Hw);
        [apply list_elem_of_fmap; by exists (Savings.uid r, v) |].
      by apply Hstep.
    + injection Heq as -> ->. cbn [Savings.a_savings].
      apply Hstep. by apply within_zero.
Qed.

Lemma Forall_alter_step {A} (P Q : A → Prop) (f : A → A) (i : nat)
    (l : list A) :
  (∀ x, P x → Q x) → (∀ x, P x → Q (f x)) →
  Forall P l → Forall Q (alter f i l).
Proof.
  intros H1 H2 Hl. revert i.
  induction Hl as [|x l Hx Hl IH]; intros [|i]; cbn; constructor; auto.
  by eapply Forall_impl.
Qed.

(** A segment that no user has gone to holds what it started with. *)
Lemma segments_untouched (acts : list Savings.Activity) :
  Forall (λ s, 0 ≤ Savings.count s
               ∧ JS.is_finite (Savings.sumEvents s)
               ∧ (Savings.count s = 0 →
                  Savings.sumEvents s = JS.Fin 0
                  ∧ Savings.sumSavings s = Json.Number (JS.Fin 0)))
         (foldl Savings.addUser Savings.initialSegments acts).
Proof.
  assert (Forall (λ s, 0 ≤ Savings.count s
               ∧ JS.is_finite (Savings.sumEvents s)
               ∧ (Savings.count s = 0 →
                  Savings.sumEvents s = JS.Fin 0
                  ∧ Savings.sumSavings s = Json.Number (JS.Fin 0)))
            Savings.initialSegments) as H0.
  { apply Forall_forall. intros s Hs. unfold Savings.initialSegments in Hs.
    repeat (apply elem_of_cons in Hs as [->|Hs];
            [cbn; split; [lia | by split] |]).
    by apply elem_of_nil in Hs. }
  revert H0. generalize Savings.initialSegments.
  induction acts as [|a acts IH]; intros segs Hs; cbn [foldl]; [done |].
  apply IH. unfold Savings.addUser.
  eapply Forall_alter_step; [| | exact Hs]; [done |].
  intros s (Hc & Hf & _). cbn [Savings.count Savings.sumEvents].
  split; [lia |]. split; [| lia].
  destruct (Savings.sumEvents s); done.
Qed.

(** Under plain savings the sum of every segment is a number. *)
Lemma segments_within (rows : list Savings.Row) :
  plainRows rows →
  Forall (λ s, ∃ x k, Savings.sumSavings s = Json.Number x ∧ within k x)
         (foldl Savings.addUser Savings.initialSegments
                (Savings.userActivity rows).*2).
Proof.
  intros Hp. pose proof (userActivity_within rows Hp) as Hacts.
  pose proof (userActivity_length rows) as Hlen. destruct Hp as [Hrows _].
  rewrite <- (length_fmap snd) in Hlen.
  set (L := Z.of_nat (length rows)) in *.
  assert (2 ^ 32 * 2 ^ 32 = 2 ^ 64) as H64 by (by vm_compute).
  enough (H : ∀ acts segs j,
             0 ≤ j → j + Z.of_nat (length acts) ≤ L →
             (∀ a, a ∈ acts →
                   ∃ x, Savings.a_savings a = Json.Number x ∧ within L x) →
             Forall (λ s, ∃ x, Savings.sumSavings s = Json.Number x
                               ∧ within (j * L) x) segs →
             Forall (λ s, ∃ x, Savings.sumSavings s = Json.Number x
                               ∧ within ((j + Z.of_nat (length acts)) * L) x)
                    (foldl Savings.addUser segs acts)).
  { eapply Forall_impl.
    - apply (H _ Savings.initialSegments 0); [done | lia | done |].
      apply Forall_forall. intros s Hs.
      unfold Savings.initialSegments in Hs.
      repeat (apply elem_of_cons in Hs as [->|Hs];
              [eexists; split; [reflexivity | by apply within_zero] |]).
      by apply elem_of_nil in Hs.
    - intros s (x & Hx & Hw). eexists x, _. split; [done | exact Hw]. }
  clear Hacts Hlen.
  induction acts as [|a acts IH]; intros segs j Hj Hb Ha Hs;
    cbn [foldl length] in *.
  - by rewrite Z.add_0_r.
  - rewrite Nat2Z.inj_succ in Hb.
    replace (j + Z.of_nat (S (length acts)))
      with (j + 1 + Z.of_nat (length acts)) by lia.
    apply IH; [lia | lia | intros a' Ha'; apply Ha; by right |].
    unfold Savings.addUser.
    eapply Forall_alter_step; [| | exact Hs].
    + intros s (x & Hx & Hw). exists x. split; [done |].
      apply (within_mono (j * L)); [nia | done].
    + intros s (x & Hx & Hw). cbn [Savings.sumSavings]. rewrite Hx.
      destruct (Ha a) as (y & -> & Hy); [by left |].
      cbn [Json.plusSum]. eexists. split; [reflexivity |].
      replace ((j + 1) * L) with (j * L + L) by lia.
      apply add_within; [nia | lia | nia | done | done].
Qed.

Lemma segmentUsers_averages (rows : list Savings.Row)
    (s : Savings.UserSegment) :
  s ∈ Savings.segmentUsers rows →
  resolves (Savings.avgEvents s) (Savings.users s)
  ∧ (Savings.users s = 0 → Savings.avgSavings s = Some (JS.Fin 0))
  ∧ (plainRows rows → finite (Savings.avgSavings s)).
Proof.
  unfold Savings.segmentUsers.
  intros (seg & -> & Hin)%list_elem_of_fmap.
  pose proof (segments_untouched (Savings.userActivity rows).*2) as Hu.
  rewrite Forall_forall in Hu.
  destruct (Hu seg Hin) as (Hc & Hf & Hz).
  unfold Savings.average.
  destruct (Z.ltb_spec 0 (Savings.count seg)) as [Hpos|Hzero];
    cbn [Savings.avgEvents Savings.users Savings.avgSavings].
  - split; [| split; [lia |]].
    + split; [| lia]. destruct (Savings.sumEvents seg); try done.
      by apply rounded_finite.
    + intros Hp. pose proof (segments_within rows Hp) as Hw.
      rewrite Forall_forall in Hw.
      destruct (Hw seg Hin) as (x & k & -> & Hx).
      by apply (roundedQuotient_finite k).
  - destruct Hz as [-> ->]; [lia |]. cbn [Json.held].
    split; [by split |]. split; [done |]. intros _. by eexists.
Qed.

(** *** Rows whose savings are whole numbers of cents *)

Lemma fit_of_Z (z b : Z) :
  Z.abs z ≤ b → b ≤ 2 ^ 117 → Json.fit (inject_Z z) = JS.of_Z z.
Proof.
  intros Hz Hb. apply (fit_small _ b); [| done].
  unfold Qabs, inject_Z, Qle. cbn [Qnum Qden]. lia.
Qed.

Lemma add_of_Z_fit (a n b : Z) :
  Z.abs (a + n) ≤ b → b ≤ 2 ^ 117 →
  Json.add (JS.of_Z a) (JS.of_Z n) = JS.of_Z (a + n).
Proof.
  intros Hz Hb. unfold Json.add. rewrite add_of_Z.
  by apply (fit_of_Z _ b).
Qed.

Lemma stored_savings (e : Event) :
  (Users.savingsOf e = None
   ∧ Json.truthy (Savings.savings (Savings.stored e)) = false)
  ∨ (∃ n, Users.savingsOf e = Some n
          ∧ Savings.savings (Savings.stored e) = Json.Num (inject_Z n)
          ∧ Json.truthy (Json.Num (inject_Z n)) = true).
Proof.
  unfold Users.savingsOf, Savings.stored. cbn [Savings.savings].
  destruct (props e) as [p|]; cbn [mbind option_bind]; [| by left].
  destruct (savings_cents p) as [n|]; cbn [mbind option_bind]; [| by left].
  cbn [Json.truthy]. rewrite Qeq_bool_inject_Z_0.
  destruct (n =? 0) eqn:E; [by left | right; exists n].
  by rewrite Qeq_bool_inject_Z_0, E.
Qed.

Lemma stored_totals (l : list Event) :
  (∀ e n, e ∈ l → Users.savingsOf e = Some n → Z.abs n ≤ 2 ^ 53) →
  ∀ a c k,
    0 ≤ k → k + Z.of_nat (length l) ≤ 2 ^ 64 → Z.abs a ≤ 2 ^ 53 * k →
    foldl (λ st r,
             if Json.truthy (Savings.savings r)
             then (Json.plus st.1 (Savings.savings r), st.2 + 1)
             else st)
          (Json.Number (JS.of_Z a), c) (Savings.stored <$> l)
    = let st := foldl (λ st e,
                         match Users.savingsOf e with
                         | Some n => (st.1 + n, st.2 + 1)
                         | None => st
                         end) (a, c) l in
      (Json.Number (JS.of_Z st.1), st.2).
Proof.
  assert (2 ^ 53 * 2 ^ 64 = 2 ^ 117) as H117 by (by vm_compute).
  induction l as [|e l IH]; intros Hs a c k Hk Hb Ha; [done |].
  rewrite fmap_cons. cbn [foldl length] in *.
  rewrite Nat2Z.inj_succ in Hb.
  assert (Hl : ∀ e' n, e' ∈ l → Users.savingsOf e' = Some n →
                       Z.abs n ≤ 2 ^ 53)
    by (intros e' n He'; apply Hs; by right).
  destruct (stored_savings e) as [[-> ->]|(n & Hn & -> & ->)].
  - by apply (IH Hl a c k); [| lia |].
  - rewrite Hn. specialize (Hs e n ltac:(by left) Hn).
    cbn [Json.plus fst snd].
    rewrite (fit_of_Z n (2 ^ 53)) by (done || by vm_compute).
    rewrite (add_of_Z_fit a n (2 ^ 53 * (k + 1))) by nia.
    apply (IH Hl (a + n) (c + 1) (k + 1)); lia.
Qed.

Lemma stored_average (rows : list Event) :
  (∀ e n, e ∈ rows → Users.savingsOf e = Some n → Z.abs n ≤ 2 ^ 53) →
  Z.of_nat (length rows) < 2 ^ 32 →
  Savings.avgSavingsPerBasket (Savings.stored <$> rows)
  = Some (Users.avgSavingsPerBasket rows).
Proof.
  intros Hs Hlen.
  unfold Savings.avgSavingsPerBasket, Savings.savingsTotals,
    Savings.basketEvents, Users.avgSavingsPerBasket, Users.savingsTotals,
    Users.basketEvents, named.
  rewrite filter_fmap_comm. cbn [Savings.stored Savings.name].
  pose proof (length_filter (λ e, event_name e
                                  = "basket_results_displayed") rows).
  assert (2 ^ 32 ≤ 2 ^ 64) by (by vm_compute).
  rewrite (stored_totals _ ltac:(intros e n [_ He]%list_elem_of_filter;
                                 by apply Hs) 0 0 0) by lia.
  cbn zeta. cbn [fst snd].
  by destruct (0 <? _).
Qed.

(** C2.  Each ratio of the pages is 0 when its divisor is 0, whatever the
    rows: the completion rates (overall, per day, on the overview page and
    on the users page), the drop-off percentage of the step-by-step cards,
    the DAU/WAU ratio, the conversion rates, the baskets per user, the
    average savings per basket, the averages per segment.  The average
    savings per basket and the average savings of a segment, which add up
    [savings_cents] as the store holds it, are numbers when the savings of
    the rows are numbers of a magnitude up to 2^53, booleans or null, and
    there are fewer than 2^32 rows; on rows whose savings are whole
    numbers of cents the average savings per basket is
    [Users.avgSavingsPerBasket].  The other ratios are numbers, and so
    are the retention checkpoints, the adoption rates and the latency
    averages, whose rows only exist for a non-zero divisor. *)
Theorem ratios_resolve_to_zero
    (tz now : Z) (rows : list Event) (messages : list Users.Message)
    (srows : list Savings.Row) :
  resolves (Onboarding.overallRate (Onboarding.stats rows))
           (Onboarding.totalStarted (Onboarding.stats rows))
  ∧ (∀ prevStep step,
        resolves (Onboarding.cardDropoffPct prevStep step)
                 (Onboarding.users prevStep))
  ∧ (∀ d, d ∈ Onboarding.daily tz rows →
          resolves (Onboarding.rate d) (Onboarding.d_started d))
  ∧ resolves (Dashboard.onboardingRate rows)
             (size_Z (Dashboard.startedCompleted rows).1)
  ∧ resolves (Feature.avgPerUser rows) (size_Z (uid_set rows))
  ∧ resolves (Users.onboardingCompletionRate rows)
             (Users.onboardingStarted rows)
  ∧ resolves (Users.dauWauRatio tz now rows) (Users.wau_ now rows)
  ∧ resolves (Users.firstBasketRate rows) (Users.mau rows)
  ∧ resolves (Users.ahaEventRate rows) (Users.firstBasketUsers rows)
  ∧ resolves (Users.actionRate rows) (Users.basketUsers rows)
  ∧ resolves (Users.newUserConversionRate rows)
             (size_Z (Users.trulyNewUsers rows))
  ∧ resolves (Users.basketSuccessRate rows) (Users.basketAttempts rows)
  ∧ resolves (Users.w1Retention now rows)
             (size_Z (Users.usersWeek1 now rows))
  ∧ resolves (Users.avgBasketsPerUser rows) (Users.mau rows)
  ∧ (∀ w, w ∈ Users.weekly tz rows →
          resolves (Users.basketsPerUser w) (Users.wau w))
  ∧ (∀ c, c ∈ Users.cohorts tz now rows →
          JS.is_finite (Users.w1 c) ∧ JS.is_finite (Users.w2 c)
          ∧ JS.is_finite (Users.w4 c))
  ∧ (∀ r, r ∈ Dashboard.featureArray rows →
          JS.is_finite (Dashboard.adoption_rate r))
  ∧ (∀ r, r ∈ Users.latencies messages → JS.is_finite (Users.avg r))
  ∧ ((Savings.savingsTotals srows).2 = 0 →
     Savings.avgSavingsPerBasket srows = Some (JS.Fin 0))
  ∧ (plainRows srows → finite (Savings.avgSavingsPerBasket srows))
  ∧ (∀ s, s ∈ Savings.segmentUsers srows →
          resolves (Savings.avgEvents s) (Savings.users s)
          ∧ (Savings.users s = 0 →
             Savings.avgSavings s = Some (JS.Fin 0))
          ∧ (plainRows srows → finite (Savings.avgSavings s)))
  ∧ ((∀ e n, e ∈ rows → Users.savingsOf e = Some n → Z.abs n ≤ 2 ^ 53) →
     Z.of_nat (length rows) < 2 ^ 32 →
     Savings.avgSavingsPerBasket (Savings.stored <$> rows)
     = Some (Users.avgSavingsPerBasket rows)).
Proof.
  split; [guarded |].
  split; [intros; guarded |].
  split.
  { intros d (entry & -> & _)%slice_last_elem%list_elem_of_fmap.
    apply guarded_pct. }
  do 11 (split; [guarded |]).
  split.
  { intros w (entry & -> & _)%slice_last_elem%list_elem_of_fmap.
    apply guarded_round_tenth. }
  split; [apply cohorts_finite |].
  split; [apply featureArray_finite |].
  split; [apply latencies_finite |].
  split.
  { intros Hz. unfold Savings.avgSavingsPerBasket. by rewrite Hz. }
  split; [apply avgSavingsPerBasket_finite |].
  split; [apply segmentUsers_averages | apply stored_average].
Qed.

(** On rows with the savings 250, 0 and 375 the averages are numbers; on
    the empty list of rows every divisor is 0. *)
Lemma ratios_resolve_to_zero_witness :
  finite (Savings.avgSavingsPerBasket plain_savings)
  ∧ Savings.avgSavingsPerBasket plain_savings = Some (JS.Fin 313)
  ∧ Users.dauWauRatio 0 0 [] = JS.Fin 0
  ∧ Savings.avgSavingsPerBasket [] = Some (JS.Fin 0).
Proof.
  assert (Hp : plainRows plain_savings).
  { split; [by vm_compute |]. intros r Hr. unfold plain_savings in Hr.
    repeat (apply elem_of_cons in Hr as [->|Hr]; [by vm_compute |]).
    by apply elem_of_nil in Hr. }
  destruct (ratios_resolve_to_zero 0 0 [] [] plain_savings)
    as (_ & _ & _ & _ & _ & _ & _ & _ & _ & _ & _ & _ & _ & _ & _ & _ & _
        & _ & _ & Hfin & _).
  destruct (ratios_resolve_to_zero 0 0 [] [] [])
    as (_ & _ & _ & _ & _ & _ & Hdw & _ & _ & _ & _ & _ & _ & _ & _ & _
        & _ & _ & Hz & _).
  split; [by apply Hfin |]. split; [by vm_compute |].
  split; [by apply Hdw | by apply Hz].
Defined.

(** C2 as stated fails: on one basket whose savings are the text "n/a",
    the divisor is 1 and the average savings per basket are NaN, as are
    the average savings of the segment of its user; on two baskets with
    savings of 1e308 each, the average savings per basket are infinite. *)
Lemma savings_not_numbers_counterexample :
  (Savings.savingsTotals text_savings).2 = 1
  ∧ Savings.avgSavingsPerBasket text_savings = Some JS.NaN
  ∧ (λ s, (Savings.users s, Savings.avgSavings s))
      <$> Savings.segmentUsers text_savings
    = [(0, Some (JS.Fin 0)); (0, Some (JS.Fin 0)); (0, Some (JS.Fin 0));
       (1, Some JS.NaN)]
  ∧ (Savings.savingsTotals large_savings).2 = 2
  ∧ Savings.avgSavingsPerBasket large_savings = Some JS.PosInf
  ∧ ¬ JS.is_finite JS.NaN
  ∧ ¬ JS.is_finite JS.PosInf.
Proof. repeat split; by vm_compute. Qed.

End Ratios.

(** ** The rest of the pages *)

(** ** Sorting with the largest first, and the first rows of the result *)

Section SortFacts.
Import TableSpec.
Context {A : Type} (key : A → Z).

Lemma filter_nil_elem (P : A → Prop) `{∀ x, Decision (P x)} (l : list A) :
  (∀ x, x ∈ l → ¬ P x) → filter P l = [].
Proof.
  induction l as [|x l IH]; intros Hl; [done |].
  rewrite filter_cons, decide_False by (apply Hl; left).
  apply IH. intros; apply Hl; by right.
Qed.

Lemma insert_desc_sorted x l :
  descendingBy key l →
  descendingBy key (Coll.insert_by (λ a b, key b - key a) x l).
Proof.
  unfold descendingBy. induction 1 as [|y l Hl IH Hy]; cbn [Coll.insert_by].
  - repeat constructor.
  - destruct (key y - key x <? 0) eqn:E.
    + apply Z.ltb_lt in E. constructor; [by constructor |].
      constructor; [lia |]. eapply Forall_impl; [exact Hy |].
      cbn. intros; lia.
    + apply Z.ltb_ge in E. constructor; [done |].
      rewrite insert_by_perm. constructor; [lia | done].
Qed.

Lemma insert_desc_filter x l c :
  descendingBy key l →
  filter (λ a, key a = c) (Coll.insert_by (λ a b, key b - key a) x l)
  = filter (λ a, key a = c) l ++ (if decide (key x = c) then [x] else []).
Proof.
  unfold descendingBy. induction 1 as [|y l Hl IH Hy]; cbn [Coll.insert_by].
  - rewrite filter_cons, filter_nil. by destruct (decide (key x = c)).
  - destruct (key y - key x <? 0) eqn:E.
    + apply Z.ltb_lt in E. rewrite (filter_cons _ x).
      destruct (decide (key x = c)) as [Hx|Hx]; [| by rewrite app_nil_r].
      rewrite filter_nil_elem; [done |].
      intros z Hin Hz.
      apply elem_of_cons in Hin as [->|Hin]; [lia |].
      rewrite Forall_forall in Hy. specialize (Hy z Hin). cbn in Hy. lia.
    + rewrite !(filter_cons _ y), IH.
      by destruct (decide (key y = c)).
Qed.

Lemma sort_by_snoc (cmp : A → A → Z) l x :
  Coll.sort_by cmp (l ++ [x]) = Coll.insert_by cmp x (Coll.sort_by cmp l).
Proof. unfold Coll.sort_by. by rewrite foldl_app. Qed.

Lemma sort_by_descending l :
  sortedDescending key l (Coll.sort_by (λ a b, key b - key a) l).
Proof.
  split; [apply sort_by_perm |].
  induction l as [|x l [IH1 IH2]] using rev_ind.
  - split; [constructor | done].
  - rewrite sort_by_snoc. split; [by apply insert_desc_sorted |].
    intros c. rewrite insert_desc_filter by done.
    rewrite IH2, filter_app, filter_cons, filter_nil.
    by destruct (decide (key x = c)).
Qed.

Lemma topOf_take n l0 l :
  sortedDescending key l0 l → topOf key n l0 (take n l).
Proof.
  intros (Hp & Hs & _). split; [rewrite length_take; lia |].
  unfold descendingBy in *.
  rewrite <- (take_drop n l) in Hs.
  split; [by eapply StronglySorted_app_1_l |].
  exists (drop n l). split; [by rewrite take_drop |]. split.
  - intros Hne. rewrite length_take.
    destruct (decide (n ≤ length l)%nat); [lia |].
    rewrite drop_ge in Hne by lia. done.
  - intros a b Ha Hb.
    exact (StronglySorted_app_1_elem_of _ _ _ _ _ Hs Ha Hb).
Qed.

Lemma topOf_elem n l0 shown x : topOf key n l0 shown → x ∈ shown → x ∈ l0.
Proof.
  intros (_ & _ & rest & Hp & _) Hx. rewrite <- Hp. set_solver.
Qed.
End SortFacts.

(** ** Sums *)

Section TotalFacts.
Import TableSpec.
Context {A : Type}.

Lemma total_cons (f : A → Z) x l : total f (x :: l) = f x + total f l.
Proof. done. Qed.

Lemma total_app (f : A → Z) l1 l2 :
  total f (l1 ++ l2) = total f l1 + total f l2.
Proof.
  induction l1 as [|x l1 IH]; [done |].
  cbn [app]. rewrite !total_cons, IH. lia.
Qed.

Lemma total_perm (f : A → Z) l1 l2 : l1 ≡ₚ l2 → total f l1 = total f l2.
Proof.
  induction 1 as [|x l1 l2 _ IH|x y l|l1 l2 l3 _ IH1 _ IH2];
    rewrite ?total_cons; try lia.
Qed.

Lemma total_fmap {B} (g : B → A) (f : A → Z) l :
  total f (g <$> l) = total (λ x, f (g x)) l.
Proof.
  induction l as [|x l IH]; [done |].
  rewrite fmap_cons, !total_cons, IH. done.
Qed.

Lemma total_ext (f g : A → Z) l :
  (∀ x, x ∈ l → f x = g x) → total f l = total g l.
Proof.
  induction l as [|x l IH]; intros H; [done |].
  rewrite !total_cons, H, IH; [done | | left].
  intros; apply H; by right.
Qed.

Lemma total_nonneg (f : A → Z) l : (∀ x, x ∈ l → 0 ≤ f x) → 0 ≤ total f l.
Proof.
  induction l as [|x l IH]; intros H; [done |].
  rewrite total_cons. specialize (H x) as Hx.
  assert (0 ≤ f x) by (apply H; left).
  assert (0 ≤ total f l) by (apply IH; intros; apply H; by right). lia.
Qed.

Lemma total_filter_le (f : A → Z) (P : A → Prop) `{∀ x, Decision (P x)} l :
  (∀ x, x ∈ l → 0 ≤ f x) → total f (filter P l) ≤ total f l.
Proof.
  induction l as [|x l IH]; intros Hf; [done |].
  assert (0 ≤ f x) by (apply Hf; left).
  assert (total f (filter P l) ≤ total f l)
    by (apply IH; intros; apply Hf; by right).
  rewrite filter_cons. destruct (decide (P x)); rewrite !total_cons; lia.
Qed.

Lemma total_const_one l : total (λ _ : A, 1) l = Z.of_nat (length l).
Proof.
  induction l as [|x l IH]; [done |].
  rewrite total_cons, IH. cbn [length]. lia.
Qed.
End TotalFacts.

(** ** More on insertion-ordered maps *)

Section MoreMapFacts.
Import TableSpec.
Context {K V A : Type} `{EqDecision K}.
Implicit Types (m : list (K * V)) (k : K).

Lemma get_Some_elem m k v : Coll.get k m = Some v → (k, v) ∈ m.
Proof.
  induction m as [|[k0 v0] m IH]; cbn [Coll.get]; [done |].
  destruct (decide (k0 = k)) as [->|Hne].
  - intros [= ->]. by left.
  - intros. right. by apply IH.
Qed.

Lemma get_None_keys m k : Coll.get k m = None ↔ k ∉ m.*1.
Proof.
  induction m as [|[k0 v0] m IH]; cbn [Coll.get].
  - split; [intros _ ?%elem_of_nil; done | done].
  - rewrite fmap_cons, not_elem_of_cons. cbn [fst].
    destruct (decide (k0 = k)) as [->|Hne].
    + split; [done | intros [? _]; done].
    + rewrite IH. split; [intros; split; congruence | by intros [_ ?]].
Qed.

(** The group of a key after a pass whose new entries depend on the row
    that creates them. *)
Lemma foldl_upsert_get_dep (key : A → K) (init : A → V)
    (step : A → V → V) (rows : list A) m k :
  Coll.get k (foldl (λ m e, Coll.upsert (key e) (init e) (step e) m) m rows)
  = match filter (λ e, key e = k) rows with
    | [] => Coll.get k m
    | e0 :: l =>
        Some (foldl (λ v e, step e v)
                    (default (init e0) (Coll.get k m)) (e0 :: l))
    end.
Proof.
  revert m. induction rows as [|e rows IH]; intros m; cbn [foldl]; [done |].
  rewrite IH, upsert_get, filter_cons.
  destruct (decide (key e = k)) as [<-|Hne].
  - rewrite decide_True by done. cbn [foldl from_option id].
    by destruct (filter _ rows).
  - by rewrite decide_False by done.
Qed.

Lemma foldl_upsert_NoDup_dep (key : A → K) (init : A → V)
    (step : A → V → V) (rows : list A) m :
  NoDup m.*1 →
  NoDup (foldl (λ m e, Coll.upsert (key e) (init e) (step e) m) m rows).*1.
Proof.
  revert m. induction rows as [|e rows IH]; intros m Hm; cbn [foldl];
    [done |].
  apply IH. by apply upsert_NoDup.
Qed.

Lemma foldl_upsert_keys_dep (key : A → K) (init : A → V)
    (step : A → V → V) (rows : list A) m k :
  k ∈ (foldl (λ m e, Coll.upsert (key e) (init e) (step e) m) m rows).*1
  ↔ k ∈ m.*1 ∨ k ∈ key <$> rows.
Proof.
  revert m. induction rows as [|e rows IH]; intros m; cbn [foldl].
  - rewrite fmap_nil. set_solver.
  - rewrite IH, upsert_keys, fmap_cons.
    destruct (decide (key e ∈ m.*1)); set_solver.
Qed.

(** A sum over the entries grows by [d] with every row when every update
    adds [d] to the summand. *)
Lemma total_upsert (g : V → Z) (d : Z) k (init : V) (f : V → V) m :
  g init = 0 → (∀ v, g (f v) = g v + d) →
  total (λ p, g p.2) (Coll.upsert k init f m) = total (λ p, g p.2) m + d.
Proof.
  intros Hi Hf. induction m as [|[k0 v0] m IH]; cbn [Coll.upsert].
  - rewrite total_cons. cbn. rewrite Hf, Hi. lia.
  - destruct (decide (k0 = k)); rewrite !total_cons; cbn [snd].
    + rewrite Hf. lia.
    + rewrite IH. lia.
Qed.

(** When the keys of the rows never go back in the order [R], the keys of
    the map come out strictly in that order. *)
Lemma snoc_sorted (R : K → K → Prop) (l : list K) (d : K) :
  StronglySorted R l → Forall (λ k, R k d) l → StronglySorted R (l ++ [d]).
Proof.
  induction 1 as [|x l Hl IH Hx]; intros Hd; cbn [app].
  - repeat constructor.
  - apply Forall_cons in Hd as [Hxd Hd]. constructor; [by apply IH |].
    apply Forall_app. split; [done | by repeat constructor].
Qed.

Lemma foldl_upsert_keys_sorted (R : K → K → Prop) (key : A → K)
    (init : A → V) (step : A → V → V) (rows : list A) m :
  StronglySorted R m.*1 →
  (∀ k e, k ∈ m.*1 → e ∈ rows → k = key e ∨ R k (key e)) →
  StronglySorted (λ a b, key a = key b ∨ R (key a) (key b)) rows →
  StronglySorted R
    (foldl (λ m e, Coll.upsert (key e) (init e) (step e) m) m rows).*1.
Proof.
  revert m. induction rows as [|e rows IH]; intros m Hm Hk Hs; cbn [foldl];
    [done |].
  apply StronglySorted_inv in Hs as [Hs He].
  rewrite Forall_forall in He.
  apply IH; [| | done]; rewrite upsert_keys.
  - destruct (decide (key e ∈ m.*1)) as [|Hn]; [done |].
    apply snoc_sorted; [done |]. apply Forall_forall. intros k Hin.
    destruct (Hk k e Hin) as [->|]; [by left | done | done].
  - intros k e' Hin He'.
    destruct (decide (key e ∈ m.*1)) as [|Hn].
    + apply Hk; [done | by right].
    + apply elem_of_app in Hin as [Hin|Hin%list_elem_of_singleton].
      * apply Hk; [done | by right].
      * subst k. by apply He.
Qed.
End MoreMapFacts.

(** ** Counting by key *)

Section CounterFacts.
Import TableSpec Counter.
Context {K : Type} `{EqDecision K}.
Implicit Types (keys : list K) (k : K).

Lemma occurrences_nonneg k keys : 0 ≤ occurrences k keys.
Proof. unfold occurrences. lia. Qed.

Lemma occurrences_pos k keys : 0 < occurrences k keys ↔ k ∈ keys.
Proof.
  unfold occurrences. split.
  - intros Hpos. destruct (filter _ keys) as [|x l] eqn:E;
      [cbn in Hpos; lia |].
    assert (x ∈ filter (λ x, x = k) keys) as Hx by (rewrite E; left).
    apply list_elem_of_filter in Hx as [-> ?]. done.
  - intros Hin.
    assert (k ∈ filter (λ x, x = k) keys) as Hx
      by (by apply list_elem_of_filter).
    destruct (filter _ keys); [by apply elem_of_nil in Hx |].
    cbn [length]. lia.
Qed.

Lemma count_steps (l : list K) (n : Z) :
  foldl (λ (v : Z) (_ : K), v + 1) n l = n + Z.of_nat (length l).
Proof.
  revert n. induction l as [|x l IH]; intros n; cbn [foldl length];
    [lia |].
  rewrite IH. lia.
Qed.

Lemma countBy_get keys k :
  Coll.get k (countBy keys)
  = if decide (k ∈ keys) then Some (occurrences k keys) else None.
Proof.
  unfold countBy, bump.
  rewrite (foldl_upsert_get (λ x : K, x) 0 (λ (_ : K) (n : Z), n + 1)).
  cbn [Coll.get from_option id].
  destruct (decide (k ∈ keys)) as [Hin|Hn].
  - apply occurrences_pos in Hin. unfold occurrences in *.
    destruct (filter _ keys) as [|x l] eqn:E; [cbn in Hin; lia |].
    by rewrite count_steps.
  - destruct (filter _ keys) as [|x l] eqn:E; [done |].
    exfalso. apply Hn, occurrences_pos. unfold occurrences.
    rewrite E. cbn [length]. lia.
Qed.

Lemma countBy_NoDup keys : NoDup (countBy keys).*1.
Proof.
  unfold countBy, bump.
  apply (foldl_upsert_NoDup (λ x : K, x) 0 (λ (_ : K) (n : Z), n + 1)).
  constructor.
Qed.

(** The entries of the count map: the keys that occur, each with the
    number of its occurrences. *)
Lemma countBy_elem keys k n :
  (k, n) ∈ countBy keys ↔ k ∈ keys ∧ n = occurrences k keys.
Proof.
  split.
  - intros Hin. pose proof (get_elem _ _ _ (countBy_NoDup keys) Hin) as Hg.
    rewrite countBy_get in Hg. by destruct (decide (k ∈ keys)); simplify_eq.
  - intros [Hin ->]. apply get_Some_elem. rewrite countBy_get.
    by rewrite decide_True.
Qed.

Lemma countBy_total keys :
  total snd (countBy keys) = Z.of_nat (length keys).
Proof.
  unfold countBy.
  enough (∀ m : list (K * Z),
            total snd (foldl (λ m k, bump k m) m keys)
            = total snd m + Z.of_nat (length keys)) as H by (by rewrite H).
  induction keys as [|k keys IH]; intros m; cbn [foldl length]; [lia |].
  rewrite IH. unfold bump.
  pose proof (total_upsert (λ n : Z, n) 1 k 0 (λ n, n + 1) m
                eq_refl (λ v, eq_refl)) as Hu.
  cbn beta in Hu. change (λ p : K * Z, p.2) with (@snd K Z) in Hu.
  rewrite Hu. lia.
Qed.

Lemma countBy_positive keys k n : (k, n) ∈ countBy keys → 0 < n.
Proof. intros [Hin ->]%countBy_elem. by apply occurrences_pos. Qed.
End CounterFacts.

(** ** The order of the entries: first occurrence *)

Section FirstSeen.
Import TableSpec.
Context {K V A : Type} `{EqDecision K}.
Implicit Types (m : list (K * V)) (k : K).

Lemma filter_ext_elem (P Q : K → Prop) `{∀ x, Decision (P x)}
    `{∀ x, Decision (Q x)} (l : list K) :
  (∀ x, x ∈ l → (P x ↔ Q x)) → filter P l = filter Q l.
Proof.
  induction l as [|x l IH]; intros Hl; [done |].
  rewrite !filter_cons, IH by (intros; apply Hl; by right).
  destruct (decide (P x)) as [HP|HP], (decide (Q x)) as [HQ|HQ];
    try done; exfalso; apply (Hl x) in HP || apply (Hl x) in HQ;
    try done; by left.
Qed.

Lemma elem_of_firstSeen (l : list K) k : k ∈ firstSeen l ↔ k ∈ l.
Proof.
  induction l as [|x l IH]; cbn [firstSeen]; [done |].
  rewrite !elem_of_cons, list_elem_of_filter, IH.
  destruct (decide (k = x)); naive_solver.
Qed.

Lemma NoDup_firstSeen (l : list K) : NoDup (firstSeen l).
Proof.
  induction l as [|x l IH]; cbn [firstSeen]; constructor.
  - intros [? _]%list_elem_of_filter. done.
  - by apply NoDup_filter.
Qed.

Lemma foldl_upsert_keys_from (key : A → K) (init : A → V)
    (step : A → V → V) (rows : list A) m :
  (foldl (λ m e, Coll.upsert (key e) (init e) (step e) m) m rows).*1
  = m.*1 ++ filter (λ k, k ∉ m.*1) (firstSeen (key <$> rows)).
Proof.
  revert m. induction rows as [|e rows IH]; intros m; cbn [foldl].
  - rewrite fmap_nil. cbn [firstSeen]. by rewrite filter_nil, app_nil_r.
  - rewrite IH, upsert_keys, fmap_cons. cbn [firstSeen].
    rewrite (filter_cons _ (key e)).
    destruct (decide (key e ∈ m.*1)) as [Hin|Hn].
    + rewrite decide_False by (intros Hc; by apply Hc).
      f_equal. rewrite list_filter_filter.
      apply filter_ext_elem. intros x _. split; [| by intros [? _]].
      intros Hx. split; [done |]. intros ->. done.
    + rewrite decide_True by done. rewrite <- app_assoc. cbn [app].
      do 2 f_equal. rewrite list_filter_filter.
      apply filter_ext_elem. intros x _.
      rewrite not_elem_of_app, list_elem_of_singleton. tauto.
Qed.

(** The keys of a map filled by one pass come in the order of their first
    row. *)
Lemma foldl_upsert_keys_firstSeen (key : A → K) (init : A → V)
    (step : A → V → V) (rows : list A) :
  (foldl (λ m e, Coll.upsert (key e) (init e) (step e) m) [] rows).*1
  = firstSeen (key <$> rows).
Proof.
  rewrite foldl_upsert_keys_from. cbn [fmap list_fmap app].
  induction (firstSeen _) as [|x l IH]; [done |].
  rewrite filter_cons, decide_True by (by intros ?%elem_of_nil).
  by rewrite IH.
Qed.

Lemma entries_of_get (g : K → V) m :
  NoDup m.*1 → (∀ k, k ∈ m.*1 → Coll.get k m = Some (g k)) →
  m = (λ k, (k, g k)) <$> m.*1.
Proof.
  intros Hnd Hg.
  assert (Hall : ∀ k v, (k, v) ∈ m → v = g k).
  { intros k v Hin. pose proof (get_elem _ _ _ Hnd Hin) as Hget.
    rewrite Hg in Hget; [congruence |].
    apply list_elem_of_fmap. by exists (k, v). }
  clear Hnd Hg. induction m as [|[k v] m IH]; [done |].
  rewrite !fmap_cons. cbn [fst]. f_equal.
  - f_equal. apply Hall. by left.
  - apply IH. intros k' v' Hin. apply Hall. by right.
Qed.
End FirstSeen.

(** ** The last rows of a list in ascending order *)

Section LastRows.
Context {A : Type}.

Lemma slice_last_fmap {B} (f : A → B) n (l : list A) :
  Coll.slice_last n (f <$> l) = f <$> Coll.slice_last n l.
Proof. unfold Coll.slice_last. by rewrite fmap_drop, length_fmap. Qed.

Lemma slice_last_length n (l : list A) :
  (length (Coll.slice_last n l) ≤ n)%nat.
Proof. unfold Coll.slice_last. rewrite length_drop. lia. Qed.

Lemma slice_last_ascending (R : A → A → Prop) n (l : list A) :
  StronglySorted R l →
  StronglySorted R (Coll.slice_last n l)
  ∧ (∀ x, x ∈ l → x ∉ Coll.slice_last n l →
          length (Coll.slice_last n l) = n
          ∧ ∀ y, y ∈ Coll.slice_last n l → R x y).
Proof.
  unfold Coll.slice_last. intros Hs.
  rewrite <- (take_drop (length l - n) l) in Hs at 1.
  split; [by eapply StronglySorted_app_1_r |].
  intros x Hx Hn.
  rewrite <- (take_drop (length l - n) l) in Hx.
  apply elem_of_app in Hx as [Hx|Hx]; [| done].
  split.
  - rewrite length_drop.
    assert (length l - n ≠ 0)%nat; [| lia].
    intros E. rewrite E in Hx. by apply elem_of_nil in Hx.
  - intros y Hy. exact (StronglySorted_app_1_elem_of _ _ _ _ _ Hs Hx Hy).
Qed.

Lemma sorted_impl (R R' : A → A → Prop) (l : list A) :
  (∀ a b, R a b → R' a b) → StronglySorted R l → StronglySorted R' l.
Proof.
  intros HR. induction 1 as [|x l Hl IH Hx]; constructor; [done |].
  eapply Forall_impl; [exact Hx | by intros; apply HR].
Qed.

Lemma reverse_sorted (R : A → A → Prop) (l : list A) :
  StronglySorted R l → StronglySorted (flip R) (reverse l).
Proof.
  induction 1 as [|x l Hl IH Hx]; [constructor |].
  rewrite reverse_cons.
  apply StronglySorted_app_2; [| done | repeat constructor].
  intros a b Ha ->%list_elem_of_singleton. unfold flip.
  rewrite Forall_forall in Hx. apply Hx. by apply elem_of_reverse.
Qed.
End LastRows.

(** ** The feature page: days, event breakdown, top users, stats *)

Section FeaturePage.
Import Calendar BucketSpec TableSpec FeatureTables.

Lemma Day_mono (t1 t2 : Z) : t1 ≤ t2 → Day t1 ≤ Day t2.
Proof. intros. unfold Day, msPerDay. by apply Z.div_le_mono. Qed.

Lemma dailyMap_keys (rows : list Event) :
  (Feature.dailyMap rows).*1 = firstSeen ((λ e, Day (received_at e)) <$> rows).
Proof.
  unfold Feature.dailyMap, Feature.addDaily, isoDate.
  exact (foldl_upsert_keys_firstSeen (λ e, Day (received_at e))
           (λ _, {| Feature.events := 0; Feature.users := ∅ |})
           (λ e day,
              {| Feature.events := Feature.events day + 1;
                 Feature.users := {[firebase_uid e]} ∪ Feature.users day |})
           rows).
Qed.

Lemma dailyMap_days (rows : list Event) (d : Z) :
  d ∈ (Feature.dailyMap rows).*1 ↔ rowsOfDay d rows ≠ [].
Proof.
  rewrite dailyMap_keys, elem_of_firstSeen, list_elem_of_fmap.
  unfold rowsOfDay. split.
  - intros (e & -> & Hin) E.
    assert (e ∈ filter (λ e', Day (received_at e') = Day (received_at e)) rows)
      as Hf by (by apply list_elem_of_filter).
    rewrite E in Hf. by apply elem_of_nil in Hf.
  - intros Hne. destruct (filter _ rows) as [|e l] eqn:E; [done |].
    assert (e ∈ filter (λ e', Day (received_at e') = d) rows) as Hf
      by (rewrite E; left).
    apply list_elem_of_filter in Hf as [<- ?]. by exists e.
Qed.

Lemma dailyMap_entries (rows : list Event) :
  Feature.dailyMap rows
  = (λ d, (d, {| Feature.events := Z.of_nat (length (rowsOfDay d rows));
                 Feature.users := uid_set (rowsOfDay d rows) |}))
      <$> (Feature.dailyMap rows).*1.
Proof.
  apply entries_of_get.
  - rewrite dailyMap_keys. apply NoDup_firstSeen.
  - intros d Hd%dailyMap_days. rewrite dailyMap_get.
    by destruct (rowsOfDay d rows).
Qed.

Lemma dailyMap_ascending (rows : list Event) :
  ascendingTime rows → StronglySorted Z.lt (Feature.dailyMap rows).*1.
Proof.
  intros Hs. unfold Feature.dailyMap, Feature.addDaily, isoDate.
  apply (foldl_upsert_keys_sorted Z.lt (λ e, Day (received_at e))
           (λ _, {| Feature.events := 0; Feature.users := ∅ |})
           (λ e day,
              {| Feature.events := Feature.events day + 1;
                 Feature.users := {[firebase_uid e]} ∪ Feature.users day |})).
  - constructor.
  - intros k e Hk. by apply elem_of_nil in Hk.
  - eapply sorted_impl; [| exact Hs].
    intros a b Hab%Day_mono. cbn. lia.
Qed.

Lemma dailyMap_descending (rows : list Event) :
  descendingTime rows →
  StronglySorted (flip Z.lt) (Feature.dailyMap rows).*1.
Proof.
  intros Hs. unfold Feature.dailyMap, Feature.addDaily, isoDate.
  apply (foldl_upsert_keys_sorted (flip Z.lt) (λ e, Day (received_at e))
           (λ _, {| Feature.events := 0; Feature.users := ∅ |})
           (λ e day,
              {| Feature.events := Feature.events day + 1;
                 Feature.users := {[firebase_uid e]} ∪ Feature.users day |})).
  - constructor.
  - intros k e Hk. by apply elem_of_nil in Hk.
  - eapply sorted_impl; [| exact Hs].
    intros a b Hab%Day_mono. unfold flip. cbn. lia.
Qed.

(** The last [n] of the days in ascending order are the latest days. *)
Lemma slice_last_latestDays (n : nat) (rows : list Event) (keys : list Z) :
  StronglySorted Z.lt keys →
  (∀ d, d ∈ keys ↔ rowsOfDay d rows ≠ []) →
  latestDays n rows (Coll.slice_last n keys).
Proof.
  intros Hs Hk. destruct (slice_last_ascending Z.lt n keys Hs) as [H1 H2].
  split; [done |]. split; [apply slice_last_length |]. split.
  - intros d Hd%slice_last_elem. by apply Hk.
  - intros d Hd Hn. apply H2; [by apply Hk | done].
Qed.

(** X1 — feature page, daily chart.  When the rows come in ascending
    order of their timestamps, as the query returns them, the chart shows
    the latest days that have rows, at most 14, the oldest first, each
    with the number of its rows and of its unique users. *)
Theorem feature_daily_latest_days (tz : Z) (rows : list Event) :
  ascendingTime rows →
  ∃ days : list Z,
    latestDays 14 rows days
    ∧ Feature.daily tz rows = featureDay tz rows <$> days.
Proof.
  intros Hs. exists (Coll.slice_last 14 (Feature.dailyMap rows).*1). split.
  - apply slice_last_latestDays; [by apply dailyMap_ascending |].
    apply dailyMap_days.
  - unfold Feature.daily. rewrite dailyMap_entries at 1.
    rewrite <- list_fmap_compose, slice_last_fmap. done.
Qed.

Lemma feature_daily_latest_days_witness :
  ∃ days : list Z,
    latestDays 14 one_week days
    ∧ Feature.daily 0 one_week = featureDay 0 one_week <$> days.
Proof.
  apply (feature_daily_latest_days 0 one_week).
  unfold ascendingTime, one_week.
  repeat (constructor; [| repeat (constructor; [cbn; unfold msPerDay; lia |]);
                          constructor]).
  constructor.
Defined.

(** *** Event breakdown *)

Lemma event_bucket (l : list Event) (v : EventEntry) :
  foldl (λ ev e, {| count := count ev + 1;
                    users := {[firebase_uid e]} ∪ users ev |}) v l
  = {| count := count v + Z.of_nat (length l);
       users := uid_set l ∪ users v |}.
Proof.
  revert v. induction l as [|e l IH]; intros v; cbn [foldl].
  - destruct v. unfold uid_set. cbn.
    f_equal; [lia | set_solver].
  - rewrite IH, uid_set_cons. cbn [count users length].
    f_equal; [lia | set_solver].
Qed.

Lemma eventMap_keys (rows : list Event) :
  (eventMap rows).*1 = firstSeen (event_name <$> rows).
Proof.
  unfold eventMap, addEvent.
  exact (foldl_upsert_keys_firstSeen event_name
           (λ _, {| count := 0; users := ∅ |})
           (λ e ev, {| count := count ev + 1;
                       users := {[firebase_uid e]} ∪ users ev |}) rows).
Qed.

Lemma eventMap_entries (rows : list Event) :
  eventMap rows
  = (λ ev, (ev, {| count := Z.of_nat (length (named ev rows));
                   users := uid_set (named ev rows) |}))
      <$> firstSeen (event_name <$> rows).
Proof.
  rewrite <- eventMap_keys. apply entries_of_get.
  - rewrite eventMap_keys. apply NoDup_firstSeen.
  - intros ev Hev. rewrite eventMap_keys, elem_of_firstSeen in Hev.
    unfold eventMap, addEvent.
    rewrite (foldl_upsert_get event_name {| count := 0; users := ∅ |}
               (λ e ev, {| count := count ev + 1;
                           users := {[firebase_uid e]} ∪ users ev |})).
    fold (named ev rows).
    destruct (named ev rows) as [|e l] eqn:E.
    + exfalso. apply list_elem_of_fmap in Hev as (e & -> & Hin).
      assert (e ∈ named (event_name e) rows) as Hf
        by (by apply list_elem_of_filter).
      rewrite E in Hf. by apply elem_of_nil in Hf.
    + rewrite event_bucket. cbn [Coll.get from_option id count users].
      f_equal. f_equal; try lia; set_solver.
Qed.

Lemma eventMap_total (rows : list Event) :
  total (λ p, count p.2) (eventMap rows) = Z.of_nat (length rows).
Proof.
  unfold eventMap.
  enough (∀ m, total (λ p, count p.2) (foldl addEvent m rows)
               = total (λ p, count p.2) m + Z.of_nat (length rows)) as H
    by (by rewrite H).
  induction rows as [|e rows IH]; intros m; cbn [foldl length]; [lia |].
  rewrite IH. unfold addEvent.
  rewrite (total_upsert count 1) by done. lia.
Qed.

(** X2 — feature page, event breakdown.  The table has one row per event
    name that occurs, with the number of its rows and of its unique users;
    the rows are sorted by count, the largest first, names with the same
    count in the order of their first row; the counts add up to the
    number of rows. *)
Theorem breakdown_rows (rows : list Event) :
  sortedDescending e_count
    (eventRow rows <$> firstSeen (event_name <$> rows)) (breakdown rows)
  ∧ total e_count (breakdown rows) = Z.of_nat (length rows).
Proof.
  assert (E : breakdownRow <$> eventMap rows
              = eventRow rows <$> firstSeen (event_name <$> rows)).
  { rewrite eventMap_entries at 1. by rewrite <- list_fmap_compose. }
  unfold breakdown. rewrite E. split; [apply sort_by_descending |].
  rewrite (total_perm _ _ _ (sort_by_perm _ _)), <- E, total_fmap.
  apply eventMap_total.
Qed.

(** *** Top users *)

Lemma user_bucket (l : list Event) (v : UserEntry) :
  foldl (λ user e,
           {| events := events user + 1;
              lastSeen := if lastSeen user <? received_at e
                          then received_at e else lastSeen user |}) v l
  = {| events := events v + Z.of_nat (length l);
       lastSeen := foldl Z.max (lastSeen v) (received_at <$> l) |}.
Proof.
  revert v. induction l as [|e l IH]; intros v; cbn [foldl].
  - destruct v. cbn. f_equal. lia.
  - rewrite IH. cbn [events lastSeen length fmap list_fmap foldl].
    f_equal; [lia |]. f_equal.
    destruct (lastSeen v <? received_at e) eqn:E;
      [apply Z.ltb_lt in E | apply Z.ltb_ge in E]; lia.
Qed.

Lemma userMap_keys (rows : list Event) :
  (userMap rows).*1 = firstSeen (firebase_uid <$> rows).
Proof.
  unfold userMap, addUser.
  exact (foldl_upsert_keys_firstSeen firebase_uid
           (λ e, {| events := 0; lastSeen := received_at e |})
           (λ e user,
              {| events := events user + 1;
                 lastSeen := if lastSeen user <? received_at e
                             then received_at e else lastSeen user |})
           rows).
Qed.

Lemma foldl_max_ge (l : list Z) (a : Z) :
  a ≤ foldl Z.max a l ∧ ∀ x, x ∈ l → x ≤ foldl Z.max a l.
Proof.
  revert a. induction l as [|y l IH]; intros a; cbn [foldl].
  - split; [lia | by intros x ?%elem_of_nil].
  - destruct (IH (Z.max a y)) as [H1 H2]. split; [lia |].
    intros x [->|Hx]%elem_of_cons; [lia | by apply H2].
Qed.

Lemma foldl_max_elem (l : list Z) (a : Z) :
  foldl Z.max a l = a ∨ foldl Z.max a l ∈ l.
Proof.
  revert a. induction l as [|y l IH]; intros a; cbn [foldl]; [by left |].
  destruct (IH (Z.max a y)) as [E|Hin].
  - rewrite E. destruct (Z.max_spec a y) as [[_ ->]|[_ ->]];
      [right; left | by left].
  - right. by right.
Qed.

Lemma latest_ge (l : list Event) (e : Event) :
  e ∈ l → received_at e ≤ latest l.
Proof.
  destruct l as [|e0 l]; [by intros ?%elem_of_nil |]. cbn [latest].
  destruct (foldl_max_ge (received_at <$> l) (received_at e0)) as [H1 H2].
  intros [->|Hin]%elem_of_cons; [done |].
  apply H2, list_elem_of_fmap. by exists e.
Qed.

Lemma latest_elem (l : list Event) :
  l ≠ [] → ∃ e, e ∈ l ∧ received_at e = latest l.
Proof.
  destruct l as [|e0 l]; [done |]. intros _. cbn [latest].
  destruct (foldl_max_elem (received_at <$> l) (received_at e0))
    as [E|Hin].
  - exists e0. split; [by left | done].
  - apply list_elem_of_fmap in Hin as (e & E & Hin).
    exists e. split; [by right | done].
Qed.

Lemma userMap_rows (rows : list Event) :
  userMap rows
  = (λ u, (u, userEntry rows u)) <$> firstSeen (firebase_uid <$> rows).
Proof.
  rewrite <- userMap_keys. apply entries_of_get.
  - rewrite userMap_keys. apply NoDup_firstSeen.
  - intros u Hu. rewrite userMap_keys, elem_of_firstSeen in Hu.
    unfold userMap, addUser.
    rewrite (foldl_upsert_get_dep firebase_uid
               (λ e, {| events := 0; lastSeen := received_at e |})
               (λ e user,
                  {| events := events user + 1;
                     lastSeen := if lastSeen user <? received_at e
                                 then received_at e else lastSeen user |})).
    unfold userEntry, rowsOfUser.
    destruct (filter _ rows) as [|e l] eqn:E.
    + exfalso. apply list_elem_of_fmap in Hu as (e & -> & Hin).
      assert (e ∈ filter (λ e', firebase_uid e' = firebase_uid e) rows)
        as Hf by (by apply list_elem_of_filter).
      rewrite E in Hf. by apply elem_of_nil in Hf.
    + rewrite user_bucket.
      cbn [Coll.get from_option id events lastSeen latest length fmap
           list_fmap foldl].
      by rewrite Z.max_id, Z.add_0_l.
Qed.

(** X3 — feature page, [userMap].  The map has one entry per user, in the
    order of their first row; the entry holds the number of the user's
    rows and the latest of their timestamps, in whatever order the rows
    come. *)
Theorem userMap_entries (rows : list Event) :
  userMap rows
  = (λ u, (u, userEntry rows u)) <$> firstSeen (firebase_uid <$> rows)
  ∧ ∀ e, e ∈ rows →
         let mine := rowsOfUser (firebase_uid e) rows in
         received_at e ≤ latest mine
         ∧ ∃ e', e' ∈ mine ∧ received_at e' = latest mine.
Proof.
  split; [apply userMap_rows |]. intros e He mine.
  assert (e ∈ mine) as Hin by (by apply list_elem_of_filter).
  split; [by apply latest_ge |].
  apply latest_elem. intros E. rewrite E in Hin. by apply elem_of_nil in Hin.
Qed.

(** *** Rows as the store returns them *)

Lemma upsert_key_fmap {K K' V} `{EqDecision K, EqDecision K'}
    (g : K → K') `{!Inj (=) (=) g} (k : K) (init : V) (f : V → V)
    (m : list (K * V)) :
  Coll.upsert (g k) init f ((λ p, (g p.1, p.2)) <$> m)
  = (λ p, (g p.1, p.2)) <$> Coll.upsert k init f m.
Proof.
  induction m as [|[k0 v0] m IH]; cbn [Coll.upsert fmap list_fmap fst snd];
    [done |].
  destruct (decide (k0 = k)) as [->|Hne].
  - by rewrite decide_True.
  - rewrite decide_False by (by intros ?%(inj g)).
    cbn [fmap list_fmap fst snd] in *. by rewrite IH.
Qed.

Lemma readRows_None (rows : list Users.RawEvent) :
  readRows rows = None
  ↔ ∃ e, e ∈ rows ∧ Users.raw_received_at e = None.
Proof.
  unfold readRows. rewrite mapM_None, Exists_exists.
  split; intros (e & He & H); exists e; (split; [done |]);
    unfold readRow in *; by destruct (Users.raw_received_at e).
Qed.

Lemma readRows_users (rows : list Users.RawEvent) (read : list Row) :
  readRows rows = Some read →
  r_firebase_uid <$> read = Users.raw_firebase_uid <$> rows.
Proof.
  intros H%mapM_Some_1.
  induction H as [|e r rows read He _ IH]; [done |].
  rewrite !fmap_cons, IH. f_equal. unfold readRow in He.
  destruct (Users.raw_received_at e); [| done].
  by injection He as <-.
Qed.

Lemma readRows_complete (rows : list Event) :
  readRows (Users.raw <$> rows) = Some (complete <$> rows).
Proof.
  unfold readRows. apply mapM_Some_2.
  induction rows as [|e rows IH]; [constructor |].
  rewrite !fmap_cons. by constructor.
Qed.

Lemma userMapOf_keys (read : list Row) :
  (userMapOf read).*1 = firstSeen (r_firebase_uid <$> read).
Proof.
  unfold userMapOf, addRow.
  exact (foldl_upsert_keys_firstSeen r_firebase_uid
           (λ r, {| events := 0; lastSeen := r_received_at r |})
           (λ r user,
              {| events := events user + 1;
                 lastSeen := if lastSeen user <? r_received_at r
                             then r_received_at r else lastSeen user |})
           read).
Qed.

Lemma userMapOf_complete (rows : list Event) :
  userMapOf (complete <$> rows)
  = (λ p, (Some p.1, p.2)) <$> userMap rows.
Proof.
  unfold userMapOf, userMap.
  change (@nil (option string * UserEntry))
    with ((λ p : string * UserEntry, (Some p.1, p.2)) <$> []).
  generalize (@nil (string * UserEntry)).
  induction rows as [|e rows IH]; intros m; [done |].
  rewrite fmap_cons. cbn [foldl]. rewrite <- IH. f_equal.
  unfold addRow, addUser. cbn [complete r_firebase_uid r_received_at].
  apply (upsert_key_fmap Some).
Qed.

Lemma userDataOf_None (tz : Z) (m : list (option string * UserEntry)) :
  mapM (userDataOf tz) m = None ↔ None ∈ m.*1.
Proof.
  rewrite mapM_None, Exists_exists, list_elem_of_fmap. split.
  - intros ([[u|] v] & Hin & H); [done |]. by exists (None, v).
  - intros ([[u|] v] & Hk & Hin); [done |]. by exists (None, v).
Qed.

Lemma userDataOf_complete (tz : Z) (m : list (string * UserEntry)) :
  mapM (userDataOf tz) ((λ p, (Some p.1, p.2)) <$> m)
  = Some (userRow tz <$> m).
Proof.
  apply mapM_Some_2. induction m as [|[u v] m IH]; [constructor |].
  rewrite !fmap_cons. by constructor.
Qed.

Lemma topUsersPass_None (tz : Z) (rows : list Users.RawEvent) :
  topUsersPass tz rows = None
  ↔ ∃ e, e ∈ rows ∧ (Users.raw_received_at e = None
                     ∨ Users.raw_firebase_uid e = None).
Proof.
  unfold topUsersPass.
  destruct (readRows rows) as [read|] eqn:E; cbn [mbind option_bind].
  - destruct (mapM (userDataOf tz) (userMapOf read)) as [users|] eqn:M;
      cbn [mbind option_bind].
    + split; [done |]. intros (e & He & [Ht|Hu]).
      * assert (readRows rows = None) by (apply readRows_None; eauto).
        congruence.
      * assert (mapM (userDataOf tz) (userMapOf read) = None);
          [| congruence].
        apply userDataOf_None.
        rewrite userMapOf_keys, elem_of_firstSeen, (readRows_users _ _ E).
        apply list_elem_of_fmap. by exists e.
    + split; [| done]. intros _. apply userDataOf_None in M.
      rewrite userMapOf_keys, elem_of_firstSeen, (readRows_users _ _ E) in M.
      apply list_elem_of_fmap in M as (e & Hn & He). exists e. auto.
  - split; [| done]. intros _.
    apply readRows_None in E as (e & ? & ?). exists e. auto.
Qed.

Lemma topUsersPass_complete (tz : Z) (rows : list Event) :
  topUsersPass tz (Users.raw <$> rows) = Some (topUsers tz rows).
Proof.
  unfold topUsersPass. rewrite readRows_complete. cbn [mbind option_bind].
  by rewrite userMapOf_complete, userDataOf_complete.
Qed.

(** X4 — feature page, top users.  The pass throws before it sets the
    table exactly when a row of the store has no timestamp or no user.
    On rows that all have both, the table shows at most ten users, the
    ones with the most rows first; a user who is left out has no more
    rows than any user shown. *)
Theorem topUsers_top_ten (tz : Z) :
  (∀ rows : list Users.RawEvent,
      topUsersPass tz rows = None
      ↔ ∃ e, e ∈ rows ∧ (Users.raw_received_at e = None
                         ∨ Users.raw_firebase_uid e = None))
  ∧ ∀ rows : list Event,
      topUsersPass tz (Users.raw <$> rows) = Some (topUsers tz rows)
      ∧ topOf u_events 10
          (userRowOf tz rows <$> firstSeen (firebase_uid <$> rows))
          (topUsers tz rows).
Proof.
  split; [apply topUsersPass_None |]. intros rows.
  split; [apply topUsersPass_complete |].
  unfold topUsers. apply topOf_take.
  rewrite userMap_rows, <- list_fmap_compose.
  apply sort_by_descending.
Qed.

(** *** Stats *)

Lemma size_uid_set_le (rows : list Event) :
  size_Z (uid_set rows) ≤ Z.of_nat (length rows).
Proof.
  unfold size_Z. induction rows as [|e rows IH].
  - unfold uid_set. cbn. rewrite size_empty. lia.
  - rewrite uid_set_cons. cbn [length].
    pose proof (size_union_alt ({[firebase_uid e]} : gset string)
                  (uid_set rows)) as Hu.
    rewrite size_singleton in Hu.
    assert (uid_set rows ∖ {[firebase_uid e]} ⊆ uid_set rows) as Hsub
      by set_solver.
    apply subseteq_size in Hsub. lia.
Qed.

Lemma uid_set_nonempty (rows : list Event) :
  rows ≠ [] → 0 < size_Z (uid_set rows).
Proof.
  destruct rows as [|e rows]; [done |]. intros _.
  enough (size_Z (uid_set (e :: rows)) ≠ 0) by (unfold size_Z in *; lia).
  rewrite size_Z_zero_iff, uid_set_cons. set_solver.
Qed.

(** [Math.round(n / d)] in integer arithmetic. *)
Lemma round_div_closed_form (n d : Z) :
  0 < d → JS.round_div n d = JS.of_Z ((2 * n + d) / (2 * d)).
Proof.
  intros Hd. rewrite round_div_finite by lia. unfold JS.round. f_equal.
  destruct d as [|p|p]; try lia.
  unfold Qfloor, Qplus, Qdiv, Qmult, Qinv, inject_Z. cbn [Qnum Qden].
  f_equal; lia.
Qed.

Lemma size_some (X : gset string) :
  size (set_map (D := gset (option string)) Some X) = size X.
Proof.
  unfold set_map. rewrite size_list_to_set; [by rewrite length_fmap |].
  apply NoDup_fmap; [intros ?? [=]; done | apply NoDup_elements].
Qed.

Lemma statsPass_complete (prev : Stats) (tz now : Z) (rows : list Event) :
  statsPass prev tz now (Users.raw <$> rows) = stats tz now rows.
Proof.
  unfold statsPass, stats. rewrite topUsersPass_complete.
  assert (size_Z (list_to_set (Users.raw_firebase_uid <$> (Users.raw <$> rows))
                  : gset (option string))
          = size_Z (uid_set rows)) as ->.
  { unfold size_Z. f_equal. rewrite <- size_some. f_equal.
    apply set_eq. intros u. unfold uid_set.
    rewrite elem_of_map, elem_of_list_to_set, <- list_fmap_compose,
      list_elem_of_fmap.
    setoid_rewrite elem_of_list_to_set.
    setoid_rewrite list_elem_of_fmap. naive_solver. }
  rewrite length_fmap. unfold Feature.avgPerUser. cbn zeta.
  f_equal. rewrite filter_fmap_comm, length_fmap. do 2 f_equal.
  apply filter_ext_elem. intros e _. cbn. split; [by intros [=] | by intros ->].
Qed.

(** X5 — feature page, stats.  When a row of the store has no timestamp
    or no user, the pass throws before it sets the stats, which keep the
    values they had.  On rows that all have both: today's events and the
    unique users never exceed the total; without rows the average per
    user is 0, and with rows it is a whole number between 1 and the
    number of rows. *)
Theorem feature_stats_bounds (prev : Stats) (tz now : Z) :
  (∀ rows : list Users.RawEvent,
      (∃ e, e ∈ rows ∧ (Users.raw_received_at e = None
                        ∨ Users.raw_firebase_uid e = None)) →
      statsPass prev tz now rows = prev)
  ∧ ∀ rows : list Event,
      let s := statsPass prev tz now (Users.raw <$> rows) in
      s = stats tz now rows
      ∧ 0 ≤ todayEvents s ≤ totalEvents s
      ∧ 0 ≤ uniqueUsers s ≤ totalEvents s
      ∧ (rows = [] → avgPerUser s = JS.Fin 0)
      ∧ (rows ≠ [] →
         1 ≤ uniqueUsers s
         ∧ ∃ k : Z, avgPerUser s = JS.Fin (inject_Z k)
                    ∧ 1 ≤ k ≤ totalEvents s).
Proof.
  split.
  { intros rows Hnull. unfold statsPass.
    by rewrite (proj2 (topUsersPass_None tz rows) Hnull). }
  intros rows. cbn zeta. rewrite statsPass_complete.
  split; [done |]. unfold stats.
  cbn [todayEvents totalEvents uniqueUsers avgPerUser].
  pose proof (size_uid_set_le rows) as Hle.
  split; [| split; [| split]].
  - split; [lia |]. apply inj_le, length_filter.
  - split; [unfold size_Z; lia | done].
  - intros ->. done.
  - intros Hne. pose proof (uid_set_nonempty rows Hne) as Hpos.
    split; [lia |]. unfold Feature.avgPerUser.
    destruct (0 <? size_Z (uid_set rows)) eqn:E;
      [| apply Z.ltb_ge in E; lia].
    rewrite round_div_closed_form by done.
    eexists. split; [reflexivity |].
    set (n := Z.of_nat (length rows)) in *.
    set (d := size_Z (uid_set rows)) in *. clearbody n d.
    split.
    + apply Z.div_le_lower_bound; lia.
    + enough ((2 * n + d) / (2 * d) < n + 1) by lia.
      apply Z.div_lt_upper_bound; nia.
Qed.
End FeaturePage.

(** ** The onboarding page: the funnel as a whole, demo lists, rates *)

Section FunnelFacts.
Import Onboarding OnboardingSpec TableSpec FunnelSpec.

Lemma funnelStep_users m steps i s :
  users (funnelStep m steps i s) = stepUsers m s.
Proof. done. Qed.

Lemma funnelStep_first m steps s : dropoff (funnelStep m steps 0 s) = 0.
Proof. done. Qed.

Lemma funnelStep_next m steps i p s :
  steps !! i = Some p →
  dropoff (funnelStep m steps (S i) s) = stepUsers m p - stepUsers m s.
Proof.
  intros Hp. unfold funnelStep. replace (S i - 1)%nat with i by lia.
  rewrite Hp. done.
Qed.

Lemma buildFunnel_lookup events steps i row :
  buildFunnel events steps !! i = Some row →
  ∃ s, steps !! i = Some s
       ∧ row = funnelStep (eventCounts steps events) steps i s.
Proof.
  unfold buildFunnel. rewrite list_lookup_imap.
  destruct (steps !! i) as [s|]; [| done].
  intros [= <-]. by exists s.
Qed.

Lemma funnel_prefix_total m (l rest : list Step) :
  total dropoff (imap (funnelStep m (l ++ rest)) l)
  = default 0 (head (stepUsers m <$> l))
    - default 0 (last (stepUsers m <$> l)).
Proof.
  revert rest. induction l as [|s l IH] using rev_ind; intros rest;
    [done |].
  rewrite imap_app, total_app, fmap_app, list_fmap_singleton, last_snoc.
  cbn [imap total foldr from_option id].
  rewrite <- app_assoc. rewrite IH. rewrite Nat.add_0_r.
  destruct l as [|p l _] using rev_ind.
  - cbn. unfold stepUsers. lia.
  - rewrite fmap_app, list_fmap_singleton, last_snoc, length_app.
    cbn [length].
    replace (length l + 1)%nat with (S (length l)) by lia.
    rewrite (funnelStep_next _ _ _ p).
    + cbn [from_option id fmap list_fmap].
      destruct l; cbn; lia.
    + rewrite <- !app_assoc. cbn [app]. by rewrite list_lookup_middle.
Qed.

(** X6 — onboarding page, funnel.  The drop-offs of the funnel add up to
    the users of the first step minus the users of the last step. *)
Theorem funnel_dropoffs_telescope (events : list Event)
    (steps : list Step) :
  let rows := buildFunnel events steps in
  total dropoff rows
  = default 0 (head (users <$> rows)) - default 0 (last (users <$> rows)).
Proof.
  cbn zeta. unfold buildFunnel.
  pose proof (funnel_prefix_total (eventCounts steps events) steps [])
    as H.
  rewrite app_nil_r in H. rewrite H.
  replace (users <$> imap (funnelStep (eventCounts steps events) steps)
                          steps)
    with (stepUsers (eventCounts steps events) <$> steps); [done |].
  rewrite fmap_imap. rewrite <- (imap_const (stepUsers _)). done.
Qed.

Lemma getData_step events steps s :
  s ∈ steps →
  getData (eventCounts steps events) (event s)
  = {| count := eventCount events (event s);
       step_users := uid_set (named (event s) events) |}.
Proof.
  intros Hs. apply eventCounts_lookup, list_elem_of_fmap. by exists s.
Qed.

(** X7 — onboarding page, funnel.  The funnel depends on the rows of each
    configured step only, not on their order and not on rows of other
    events: two inputs whose rows agree step by step, up to order, give
    the same funnel. *)
Theorem funnel_depends_on_step_rows (events events' : list Event)
    (steps : list Step) :
  (∀ ev, ev ∈ event <$> steps → named ev events ≡ₚ named ev events') →
  buildFunnel events steps = buildFunnel events' steps.
Proof.
  intros Hp. unfold buildFunnel. apply imap_ext. intros i s Hs.
  assert (Hdata : ∀ s', s' ∈ steps →
            getData (eventCounts steps events) (event s')
            = getData (eventCounts steps events') (event s')).
  { intros s' Hs'. rewrite !getData_step by done.
    assert (named (event s') events ≡ₚ named (event s') events') as Hperm.
    { apply Hp, list_elem_of_fmap. by exists s'. }
    unfold eventCount, uid_set. by rewrite Hperm. }
  unfold funnelStep.
  rewrite (Hdata s) by (by eapply list_elem_of_lookup_2).
  destruct (0 <? i)%nat; [| done].
  destruct (steps !! (i - 1)%nat) as [p|] eqn:Ep; [| done].
  cbn [fmap option_fmap option_map].
  rewrite (Hdata p) by (by eapply list_elem_of_lookup_2). done.
Qed.

Lemma funnel_depends_on_step_rows_witness :
  buildFunnel example_events example_steps
  = buildFunnel
      ({| received_at := 5; firebase_uid := "C";
          event_name := "app_launch"; props := None |}
       :: reverse example_events)
      example_steps.
Proof.
  apply funnel_depends_on_step_rows. intros ev Hev.
  cbn in Hev.
  apply elem_of_cons in Hev as [->|Hev];
    [| apply elem_of_cons in Hev as [->|Hev];
       [| by apply elem_of_nil in Hev]].
  - vm_compute. apply perm_swap.
  - vm_compute. reflexivity.
Defined.
End FunnelFacts.

(** ** The completion rate on three pages *)

Section CompletionRate.
Import OnboardingSpec.

Lemma eventCounts_get (steps : list Onboarding.Step) (events : list Event)
    (ev : string) :
  ev ∈ Onboarding.event <$> steps →
  Onboarding.eventCounts steps events !! ev
  = Some {| Onboarding.count := eventCount events ev;
            Onboarding.step_users := uid_set (named ev events) |}.
Proof.
  intros Hin. unfold Onboarding.eventCounts.
  rewrite (countEvent_fold _ _ _ Onboarding.empty_data)
    by (by apply initCounts_lookup).
  cbn [Onboarding.empty_data Onboarding.count Onboarding.step_users].
  f_equal. f_equal; try lia; set_solver.
Qed.

Lemma startedCompleted_from (rows : list Event) (st : gset string * gset string) :
  foldl (λ st e,
           (if decide (event_name e = "onboarding_started")
            then {[firebase_uid e]} ∪ st.1 else st.1,
            if decide (event_name e = "onboarding_completed")
            then {[firebase_uid e]} ∪ st.2 else st.2))
        st rows
  = (uid_set (named "onboarding_started" rows) ∪ st.1,
     uid_set (named "onboarding_completed" rows) ∪ st.2).
Proof.
  revert st. induction rows as [|e rows IH]; intros [s c]; cbn [foldl].
  - unfold uid_set, named. cbn. f_equal; set_solver.
  - rewrite IH, !named_cons. cbn [fst snd].
    destruct (decide (event_name e = "onboarding_started")),
             (decide (event_name e = "onboarding_completed"));
      rewrite ?uid_set_cons; f_equal; set_solver.
Qed.

(** X8 — the onboarding completion rate.  The onboarding page, the
    overview page and the users page compute the same rate from the same
    rows: completed users over started users, in percent. *)
Theorem completion_rate_agrees (rows : list Event) :
  Onboarding.overallRate (Onboarding.stats rows)
  = Dashboard.onboardingRate rows
  ∧ Dashboard.onboardingRate rows = Users.onboardingCompletionRate rows.
Proof.
  assert (E : Dashboard.onboardingRate rows
              = Users.onboardingCompletionRate rows).
  { unfold Dashboard.onboardingRate, Dashboard.startedCompleted,
      Users.onboardingCompletionRate, Users.onboardingStarted,
      Users.onboardingCompleted.
    rewrite startedCompleted_from. cbn [fst snd].
    by rewrite !(right_id_L ∅ (∪)). }
  split; [| done]. rewrite E.
  unfold Onboarding.stats, Onboarding.usersOrZero.
  cbn [Onboarding.overallRate].
  rewrite !eventCounts_get by (vm_compute; set_solver).
  done.
Qed.
End CompletionRate.

(** ** Demo lists *)

Section DemoLists.
Import TableSpec Counter DemoLists OnboardingSpec.

Lemma countBy_entries {K} `{EqDecision K} (keys : list K) :
  countBy keys = (λ k, (k, occurrences k keys)) <$> firstSeen keys.
Proof.
  assert (Hk : (countBy keys).*1 = firstSeen keys).
  { unfold countBy, bump.
    rewrite (foldl_upsert_keys_firstSeen (λ k : K, k) (λ _, 0)
               (λ _ n, n + 1) keys).
    by rewrite list_fmap_id. }
  rewrite <- Hk. apply entries_of_get; [apply countBy_NoDup |].
  intros k Hin. rewrite Hk, elem_of_firstSeen in Hin.
  rewrite countBy_get. by rewrite decide_True.
Qed.

Lemma byCountDesc_rows {K} `{EqDecision K} (keys : list K) :
  sortedDescending snd ((λ k, (k, occurrences k keys)) <$> firstSeen keys)
    (byCountDesc (countBy keys))
  ∧ total snd (byCountDesc (countBy keys)) = Z.of_nat (length keys).
Proof.
  unfold byCountDesc. split.
  - rewrite <- countBy_entries. apply (sort_by_descending snd).
  - rewrite (total_perm _ _ _ (sort_by_perm _ _)). apply countBy_total.
Qed.

Lemma demoLists_from (events : list Event) (m : list (string * Z)) :
  foldl addDemoList m events
  = foldl (λ m k, bump k m) m
      (omap listKey (named "demo_list_selected" events)).
Proof.
  revert m. induction events as [|e events IH]; intros m; [done |].
  cbn [foldl]. rewrite IH, named_cons. unfold addDemoList.
  destruct (decide (event_name e = "demo_list_selected")); [| done].
  cbn [omap list_omap]. by destruct (listKey e).
Qed.

Lemma demoLists_countBy (events : list Event) :
  demoLists events
  = countBy (omap listKey (named "demo_list_selected" events)).
Proof. apply demoLists_from. Qed.

Lemma length_omap_le {A B} (f : A → option B) (l : list A) :
  (length (omap f l) ≤ length l)%nat.
Proof.
  induction l as [|x l IH]; [done |]. cbn [omap list_omap].
  destruct (f x); cbn [length]; lia.
Qed.

(** X9 — onboarding page, demo lists.  The table has one row per list key
    chosen in a [demo_list_selected] event, with the number of such
    events; an event without a key (or with an empty one) is not counted.
    The rows are sorted by count, the largest first, and their counts add
    up to no more than the events of the funnel's fourth step. *)
Theorem demoListStats_rows (events : list Event) :
  let keys := omap listKey (named "demo_list_selected" events) in
  sortedDescending snd ((λ k, (k, occurrences k keys)) <$> firstSeen keys)
    (demoListStats events)
  ∧ total snd (demoListStats events) = Z.of_nat (length keys)
  ∧ ∃ row, Onboarding.funnel events !! 3%nat = Some row
           ∧ Onboarding.name row = "Demo List / Input"
           ∧ total snd (demoListStats events) ≤ Onboarding.value row.
Proof.
  cbn zeta. unfold demoListStats. rewrite demoLists_countBy.
  destruct (byCountDesc_rows
              (omap listKey (named "demo_list_selected" events)))
    as [H1 H2].
  split; [done |]. split; [done |]. rewrite H2.
  set (step := {| Onboarding.event := "demo_list_selected";
                  Onboarding.label := "Demo List / Input";
                  Onboarding.shortName := "Input";
                  Onboarding.color := "#D97706" |}).
  assert (Hs : Onboarding.ONBOARDING_STEPS !! 3%nat = Some step)
    by reflexivity.
  exists (Onboarding.funnelStep
            (Onboarding.eventCounts Onboarding.ONBOARDING_STEPS events)
            Onboarding.ONBOARDING_STEPS 3 step).
  split.
  { unfold Onboarding.funnel, Onboarding.buildFunnel.
    rewrite list_lookup_imap, Hs. reflexivity. }
  split; [reflexivity |].
  unfold Onboarding.funnelStep. cbn [Onboarding.value Onboarding.event step].
  rewrite (eventCounts_lookup Onboarding.ONBOARDING_STEPS events
             "demo_list_selected") by (vm_compute; set_solver).
  cbn [Onboarding.count]. unfold eventCount.
  apply inj_le, length_omap_le.
Qed.
End DemoLists.

(** ** One percentage, three displays *)

Section DropoffDisplays.
Import Onboarding OnboardingSpec.

Lemma transition_rows events steps j prev step :
  transition (buildFunnel events steps) j prev step →
  0 < users prev
  ∧ 0 ≤ users step
  ∧ dropoff step = users prev - users step
  ∧ dropoffPct step
    = JS.toFixed0 (JS.Fin (pctQ prev step)) +:+ "%".
Proof.
  intros (Hp & Hs & Hpos).
  apply buildFunnel_lookup in Hp as (p & Hp & ->).
  apply buildFunnel_lookup in Hs as (s & Hs & ->).
  set (m := eventCounts steps events) in *.
  rewrite funnelStep_users in Hpos.
  split; [by rewrite funnelStep_users |].
  split; [rewrite funnelStep_users; unfold FunnelSpec.stepUsers, size_Z; lia |].
  split; [by rewrite (funnelStep_next _ _ _ p), !funnelStep_users |].
  unfold pctQ.
  rewrite (funnelStep_next _ _ _ p), funnelStep_users by done.
  unfold funnelStep. replace (S j - 1)%nat with j by lia. rewrite Hp.
  cbn [Nat.ltb Nat.leb fmap option_fmap option_map dropoffPct].
  unfold FunnelSpec.stepUsers in *.
  destruct (0 <? size_Z (step_users (getData m (event p)))) eqn:E;
    [| apply Z.ltb_ge in E; lia].
  rewrite div_of_Z by lia. done.
Qed.

Lemma toFixed0_nonneg (q : Q) :
  (0 <= q)%Q →
  JS.toFixed0 (JS.Fin q) = pretty (Z.to_N (Qfloor (q + (1 # 2)))).
Proof.
  intros Hq. unfold JS.toFixed0, JS.toFixed0_magnitude.
  assert (JS.Qneg_bool q = false) as ->.
  { destruct (JS.Qneg_bool q) eqn:E; [| done].
    apply Qneg_bool_spec in E. lra. }
  match goal with |- "" +:+ ?a = ?b => change (a = b) end.
  do 2 f_equal. apply Qfloor_comp. rewrite Qabs_pos by done. reflexivity.
Qed.

Lemma no_users_no_text events steps j prev step :
  buildFunnel events steps !! j = Some prev →
  buildFunnel events steps !! S j = Some step →
  users prev = 0 →
  dropoffPct step = "" ∧ cardDropoffPct prev step = JS.of_Z 0.
Proof.
  intros Hp Hs Hz. split.
  - apply buildFunnel_lookup in Hp as (p & Hp & ->).
    apply buildFunnel_lookup in Hs as (s & Hs & ->).
    rewrite funnelStep_users in Hz. unfold FunnelSpec.stepUsers in Hz.
    unfold funnelStep. replace (S j - 1)%nat with j by lia. rewrite Hp.
    cbn [Nat.ltb Nat.leb fmap option_fmap option_map dropoffPct].
    by rewrite Hz.
  - unfold cardDropoffPct. by rewrite Hz.
Qed.

(** X10 — onboarding page, drop-off percentages.  For two rows of the
    funnel that follow each other: when the row in front has users and
    the step loses no fewer than zero of them, the text in the funnel and
    the number on the step card are the same whole number between 0 and
    100; when the row in front has no users, the text in the funnel is
    empty and the step card shows 0. *)
Theorem card_matches_funnel_text (events : list Event) (steps : list Step)
    (j : nat) (prev step : FunnelStep) :
  buildFunnel events steps !! j = Some prev →
  buildFunnel events steps !! S j = Some step →
  0 ≤ users prev
  ∧ (0 < users prev → 0 ≤ dropoff step →
     ∃ k : Z,
       0 ≤ k ≤ 100
       ∧ cardDropoffPct prev step = JS.of_Z k
       ∧ dropoffPct step = pretty (Z.to_N k) +:+ "%")
  ∧ (users prev = 0 →
     dropoffPct step = "" ∧ cardDropoffPct prev step = JS.of_Z 0).
Proof.
  intros Hp Hs. split.
  { apply buildFunnel_lookup in Hp as (p & _ & ->).
    rewrite funnelStep_users. unfold FunnelSpec.stepUsers, size_Z. lia. }
  split; [| by apply (no_users_no_text events steps j)].
  intros Hpos Hd.
  assert (Ht : transition (buildFunnel events steps) j prev step) by done.
  destruct (transition_rows _ _ _ _ _ Ht) as (_ & Hu & Hdrop & Htext).
  destruct (pct_range (dropoff step) (users prev)) as (k & Hk & Hr);
    [lia | done |].
  exists k. split; [done |]. unfold cardDropoffPct.
  destruct (0 <? users prev) eqn:E; [| apply Z.ltb_ge in E; lia].
  split; [done |]. rewrite Htext. f_equal.
  assert (0 <= pctQ prev step)%Q as Hq.
  { apply Qnot_lt_le. intros Hlt%Qneg_bool_spec. unfold pctQ in Hlt.
    rewrite transition_pct_sign in Hlt by done.
    apply Z.ltb_lt in Hlt. lia. }
  rewrite toFixed0_nonneg by done.
  rewrite pct_finite in Hk by lia.
  apply (f_equal (λ x, match x with JS.Fin q => Qnum q | _ => 0 end)) in Hk.
  unfold pctQ. cbn [JS.of_Z inject_Z Qnum] in Hk. by rewrite Hk.
Qed.

(** In the example one of two users is lost after the first step: 50 on
    the card and in the text.  Without events no row has users: the text
    is empty and the card shows 0. *)
Lemma card_matches_funnel_text_witness :
  (∃ prev step,
      buildFunnel example_events example_steps !! 0%nat = Some prev
      ∧ buildFunnel example_events example_steps !! 1%nat = Some step
      ∧ cardDropoffPct prev step = JS.of_Z 50
      ∧ dropoffPct step = "50%")
  ∧ (∃ prev step,
        buildFunnel [] example_steps !! 0%nat = Some prev
        ∧ buildFunnel [] example_steps !! 1%nat = Some step
        ∧ dropoffPct step = ""
        ∧ cardDropoffPct prev step = JS.of_Z 0).
Proof.
  split.
  - destruct (buildFunnel example_events example_steps !! 0%nat)
      as [prev|] eqn:Ep; [| by vm_compute in Ep].
    destruct (buildFunnel example_events example_steps !! 1%nat)
      as [step|] eqn:Es; [| by vm_compute in Es].
    destruct (card_matches_funnel_text _ _ _ _ _ Ep Es) as (_ & H & _).
    exists prev, step. split; [done |]. split; [done |].
    vm_compute in Ep, Es. injection Ep as <-. injection Es as <-.
    destruct H as (k & Hk & Hc & Hx); [by vm_compute | by vm_compute |].
    vm_compute in Hc. injection Hc as Hc. subst k. done.
  - destruct (buildFunnel [] example_steps !! 0%nat)
      as [prev|] eqn:Ep; [| by vm_compute in Ep].
    destruct (buildFunnel [] example_steps !! 1%nat)
      as [step|] eqn:Es; [| by vm_compute in Es].
    destruct (card_matches_funnel_text _ _ _ _ _ Ep Es) as (_ & _ & H).
    exists prev, step. split; [done |]. split; [done |].
    apply H. vm_compute in Ep. by injection Ep as <-.
Defined.

(** X11 — onboarding page, the headline drop-off.  The percentage in the
    headline is 0 with an empty label, or it is the number on the step
    card of the transition that the label names. *)
Theorem headline_matches_card (events : list Event) :
  let s := stats events in
  (s_biggestDropoff s = "" ∧ s_biggestDropoffPct s = JS.Fin 0)
  ∨ ∃ i prev step,
      transition (funnel events) i prev step
      ∧ s_biggestDropoff s = transitionLabel prev step
      ∧ s_biggestDropoffPct s = cardDropoffPct prev step.
Proof.
  cbn zeta. unfold stats. cbn [s_biggestDropoff s_biggestDropoffPct].
  destruct (scanned_all (funnel events))
    as [[-> _]|(i & prev & step & _ & Ht & _ & -> & _)].
  - left. done.
  - right. exists i, prev, step. split; [done |]. split; [done |].
    destruct Ht as (_ & _ & Hpos). unfold cardDropoffPct.
    destruct (0 <? users prev) eqn:E; [| apply Z.ltb_ge in E; lia].
    cbn [snd]. rewrite pct_finite by lia. done.
Qed.
End DropoffDisplays.

(** ** The labels of the days *)

Section DayLabels.
Import Calendar.

Lemma localDay_dateOfIso (tz d : Z) :
  (0 ≤ tz < msPerDay → localDay tz (dateOfIso d) = d)
  ∧ (- msPerDay ≤ tz < 0 → localDay tz (dateOfIso d) = d - 1).
Proof.
  unfold localDay, dateOfIso, Day, msPerDay. split; intros; div_lia.
Qed.

(** X12 — the daily charts of all four pages.  A day is labelled with the
    local date of its UTC midnight: in a zone at or east of UTC (less
    than a day ahead) the label is the date of the day itself, in a zone
    west of UTC it is the date of the day before. *)
Theorem day_label_follows_zone (tz d : Z) (rows : list Event)
    (o : Onboarding.DayData) (u : Users.DayData) (f : Feature.DayData) :
  - msPerDay ≤ tz < msPerDay →
  let shown := if 0 <=? tz then d else d - 1 in
  Feature.date (TableSpec.featureDay tz rows d) = formatDay_MMM_dd shown
  ∧ Onboarding.date (Onboarding.dailyRow tz (d, o))
    = formatDay_MMM_dd shown
  ∧ Users.date (Users.dailyRow tz (d, u)) = formatDay_MMM_dd shown
  ∧ Overview.date (Overview.dailyRow tz (d, f)) = formatDay_MMM_dd shown.
Proof.
  intros Htz. cbn zeta.
  assert (E : format_MMM_dd tz (dateOfIso d)
              = formatDay_MMM_dd (if 0 <=? tz then d else d - 1)).
  { unfold format_MMM_dd. f_equal.
    destruct (localDay_dateOfIso tz d) as [H1 H2].
    destruct (0 <=? tz) eqn:E;
      [apply Z.leb_le in E; apply H1 | apply Z.leb_gt in E; apply H2];
      lia. }
  by repeat split.
Qed.

Lemma day_label_follows_zone_witness :
  Users.date (Users.dailyRow (-18000000)
                (19737, {| Users.users := ∅; Users.events := 0 |}))
  = "Jan 14"
  ∧ formatDay_MMM_dd 19737 = "Jan 15".
Proof.
  split; [| by vm_compute].
  pose proof (day_label_follows_zone (-18000000) 19737 []
                {| Onboarding.started := ∅; Onboarding.completed := ∅ |}
                {| Users.users := ∅; Users.events := 0 |}
                {| Feature.events := 0; Feature.users := ∅ |}) as H.
  destruct H as (_ & _ & H & _); [unfold msPerDay; lia |].
  rewrite H. by vm_compute.
Defined.
End DayLabels.

(** ** The users page: rates, active users, segments, latency *)

Section UserRates.
Import Calendar RateSpec.

Lemma guarded_percentage (n d : Z) :
  0 ≤ n ≤ d → percentage (if 0 <? d then JS.pct n d else JS.of_Z 0).
Proof.
  intros Hn. destruct (0 <? d) eqn:E.
  - apply Z.ltb_lt in E. by apply pct_range.
  - exists 0. split; [done | lia].
Qed.

Lemma size_Z_nonneg (X : gset string) : 0 ≤ size_Z X.
Proof. unfold size_Z. lia. Qed.

Lemma size_Z_subseteq (X Y : gset string) : X ⊆ Y → size_Z X ≤ size_Z Y.
Proof. intros H%subseteq_size. unfold size_Z. lia. Qed.

Lemma elem_of_uid_set (u : string) (rows : list Event) :
  u ∈ uid_set rows ↔ ∃ e, e ∈ rows ∧ firebase_uid e = u.
Proof.
  unfold uid_set. rewrite elem_of_list_to_set, list_elem_of_fmap.
  naive_solver.
Qed.

Lemma uid_set_mono (l1 l2 : list Event) :
  (∀ e, e ∈ l1 → e ∈ l2) → uid_set l1 ⊆ uid_set l2.
Proof.
  intros H u (e & He & <-)%elem_of_uid_set.
  apply elem_of_uid_set. exists e. split; [by apply H | done].
Qed.

Lemma uid_set_filter (P : Event → Prop) `{∀ e, Decision (P e)}
    (rows : list Event) :
  uid_set (filter P rows) ⊆ uid_set rows.
Proof. apply uid_set_mono. by intros e [_ ?]%list_elem_of_filter. Qed.

Lemma retained_le (now : Z) (rows : list Event) :
  0 ≤ Users.retained now rows ≤ size_Z (Users.usersWeek1 now rows).
Proof.
  unfold Users.retained, size_Z. split; [lia |].
  apply inj_le. etransitivity; [apply length_filter |]. done.
Qed.

(** X13 — users page, rates.  The week-1 retention, the first-basket
    rate, the aha rate and the new-user conversion rate are whole numbers
    between 0 and 100, whatever the rows; the action rate is not bounded
    in this way. *)
Theorem bounded_rates :
  (∀ (now : Z) (rows : list Event),
      percentage (Users.w1Retention now rows)
      ∧ percentage (Users.firstBasketRate rows)
      ∧ percentage (Users.ahaEventRate rows)
      ∧ percentage (Users.newUserConversionRate rows))
  ∧ ¬ (∀ rows : list Event, percentage (Users.actionRate rows)).
Proof.
  split.
  - intros now rows. split; [| split; [| split]].
    + apply guarded_percentage, retained_le.
    + apply guarded_percentage. split; [apply size_Z_nonneg |].
      apply size_Z_subseteq, uid_set_filter.
    + apply guarded_percentage. split; [apply size_Z_nonneg |].
      apply size_Z_subseteq, uid_set_mono.
      intros e [[He _] Hin]%list_elem_of_filter.
      by apply list_elem_of_filter.
    + apply guarded_percentage. split; [apply size_Z_nonneg |].
      apply size_Z_subseteq.
      intros u (e & [[_ He] _]%list_elem_of_filter & <-)%elem_of_uid_set.
      done.
  - intros H. destruct (H action_rows) as (k & Hk & Hr).
    vm_compute in Hk. injection Hk as Hk. lia.
Qed.

Lemma today_in_week (tz now t : Z) :
  - msPerDay ≤ tz → Day t = localDay tz now →
  textGe t (subDays now 7) = true.
Proof.
  intros. apply Z.ltb_lt. unfold localDay, subDays, Day, msPerDay in *.
  div_lia.
Qed.

(** X14 — users page, active users.  In a zone less than a day behind
    UTC the daily active users are among the weekly ones, and the weekly
    among the monthly: DAU is at most WAU, WAU at most MAU, and the
    DAU/WAU ratio is a whole number between 0 and 100. *)
Theorem active_users_nested (tz now : Z) (rows : list Event) :
  - msPerDay ≤ tz →
  0 ≤ Users.dau_ tz now rows ≤ Users.wau_ now rows
  ∧ Users.wau_ now rows ≤ Users.mau rows
  ∧ percentage (Users.dauWauRatio tz now rows).
Proof.
  intros Htz.
  assert (H1 : 0 ≤ Users.dau_ tz now rows ≤ Users.wau_ now rows).
  { split; [apply size_Z_nonneg |].
    apply size_Z_subseteq, uid_set_mono.
    intros e [He Hin]%list_elem_of_filter. apply list_elem_of_filter.
    split; [| done]. unfold Users.sevenDaysAgo.
    by apply (today_in_week tz). }
  split; [done |]. split.
  - apply size_Z_subseteq, uid_set_filter.
  - by apply guarded_percentage.
Qed.

Lemma active_users_nested_witness :
  Users.dau_ 0 (19737 * msPerDay + 1000)
    [launch (19737 * msPerDay) "A"; launch (19733 * msPerDay) "B";
     launch (19720 * msPerDay) "C"] = 1
  ∧ Users.wau_ (19737 * msPerDay + 1000)
      [launch (19737 * msPerDay) "A"; launch (19733 * msPerDay) "B";
       launch (19720 * msPerDay) "C"] = 2
  ∧ percentage
      (Users.dauWauRatio 0 (19737 * msPerDay + 1000)
         [launch (19737 * msPerDay) "A"; launch (19733 * msPerDay) "B";
          launch (19720 * msPerDay) "C"]).
Proof.
  split; [by vm_compute |]. split; [by vm_compute |].
  apply (active_users_nested 0 (19737 * msPerDay + 1000)).
  unfold msPerDay. lia.
Defined.
End UserRates.

(** ** Every user in one segment *)

Section SegmentTotals.
Import Users SegmentSpec TableSpec.

Lemma segmentIndex_bound (n : Z) : (segmentIndex n < 4)%nat.
Proof. unfold segmentIndex. repeat case_match; lia. Qed.

Lemma inSegment_partition (acts : list Activity) :
  (length (inSegment 0 acts) + length (inSegment 1 acts)
   + length (inSegment 2 acts) + length (inSegment 3 acts)
   = length acts)%nat.
Proof.
  induction acts as [|a acts IH]; [done |].
  rewrite !inSegment_cons. pose proof (segmentIndex_bound (a_events a)).
  repeat case_decide; cbn [length]; lia.
Qed.

Lemma average_users (s : UserSegment) : s_users (average s) = s_users s.
Proof. unfold average. by destruct (0 <? s_users s). Qed.

Lemma segmentUsers_users (rows : list Event) (k : nat) (s : UserSegment) :
  segmentUsers rows !! k = Some s →
  s_users s = Z.of_nat (length (inSegment k (userActivity rows).*2)).
Proof.
  rewrite segmentUsers_lookup.
  destruct (thresholds !! k) as [t|]; [| done].
  intros [= <-]. by rewrite average_users.
Qed.

Lemma segmentUsers_length (rows : list Event) :
  length (segmentUsers rows) = 4%nat.
Proof.
  unfold segmentUsers. rewrite length_fmap.
  induction (snd <$> userActivity rows) as [|a acts IH] using rev_ind;
    [done |].
  rewrite foldl_app. cbn [foldl]. unfold addUser.
  by rewrite length_alter.
Qed.

(** X15 — users page, segments.  Every user is in exactly one segment:
    the users of the four segments add up to the number of unique
    users. *)
Theorem segments_cover_users (rows : list Event) :
  total s_users (segmentUsers rows) = size_Z (uid_set rows).
Proof.
  pose proof (segmentUsers_length rows) as Hlen.
  pose proof (segmentUsers_users rows) as Hu.
  destruct (segmentUsers rows) as [|s0 [|s1 [|s2 [|s3 [|]]]]];
    try discriminate Hlen.
  pose proof (Hu 0%nat s0 eq_refl) as H0.
  pose proof (Hu 1%nat s1 eq_refl) as H1.
  pose proof (Hu 2%nat s2 eq_refl) as H2.
  pose proof (Hu 3%nat s3 eq_refl) as H3.
  cbn [total foldr]. rewrite H0, H1, H2, H3.
  pose proof (inSegment_partition (userActivity rows).*2) as Hp.
  rewrite length_fmap in Hp.
  assert (length (userActivity rows) = size (uid_set rows)) as Hn.
  { rewrite <- (length_fmap fst), userActivity_keys. done. }
  unfold size_Z. lia.
Qed.
End SegmentTotals.

(** ** Latency rows *)

Section LatencyRows.
Import Users LatencySpec RateSpec TableSpec.

Lemma sorted_lookup_le (l : list Z) (i j : nat) (a b : Z) :
  Sorted Z.le l → (i ≤ j)%nat → l !! i = Some a → l !! j = Some b → a ≤ b.
Proof.
  intros Hs%Sorted_StronglySorted; [| intros ???; lia].
  intros Hij Ha Hb. destruct (decide (i = j)) as [->|Hne];
    [simplify_eq; lia |].
  rewrite <- (take_drop j l) in Hs.
  apply (StronglySorted_app_1_elem_of _ _ _ a b) in Hs; [done | |].
  - apply list_elem_of_lookup. exists i.
    rewrite lookup_take_lt by lia. done.
  - apply list_elem_of_lookup. exists 0%nat.
    rewrite lookup_drop, Nat.add_0_r. done.
Qed.

Lemma clampedIndex_order (n : Z) :
  1 ≤ n → clampedIndex (1 # 2) n ≤ clampedIndex (95 # 100) n.
Proof.
  intros Hn. unfold clampedIndex.
  assert (Qfloor ((1 # 2) * inject_Z n) ≤ Qfloor ((95 # 100) * inject_Z n)).
  { apply Qfloor_resp_le. unfold Qle, Qmult, inject_Z.
    cbn [Qnum Qden]. lia. }
  lia.
Qed.

Lemma addLatency_timed (m : list (string * list Z)) (msg : Message) :
  addLatency m msg
  = match timedType msg with
    | Some (ty, ms) => Coll.upsert ty [] (λ times, times ++ [ms]) m
    | None => m
    end.
Proof.
  unfold addLatency, timedType.
  destruct (processing_ms msg) as [ms|]; [| done].
  destruct (response_type msg) as [ty|]; [| done].
  cbn. by destruct (negb (ms =? 0) && negb (ty =? "")%string).
Qed.

Lemma latencyMap_timed (messages : list Message) m :
  foldl addLatency m messages
  = foldl (λ m (p : string * Z),
             Coll.upsert p.1 [] (λ times, times ++ [p.2]) m)
          m (omap timedType messages).
Proof.
  revert m. induction messages as [|msg messages IH]; intros m; [done |].
  cbn [foldl omap list_omap]. rewrite IH, addLatency_timed.
  by destruct (timedType msg) as [[ty ms]|].
Qed.

Lemma foldl_snoc_times (l : list (string * Z)) (v : list Z) :
  foldl (λ times (p : string * Z), times ++ [p.2]) v l = v ++ l.*2.
Proof.
  revert v. induction l as [|p l IH]; intros v; cbn [foldl].
  - by rewrite fmap_nil, app_nil_r.
  - by rewrite IH, fmap_cons, <- app_assoc.
Qed.

(** The map holds, for every response type in the order of its first
    message, the times of its messages in their order. *)
Lemma latencyMap_rows (messages : list Message) :
  latencyMap messages
  = (λ ty, (ty, timesOf ty messages)) <$> timedTypes messages.
Proof.
  unfold latencyMap, timedTypes. rewrite latencyMap_timed.
  set (timed := omap timedType messages).
  pose proof (foldl_upsert_keys_firstSeen fst (λ _ : string * Z, [])
                (λ (p : string * Z) times, times ++ [p.2]) timed) as Hkeys.
  rewrite <- Hkeys. apply entries_of_get.
  - rewrite Hkeys. apply NoDup_firstSeen.
  - intros ty Hty. rewrite Hkeys, elem_of_firstSeen in Hty.
    rewrite (foldl_upsert_get_dep fst (λ _ : string * Z, [])
               (λ (p : string * Z) times, times ++ [p.2])).
    unfold timesOf. fold timed.
    destruct (filter _ timed) as [|p l] eqn:E.
    + exfalso. apply list_elem_of_fmap in Hty as (p & -> & Hin).
      assert (p ∈ filter (λ p' : string * Z, p'.1 = p.1) timed) as Hf
        by (by apply list_elem_of_filter).
      rewrite E in Hf. by apply elem_of_nil in Hf.
    + cbn [Coll.get from_option]. by rewrite foldl_snoc_times.
Qed.

Lemma elem_of_timesOf (messages : list Message) (ty : string) (ms : Z) :
  ms ∈ timesOf ty messages → ∃ msg, msg ∈ messages ∧ tookOf ty ms msg.
Proof.
  unfold timesOf.
  intros ([ty' ms'] & -> & [Hty Hin]%list_elem_of_filter)%list_elem_of_fmap.
  cbn in Hty. subst ty'.
  apply list_elem_of_omap in Hin as (msg & Hmsg & Ht).
  exists msg. split; [done |]. unfold timedType in Ht. unfold tookOf.
  destruct (processing_ms msg) as [p|]; [| done].
  destruct (response_type msg) as [r|]; [| done].
  cbn in Ht. destruct (_ && _); [| done]. by injection Ht as -> ->.
Qed.

(** X16 — users page, latency rows.  In every row the median is at most
    the 95th percentile, and each of the two is the processing time of a
    message that has the response type of the row. *)
Theorem percentiles_ordered (messages : list Message) (row : LatencyRow) :
  row ∈ latencies messages →
  p50 row ≤ p95 row
  ∧ ∃ ty,
      ty ∈ timedTypes messages
      ∧ l_type row = replaceUnderscores ty
      ∧ (∃ msg, msg ∈ messages ∧ tookOf ty (p50 row) msg)
      ∧ (∃ msg, msg ∈ messages ∧ tookOf ty (p95 row) msg).
Proof.
  intros Hrow. unfold latencies in Hrow.
  rewrite sort_by_perm in Hrow.
  apply list_elem_of_fmap in Hrow as ([ty times] & -> & Hin).
  pose proof (latencyMap_nonempty _ _ _ Hin) as Hne.
  rewrite latencyMap_rows in Hin.
  apply list_elem_of_fmap in Hin as (ty' & [= -> ->] & Hty).
  set (times := timesOf ty' messages) in *.
  destruct (percentiles_nonempty ty' times Hne)
    as (Hs & Hp & _ & H50 & H95 & _).
  assert (1 ≤ Z.of_nat (length times)) as Hn
    by (destruct times; [done | cbn [length]; lia]).
  pose proof (clampedIndex_range (1 # 2) _ Hn).
  pose proof (clampedIndex_range (95 # 100) _ Hn).
  split.
  - eapply (sorted_lookup_le _ _ _ _ _ Hs); [| exact H50 | exact H95].
    pose proof (clampedIndex_order _ Hn). lia.
  - exists ty'. split; [done |]. split; [done |].
    assert (∀ x, x ∈ sortAscending times → x ∈ times) as Hsub
      by (intros x Hx; by rewrite Hp in Hx).
    split; apply elem_of_timesOf, Hsub; by eapply list_elem_of_lookup_2.
Qed.

Lemma percentiles_ordered_witness :
  ∃ row, row ∈ latencies latency_messages
         ∧ l_type row = "basket result"
         ∧ p50 row ≤ p95 row
         ∧ (p50 row = 900 ∧ p95 row = 900).
Proof.
  assert (percentiles ("basket_result", [900; 300])
            ∈ latencies latency_messages) as Hin.
  { vm_compute. left. }
  eexists. split; [exact Hin |]. split; [by vm_compute |].
  split; [apply (percentiles_ordered latency_messages _ Hin) |].
  by vm_compute.
Defined.

Lemma latencyMap_total (messages : list Message) :
  total (λ p : string * list Z, Z.of_nat (length p.2))
        (latencyMap messages)
  = Z.of_nat (length (omap timedType messages)).
Proof.
  unfold latencyMap.
  enough (∀ m, total (λ p : string * list Z, Z.of_nat (length p.2))
                 (foldl addLatency m messages)
               = total (λ p : string * list Z, Z.of_nat (length p.2)) m
                 + Z.of_nat (length (omap timedType messages))) as H
    by (by rewrite H).
  induction messages as [|msg messages IH]; intros m; cbn [foldl];
    [cbn; lia |].
  rewrite IH, addLatency_timed. cbn [omap list_omap].
  destruct (timedType msg) as [[ty ms]|]; [| done].
  rewrite (total_upsert (λ times : list Z, Z.of_nat (length times)) 1);
    [cbn [length]; lia | done |].
  intros v. rewrite length_app. cbn [length]. lia.
Qed.

(** X17 — users page, latency table.  The table has one row per response
    type, made of the processing times of the messages of that type.  The
    rows are sorted by their number of messages, the largest first, types
    with the same number in the order of their first message; the numbers
    add up to the messages that have both a processing time and a
    response type. *)
Theorem latencies_table (messages : list Message) :
  sortedDescending l_count
    ((λ ty, percentiles (ty, timesOf ty messages))
       <$> timedTypes messages)
    (latencies messages)
  ∧ (∀ ty, l_count (percentiles (ty, timesOf ty messages))
           = Z.of_nat (length (timesOf ty messages)))
  ∧ total l_count (latencies messages)
    = Z.of_nat (length (omap timedType messages)).
Proof.
  split; [| split; [done |]].
  - unfold latencies. rewrite latencyMap_rows, <- list_fmap_compose.
    apply sort_by_descending.
  - unfold latencies.
    rewrite (total_perm _ _ _ (sort_by_perm _ _)), total_fmap.
    apply latencyMap_total.
Qed.
End LatencyRows.

(** ** The overview page: new users, days, count tables, lists, stores *)

Section NewUsers.
Import Overview OverviewSpec TableSpec.

Lemma filter_sorted {A} (R : A → A → Prop) (P : A → Prop)
    `{∀ x, Decision (P x)} (l : list A) :
  StronglySorted R l → StronglySorted R (filter P l).
Proof.
  induction 1 as [|x l Hl IH Hx]; [constructor |].
  rewrite filter_cons. destruct (decide (P x)); [| done].
  constructor; [done |]. rewrite Forall_forall in *.
  intros y [_ Hy]%list_elem_of_filter. by apply Hx.
Qed.

(** The first timestamp of user [u], the one [userFirstEvent] keeps. *)
Lemma userFirstEvent_entries (allEvents : list Event) :
  userFirstEvent allEvents
  = (λ u, (u, default 0 (received_at <$> head (rowsOfUser u allEvents))))
      <$> firstSeen (firebase_uid <$> allEvents).
Proof.
  assert (Hk : (userFirstEvent allEvents).*1
               = firstSeen (firebase_uid <$> allEvents)).
  { unfold userFirstEvent.
    exact (foldl_upsert_keys_firstSeen firebase_uid received_at
             (λ _ v, v) allEvents). }
  rewrite <- Hk. apply entries_of_get.
  - rewrite Hk. apply NoDup_firstSeen.
  - intros u Hu. rewrite Hk, elem_of_firstSeen in Hu.
    unfold userFirstEvent.
    rewrite (foldl_upsert_get_dep firebase_uid received_at (λ _ v, v)).
    unfold rowsOfUser. destruct (filter _ allEvents) as [|e l] eqn:E.
    + exfalso. apply list_elem_of_fmap in Hu as (e & -> & Hin).
      assert (e ∈ filter (λ e', firebase_uid e' = firebase_uid e) allEvents)
        as Hf by (by apply list_elem_of_filter).
      rewrite E in Hf. by apply elem_of_nil in Hf.
    + cbn [Coll.get from_option id head fmap option_fmap option_map].
      f_equal. clear E. generalize (received_at e).
      induction (e :: l) as [|x l' IH]; intros z; [done |].
      cbn [foldl]. apply IH.
Qed.

Lemma first_row_earliest (allEvents : list Event) (u : string) :
  ascendingTime allEvents →
  u ∈ firebase_uid <$> allEvents →
  ∃ e0, head (rowsOfUser u allEvents) = Some e0
        ∧ e0 ∈ allEvents ∧ firebase_uid e0 = u
        ∧ ∀ e, e ∈ allEvents → firebase_uid e = u →
               received_at e0 ≤ received_at e.
Proof.
  intros Hs Hu.
  pose proof (filter_sorted _ (λ e, firebase_uid e = u) _ Hs) as Hf.
  fold (rowsOfUser u allEvents) in Hf.
  destruct (rowsOfUser u allEvents) as [|e0 l] eqn:E.
  - exfalso. apply list_elem_of_fmap in Hu as (e & -> & Hin).
    assert (e ∈ rowsOfUser (firebase_uid e) allEvents) as Hx
      by (by apply list_elem_of_filter).
    rewrite E in Hx. by apply elem_of_nil in Hx.
  - exists e0. split; [done |].
    assert (e0 ∈ rowsOfUser u allEvents) as [H1 H2]%list_elem_of_filter
      by (rewrite E; left).
    split; [done |]. split; [done |]. intros e He Hue.
    assert (e ∈ e0 :: l) as Hin
      by (rewrite <- E; by apply list_elem_of_filter).
    apply StronglySorted_inv in Hf as [_ Hall].
    rewrite Forall_forall in Hall.
    apply elem_of_cons in Hin as [->|Hin]; [lia | by apply Hall].
Qed.

(** X18 — overview page, new users.  The first timestamp of a user is
    compared as a text with the start of the range, which leaves out a
    first row in the millisecond of the start.  When the rows of all time
    come in ascending order of their timestamps, as the query returns
    them, the new users are the users without a row up to that
    millisecond; together with the users of the range who have such a row
    they make up the total users. *)
Theorem new_users_without_earlier_row (cut : Z) (allEvents : list Event) :
  ascendingTime allEvents →
  newUsersCount cut allEvents
  = size_Z (uid_set allEvents ∖ usersUpTo cut allEvents)
  ∧ newUsersCount cut allEvents
    + size_Z (uid_set (since cut allEvents) ∩ usersUpTo cut allEvents)
    = totalUsers (since cut allEvents).
Proof.
  intros Hs.
  assert (Hcount : newUsersCount cut allEvents
                   = size_Z (uid_set allEvents ∖ usersUpTo cut allEvents)).
  { unfold newUsersCount. rewrite userFirstEvent_entries.
    rewrite <- list_fmap_compose.
    rewrite filter_fmap_comm, length_fmap. unfold size_Z. f_equal.
    rewrite <- (size_list_to_set (C := gset string))
      by (apply NoDup_filter, NoDup_firstSeen).
    f_equal. apply set_eq. intros u.
    rewrite elem_of_list_to_set, list_elem_of_filter, elem_of_firstSeen.
    rewrite elem_of_difference. unfold usersUpTo, uid_set at 1.
    rewrite elem_of_list_to_set. cbn [compose snd].
    unfold Calendar.textGe. rewrite Z.ltb_lt.
    split.
    - intros [Hcut Hu]. split; [done |].
      intros (e & [Hlt He]%list_elem_of_filter & Hue)%elem_of_uid_set.
      destruct (first_row_earliest allEvents u Hs Hu)
        as (e0 & Hhd & _ & _ & Hmin).
      rewrite Hhd in Hcut. cbn in Hcut.
      specialize (Hmin e He Hue). lia.
    - intros [Hu Hnot]. split; [| done].
      destruct (first_row_earliest allEvents u Hs Hu)
        as (e0 & Hhd & He0 & Hue0 & _).
      rewrite Hhd. cbn.
      destruct (decide (cut < received_at e0)); [done |].
      exfalso. apply Hnot, elem_of_uid_set. exists e0.
      split; [| done]. apply list_elem_of_filter. split; [lia | done]. }
  split; [done |]. rewrite Hcount. unfold totalUsers, size_Z.
  assert (H1 : uid_set allEvents ∖ usersUpTo cut allEvents
               ⊆ uid_set (since cut allEvents)).
  { intros u [(e & He & Hue)%elem_of_uid_set Hnot]%elem_of_difference.
    apply elem_of_uid_set. exists e. split; [| done].
    apply list_elem_of_filter. split; [| done].
    destruct (decide (cut ≤ received_at e)); [done |].
    exfalso. apply Hnot, elem_of_uid_set. exists e. split; [| done].
    apply list_elem_of_filter. split; [lia | done]. }
  assert (H2 : uid_set (since cut allEvents) ⊆ uid_set allEvents)
    by apply uid_set_filter.
  rewrite <- Nat2Z.inj_add. f_equal. rewrite <- size_union by set_solver.
  f_equal. apply set_eq. intros u.
  destruct (decide (u ∈ usersUpTo cut allEvents)); set_solver.
Qed.

(** User B, whose first row is in the millisecond at which the range
    starts, is in the range and is not new. *)
Lemma new_users_without_earlier_row_witness :
  newUsersCount (19729 * Calendar.msPerDay + 2000) BucketSpec.one_week = 0
  ∧ totalUsers (since (19729 * Calendar.msPerDay + 2000)
                  BucketSpec.one_week) = 2
  ∧ newUsersCount (19729 * Calendar.msPerDay + 2000) BucketSpec.one_week
    + size_Z (uid_set (since (19729 * Calendar.msPerDay + 2000)
                         BucketSpec.one_week)
              ∩ usersUpTo (19729 * Calendar.msPerDay + 2000)
                  BucketSpec.one_week)
    = totalUsers (since (19729 * Calendar.msPerDay + 2000)
                    BucketSpec.one_week).
Proof.
  split; [by vm_compute |]. split; [by vm_compute |].
  apply (new_users_without_earlier_row (19729 * Calendar.msPerDay + 2000)
           BucketSpec.one_week).
  unfold ascendingTime, BucketSpec.one_week.
  repeat (constructor;
          [| repeat (constructor; [cbn; unfold Calendar.msPerDay; lia |]);
             constructor]).
  constructor.
Defined.
End NewUsers.

(** ** Days on the overview page *)

Section OverviewDays.
Import Calendar BucketSpec TableSpec Overview.

(** X19 — overview page, daily chart.  The rows come in descending order
    of their timestamps here, and the list of days is reversed before it
    is cut: the chart shows the latest days that have rows, at most 14,
    the oldest first, each with its unique users and its rows. *)
Theorem overview_daily_latest_days (tz : Z) (rows : list Event) :
  descendingTime rows →
  ∃ days : list Z,
    latestDays 14 rows days
    ∧ dailyStatsArray tz rows = overviewDay tz rows <$> days.
Proof.
  intros Hs.
  exists (Coll.slice_last 14 (reverse (Feature.dailyMap rows).*1)). split.
  - apply slice_last_latestDays.
    + apply dailyMap_descending, reverse_sorted in Hs.
      eapply sorted_impl; [| exact Hs]. unfold flip. done.
    + intros d. rewrite elem_of_reverse. apply dailyMap_days.
  - unfold dailyStatsArray. rewrite dailyMap_entries at 1.
    rewrite <- list_fmap_compose, <- fmap_reverse, slice_last_fmap. done.
Qed.

Lemma overview_daily_latest_days_witness :
  ∃ days : list Z,
    latestDays 14 (reverse one_week) days
    ∧ dailyStatsArray 0 (reverse one_week)
      = overviewDay 0 (reverse one_week) <$> days.
Proof.
  apply (overview_daily_latest_days 0 (reverse one_week)).
  unfold descendingTime. cbn.
  repeat (constructor;
          [| repeat (constructor; [cbn; unfold msPerDay; lia |]);
             constructor]).
  constructor.
Defined.
End OverviewDays.

(** ** Count tables *)

Section CountTables.
Import TableSpec Counter Overview.

(** X20 — overview page, top events.  The table shows at most ten event
    names with the number of their rows, the most frequent first; a name
    that is left out has no more rows than any name shown. *)
Theorem eventArray_top_ten (events : list Event) :
  let names := event_name <$> events in
  topOf snd 10 ((λ k, (k, occurrences k names)) <$> firstSeen names)
    (eventArray events).
Proof.
  cbn zeta. unfold eventArray. apply topOf_take, byCountDesc_rows.
Qed.

Lemma platformOf_named (r : Row) : platformOf r ≠ "".
Proof.
  unfold platformOf. destruct (platform r) as [p|]; [| done].
  destruct (String.eqb_spec p ""); done.
Qed.

(** X21 — overview page, platforms.  Every row is counted once, a row
    without platform (or with an empty one) under [unknown]: the counts
    add up to the number of rows, no line of the table has an empty
    name, and the lines are sorted by count, the largest first. *)
Theorem platformData_rows (rows : list Row) :
  let names := platformOf <$> rows in
  sortedDescending snd ((λ k, (k, occurrences k names)) <$> firstSeen names)
    (platformData rows)
  ∧ total snd (platformData rows) = Z.of_nat (length rows)
  ∧ (∀ p n, (p, n) ∈ platformData rows → p ≠ "" ∧ 0 < n)
  ∧ occurrences "unknown" names
    = Z.of_nat (length (filter (λ r, platform r = None
                                     ∨ platform r = Some ""
                                     ∨ platform r = Some "unknown")
                               rows)).
Proof.
  cbn zeta. unfold platformData.
  destruct (byCountDesc_rows (platformOf <$> rows)) as [H1 H2].
  split; [done |]. split; [by rewrite H2, length_fmap |]. split.
  - intros p n Hin. destruct H1 as [Hp _]. rewrite Hp in Hin.
    apply list_elem_of_fmap in Hin as (k & [= -> ->] & Hk).
    rewrite elem_of_firstSeen in Hk. split.
    + apply list_elem_of_fmap in Hk as (r & -> & _).
      apply platformOf_named.
    + by apply occurrences_pos.
  - unfold occurrences. f_equal.
    rewrite filter_fmap_comm, length_fmap. f_equal.
    apply list_filter_iff. intros r. unfold platformOf.
    destruct (platform r) as [p|]; [| naive_solver].
    destruct (String.eqb_spec p ""); naive_solver.
Qed.

Lemma assistantType_spec (m : ChatMessage) (ty : string) :
  assistantType m = Some ty
  ↔ role m = "assistant" ∧ response_type m = Some ty ∧ ty ≠ "".
Proof.
  unfold assistantType. destruct (decide (role m = "assistant"));
    [| naive_solver].
  destruct (response_type m) as [t|]; cbn; [| naive_solver].
  destruct (String.eqb_spec t ""); naive_solver.
Qed.

(** X22 — overview page, session states and response types.  Both tables
    are sorted by count, the largest first; the session counts add up to
    the number of sessions, the response counts to the number of
    assistant messages that have a response type, and only the types of
    such messages appear. *)
Theorem session_and_response_tables
    (sessions : list Session) (messages : list ChatMessage) :
  (let states := state <$> sessions in
   sortedDescending snd
     ((λ k, (k, occurrences k states)) <$> firstSeen states)
     (funnelArray sessions)
   ∧ total snd (funnelArray sessions) = Z.of_nat (length sessions))
  ∧ (let types := omap assistantType messages in
     sortedDescending snd
       ((λ k, (k, occurrences k types)) <$> firstSeen types)
       (responseTypes messages)
     ∧ total snd (responseTypes messages) = Z.of_nat (length types)
     ∧ ∀ ty n, (ty, n) ∈ responseTypes messages →
               ∃ m, m ∈ messages ∧ role m = "assistant"
                    ∧ response_type m = Some ty ∧ ty ≠ "").
Proof.
  cbn zeta. unfold funnelArray, responseTypes. split.
  - destruct (byCountDesc_rows (state <$> sessions)) as [H1 H2].
    split; [done |]. by rewrite H2, length_fmap.
  - destruct (byCountDesc_rows (omap assistantType messages)) as [H1 H2].
    split; [done |]. split; [done |].
    intros ty n Hin. destruct H1 as [Hp _]. rewrite Hp in Hin.
    apply list_elem_of_fmap in Hin as (k & [= -> ->] & Hk).
    rewrite elem_of_firstSeen in Hk.
    apply list_elem_of_omap in Hk as (m & Hm & Hty).
    exists m. split; [done |]. by apply assistantType_spec.
Qed.
End CountTables.

(** ** List activity and store health *)

Section ListsAndStores.
Import TableSpec Counter Overview OverviewSpec.

Lemma named_nonempty (ev : string) (events : list Event) :
  named ev events ≠ [] → 0 < Z.of_nat (length (named ev events)).
Proof. destruct (named ev events); [done | cbn [length]; lia]. Qed.

(** X23 — overview page, list activity.  The table has a row for an
    action exactly when the action has rows, in the order of the list of
    actions; in every row the unique users are at least 1 and at most the
    count. *)
Theorem listStats_rows (actions : list (string * string))
    (events : list Event) :
  listStatsOf actions events
  = listStat events <$> filter (λ a, named a.1 events ≠ []) actions
  ∧ ∀ s, s ∈ listStatsOf actions events → 1 ≤ l_users s ≤ l_count s.
Proof.
  assert (E : listStatsOf actions events
              = listStat events
                  <$> filter (λ a, named a.1 events ≠ []) actions).
  { unfold listStatsOf. rewrite filter_fmap_comm. f_equal.
    apply list_filter_iff. intros a. cbn [listStat l_count].
    split; [| apply named_nonempty].
    intros Hpos Hnil. rewrite Hnil in Hpos. cbn in Hpos. lia. }
  split; [done |]. intros s. rewrite E.
  intros (a & -> & [Hne _]%list_elem_of_filter)%list_elem_of_fmap.
  cbn [listStat l_users l_count]. split.
  - pose proof (uid_set_nonempty _ Hne). lia.
  - apply size_uid_set_le.
Qed.

Lemma getOrZero_countBy (keys : list Z) (k : Z) :
  getOrZero (countBy keys) k = occurrences k keys.
Proof.
  unfold getOrZero. rewrite countBy_get.
  destruct (decide (k ∈ keys)) as [|Hn]; [done |]. cbn.
  pose proof (occurrences_nonneg k keys).
  pose proof (occurrences_pos k keys). 
  destruct (decide (0 < occurrences k keys)); [tauto | lia].
Qed.

Lemma storeHealthData_rows (stores : list Store)
    (promoCounts productCounts : list Z) :
  storeHealthData stores promoCounts productCounts
  = storeRow promoCounts productCounts <$> stores.
Proof.
  unfold storeHealthData, storeRow. apply list_fmap_ext.
  intros i s _. by rewrite !getOrZero_countBy.
Qed.

(** X24 — overview page, store health.  When the three queries return
    data the table shows at most ten of the active stores, those with the
    most offerings first, each with the number of its offerings and of
    its promotions (0 when it has none); offerings and promotions of
    other stores are not counted.  When a query returns no data the
    table stays as it was. *)
Theorem storeHealth_top_ten (prev : list StoreHealth) (stores : list Store)
    (promoCounts productCounts : list Z) :
  topOf products 10 (storeRow promoCounts productCounts <$> stores)
    (storeHealth prev (Some stores) (Some promoCounts) (Some productCounts))
  ∧ (∀ r, r ∈ storeHealth prev (Some stores) (Some promoCounts)
                (Some productCounts) →
          ∃ s, s ∈ stores ∧ r = storeRow promoCounts productCounts s)
  ∧ storeHealth prev None (Some promoCounts) (Some productCounts) = prev
  ∧ storeHealth prev (Some stores) None (Some productCounts) = prev
  ∧ storeHealth prev (Some stores) (Some promoCounts) None = prev.
Proof.
  assert (Ht : topOf products 10
                 (storeRow promoCounts productCounts <$> stores)
                 (storeHealth prev (Some stores) (Some promoCounts)
                    (Some productCounts))).
  { unfold storeHealth. apply topOf_take.
    rewrite storeHealthData_rows. apply sort_by_descending. }
  split; [done |]. split; [| done].
  intros r Hr. apply (topOf_elem _ _ _ _ _ Ht) in Hr.
  apply list_elem_of_fmap in Hr as (s & -> & Hs). by exists s.
Qed.
End ListsAndStores.

(** ** Totals on two pages *)

Section Totals.
Import Overview OverviewSpec.

Lemma savingsBaskets_from (events : list Event) (st : Z * Z) :
  foldl (λ st e,
           (match Users.savingsOf e with
            | Some n => st.1 + n
            | None => st.1
            end,
            if decide (event_name e = "basket_results_displayed")
            then st.2 + 1 else st.2))
        st events
  = (st.1 + TableSpec.total (λ e, default 0 (Users.savingsOf e)) events,
     st.2 + Z.of_nat (length (named "basket_results_displayed" events))).
Proof.
  revert st. induction events as [|e events IH]; intros [s b];
    cbn [foldl]; [apply injective_projections; cbn; lia |].
  rewrite IH, named_cons, total_cons. cbn [fst snd].
  destruct (Users.savingsOf e), (decide (event_name e = _));
    apply injective_projections; cbn [fst snd from_option length];
    unfold Datatypes.id; lia.
Qed.

Lemma savingsTotals_from (l : list Event) (st : Z * Z) :
  (foldl (λ st e,
            match Users.savingsOf e with
            | Some n => (st.1 + n, st.2 + 1)
            | None => st
            end)
         st l).1
  = st.1 + TableSpec.total (λ e, default 0 (Users.savingsOf e)) l.
Proof.
  revert st. induction l as [|e l IH]; intros [s b]; cbn [foldl];
    [cbn; lia |].
  rewrite IH, total_cons.
  destruct (Users.savingsOf e); cbn [fst from_option];
    unfold Datatypes.id; lia.
Qed.

Lemma total_named_savings (rows : list Event) :
  savingsOnBaskets rows →
  TableSpec.total (λ e, default 0 (Users.savingsOf e))
    (named "basket_results_displayed" rows)
  = TableSpec.total (λ e, default 0 (Users.savingsOf e)) rows.
Proof.
  induction rows as [|e rows IH]; intros Hb; [done |].
  rewrite named_cons, total_cons.
  assert (savingsOnBaskets rows) as Hb'
    by (intros e' He'; apply Hb; by right).
  destruct (decide (event_name e = "basket_results_displayed")) as [|Hne].
  - rewrite total_cons, IH by done. done.
  - rewrite IH by done.
    destruct (Users.savingsOf e) as [n|] eqn:E; [| cbn; lia].
    exfalso. apply Hne, Hb; [by left | by rewrite E].
Qed.

(** X25 — baskets and savings on two pages.  The overview page and the
    users page count the same baskets; the overview page adds up the
    savings of all rows, the users page those of the basket rows only,
    so the two totals agree when only basket rows carry savings. *)
Theorem totals_agree (rows : list Event) :
  basketsGenerated rows = Users.totalBaskets rows
  ∧ (savingsOnBaskets rows →
     totalSavings rows = (Users.savingsTotals rows).1).
Proof.
  unfold basketsGenerated, totalSavings, savingsBaskets.
  rewrite savingsBaskets_from. cbn [fst snd]. split.
  - unfold Users.totalBaskets, Users.basketEvents, Users.len. lia.
  - intros Hb. unfold Users.savingsTotals, Users.basketEvents.
    rewrite savingsTotals_from, total_named_savings by done. done.
Qed.

Lemma totals_agree_witness :
  totalSavings [basket 0 "A" 250; basket 5 "B" 120] = 370
  ∧ totalSavings [basket 0 "A" 250; basket 5 "B" 120]
    = (Users.savingsTotals [basket 0 "A" 250; basket 5 "B" 120]).1.
Proof.
  split; [by vm_compute |].
  apply (totals_agree [basket 0 "A" 250; basket 5 "B" 120]).
  intros e He _.
  apply elem_of_cons in He as [->|He]; [done |].
  apply elem_of_cons in He as [->|He]; [done |].
  by apply elem_of_nil in He.
Defined.
End Totals.

(** ** The access check *)

Section AccessCheck.
Import Middleware MiddlewareSpec.

Lemma isKey_spec (secret : string) (k : option string) :
  isKey secret k = true ↔ k = Some secret.
Proof.
  unfold isKey. destruct k as [v|]; [| done].
  destruct (String.eqb_spec v secret); naive_solver.
Qed.

Lemma SECRET_KEY_named (env : option string) : SECRET_KEY env ≠ "".
Proof.
  unfold SECRET_KEY. destruct env as [k|]; [| done].
  destruct (String.eqb_spec k ""); done.
Qed.

(** X26 — the access check.  A request for a page (a path the check does
    not skip) other than the access-denied page is let through only with
    the secret key in its cookie; with the key in the URL it is
    redirected instead.  The key is never the empty text. *)
Theorem middleware_guards_pages (env : option string) (production : bool)
    (request : Request) :
  middleware env production request = Next →
  skipped (pathname request) = false →
  pathname request ≠ "/access-denied" →
  cookieKey request = Some (SECRET_KEY env)
  ∧ urlKey request ≠ Some (SECRET_KEY env)
  ∧ SECRET_KEY env ≠ "".
Proof.
  unfold middleware. intros Hnext Hskip Hpath. rewrite Hskip in Hnext.
  destruct (isKey (SECRET_KEY env) (urlKey request)) eqn:Eu; [done |].
  destruct (isKey (SECRET_KEY env) (cookieKey request)) eqn:Ec.
  - split; [by apply isKey_spec |]. split; [| apply SECRET_KEY_named].
    intros Hu%isKey_spec. congruence.
  - destruct (String.eqb_spec (pathname request) "/access-denied");
      [done | discriminate Hnext].
Qed.

Lemma middleware_guards_pages_witness :
  middleware None true
    {| pathname := "/users"; urlKey := None;
       cookieKey := Some "spaartje2024" |} = Next
  ∧ middleware None true
      {| pathname := "/users"; urlKey := None;
         cookieKey := Some "spaartje2023" |}
    = Redirect "/access-denied" None
  ∧ Some "spaartje2024" = Some (SECRET_KEY None).
Proof.
  split; [by vm_compute |]. split; [by vm_compute |].
  symmetry.
  apply (middleware_guards_pages None true
           {| pathname := "/users"; urlKey := None;
              cookieKey := Some "spaartje2024" |}); by vm_compute.
Defined.

(** X27 — the access check.  A redirect is never followed by another
    one: the request that a browser sends after a redirect, with the
    cookie that the redirect sets, is let through. *)
Theorem redirects_end_in_one_step (env : option string)
    (production : bool) (request request' : Request) :
  follow request (middleware env production request) = Some request' →
  middleware env production request' = Next.
Proof.
  unfold middleware at 1.
  destruct (skipped (pathname request)) eqn:Hskip; [done |].
  destruct (isKey (SECRET_KEY env) (urlKey request)) eqn:Eu.
  - cbn. intros [= <-]. unfold middleware. cbn. rewrite Hskip.
    by rewrite String.eqb_refl.
  - destruct (isKey (SECRET_KEY env) (cookieKey request)) eqn:Ec; [done |].
    destruct (String.eqb_spec (pathname request) "/access-denied");
      [done |].
    cbn. intros [= <-]. unfold middleware. cbn. by rewrite Ec.
Qed.

Lemma redirects_end_in_one_step_witness :
  middleware None false (login "/users" "spaartje2024")
  = Redirect "/users"
      (Some {| c_name := "dashboard_key"; c_value := "spaartje2024";
               httpOnly := true; secure := false; sameSite := "lax";
               maxAge := 2592000 |})
  ∧ middleware None false
      {| pathname := "/users"; urlKey := None;
         cookieKey := Some "spaartje2024" |} = Next.
Proof.
  split; [by vm_compute |].
  apply (redirects_end_in_one_step None false
           (login "/users" "spaartje2024")).
  by vm_compute.
Defined.
End AccessCheck.

(** ** The start of the time range *)

Section TimeRanges.
Import Calendar BucketSpec DateFilter.

Lemma date_in_month (d : Z) :
  DateFromDay d
  ≤ DaysInMonth (InLeapYear (YearFromDay d)) (MonthFromDay d).
Proof.
  pose proof (DayWithinYear_range d) as Hw.
  pose proof (InLeapYear_range (YearFromDay d)) as Hl.
  unfold DateFromDay, MonthFromDay.
  set (w := DayWithinYear d) in *. set (leap := InLeapYear _) in *.
  repeat (match goal with
          | |- context [?a <? ?b] => destruct (Z.ltb_spec a b)
          end; [cbn [DaysInMonth]; lia |]).
  cbn [DaysInMonth]; lia.
Qed.

Lemma leap_years_apart (y : Z) : InLeapYear (y - 1) + InLeapYear y ≤ 1.
Proof.
  unfold InLeapYear.
  destruct (Z.eqb_spec ((y - 1) mod 4) 0), (Z.eqb_spec (y mod 4) 0);
    cbn [negb]; [div_lia | | |];
    repeat (match goal with
            | |- context [?a =? ?b] => destruct (Z.eqb_spec a b)
            end); cbn [negb]; lia.
Qed.

(** The day [amount] months before day [d], as [subMonths] finds it. *)
Lemma subMonths_day (tz t amount : Z) :
  let d := Day (t + tz) in
  let months := YearFromDay d * 12 + MonthFromDay d - amount in
  let y := months / 12 in
  let m := months mod 12 in
  subMonths tz t amount
  = t - (d - MakeDay y m (Z.min (DateFromDay d)
                                (DaysInMonth (InLeapYear y) m)))
        * msPerDay.
Proof.
  cbn zeta. unfold subMonths, Day.
  pose proof (Z.div_mod (t + tz) msPerDay). unfold msPerDay in *. lia.
Qed.

Lemma months_back (d amount : Z) :
  amount = 3 ∨ amount = 6 ∨ amount = 9 ∨ amount = 12 →
  let months := YearFromDay d * 12 + MonthFromDay d - amount in
  let y := months / 12 in
  let m := months mod 12 in
  let back := d - MakeDay y m (Z.min (DateFromDay d)
                                     (DaysInMonth (InLeapYear y) m)) in
  (amount = 3 → 89 ≤ back ≤ 92)
  ∧ (amount = 6 → 181 ≤ back ≤ 184)
  ∧ (amount = 9 → 273 ≤ back ≤ 276)
  ∧ (amount = 12 → 365 ≤ back ≤ 366).
Proof.
  intros Ha. cbn zeta.
  destruct (month_date_spec d) as (Hm & Hdt & Hw).
  pose proof (date_in_month d) as Hdim.
  unfold DayWithinYear in Hw.
  set (Y := YearFromDay d) in *. set (M := MonthFromDay d) in *.
  set (DT := DateFromDay d) in *.
  pose proof (InLeapYear_range Y) as HL.
  pose proof (InLeapYear_range (Y - 1)) as HL'.
  pose proof (leap_years_apart Y) as Hapart.
  pose proof (DayFromYear_succ (Y - 1)) as Hsucc.
  replace (Y - 1 + 1) with Y in Hsucc by lia.
  set (L := InLeapYear Y) in *. set (L' := InLeapYear (Y - 1)) in *.
  assert (Hcases : M = 0 ∨ M = 1 ∨ M = 2 ∨ M = 3 ∨ M = 4 ∨ M = 5 ∨ M = 6
                   ∨ M = 7 ∨ M = 8 ∨ M = 9 ∨ M = 10 ∨ M = 11) by lia.
  clearbody Y M DT. clear Hm.
  assert (Hsame : ∀ k, 0 ≤ k ≤ 11 → (Y * 12 + k) / 12 = Y
                                    ∧ (Y * 12 + k) mod 12 = k)
    by (intros; div_lia).
  assert (Hprev : ∀ k, 0 ≤ k ≤ 11 → ((Y - 1) * 12 + k) / 12 = Y - 1
                                    ∧ ((Y - 1) * 12 + k) mod 12 = k)
    by (intros; div_lia).
  unfold MakeDay.
  destruct Ha as [->|[->|[->| ->]]];
    repeat (destruct Hcases as [->|Hcases]);
    try subst M;
    match goal with
    | |- context [(Y * 12 + ?mm - ?aa) / 12] =>
        first
          [ let k := eval cbv in (mm - aa) in
            assert (0 ≤ k ≤ 11) as Hk by lia;
            replace (Y * 12 + mm - aa) with (Y * 12 + k) by lia;
            destruct (Hsame k Hk) as [-> ->]
          | let k := eval cbv in (mm + 12 - aa) in
            assert (0 ≤ k ≤ 11) as Hk by lia;
            replace (Y * 12 + mm - aa) with ((Y - 1) * 12 + k) by lia;
            destruct (Hprev k Hk) as [-> ->] ]
    end;
    fold L; fold L'; clearbody L L';
    cbn [monthStart DaysInMonth] in *;
    (repeat split; intros; try lia).
Qed.

(** No date filter lies more than 366 days back. *)
Lemma getDateFilter_within_year (tz now : Z) (range : TimeRange) :
  now - 366 * msPerDay ≤ getDateFilter tz now range < now.
Proof.
  pose proof (subMonths_day tz now 3) as E3.
  pose proof (subMonths_day tz now 6) as E6.
  pose proof (subMonths_day tz now 9) as E9.
  pose proof (subMonths_day tz now 12) as E12.
  cbn zeta in *.
  destruct (months_back (Day (now + tz)) 3) as (H3 & _); [tauto |].
  destruct (months_back (Day (now + tz)) 6) as (_ & H6 & _); [tauto |].
  destruct (months_back (Day (now + tz)) 9) as (_ & _ & H9 & _); [tauto |].
  destruct (months_back (Day (now + tz)) 12) as (_ & _ & _ & H12);
    [tauto |].
  cbn zeta in *.
  specialize (H3 eq_refl). specialize (H6 eq_refl).
  specialize (H9 eq_refl). specialize (H12 eq_refl).
  destruct range; cbn [getDateFilter]; unfold subDays, msPerDay in *; lia.
Qed.

(** X28 — the time ranges of all pages.  The start of every range lies
    before now and at most 366 days back, and the ranges are nested: a
    longer range starts earlier. *)
Theorem date_filter_ranges (tz now : Z) :
  (∀ range, now - 366 * msPerDay ≤ getDateFilter tz now range < now)
  ∧ StronglySorted (λ a b, b < a) (getDateFilter tz now <$> ranges).
Proof.
  pose proof (subMonths_day tz now 3) as E3.
  pose proof (subMonths_day tz now 6) as E6.
  pose proof (subMonths_day tz now 9) as E9.
  pose proof (subMonths_day tz now 12) as E12.
  cbn zeta in *.
  destruct (months_back (Day (now + tz)) 3) as (H3 & _); [tauto |].
  destruct (months_back (Day (now + tz)) 6) as (_ & H6 & _); [tauto |].
  destruct (months_back (Day (now + tz)) 9) as (_ & _ & H9 & _); [tauto |].
  destruct (months_back (Day (now + tz)) 12) as (_ & _ & _ & H12);
    [tauto |].
  cbn zeta in *.
  specialize (H3 eq_refl). specialize (H6 eq_refl).
  specialize (H9 eq_refl). specialize (H12 eq_refl).
  split.
  - intros []; cbn [getDateFilter]; unfold subDays, msPerDay in *; lia.
  - unfold ranges. cbn [fmap list_fmap getDateFilter].
    unfold subDays, msPerDay in *.
    repeat (constructor; [| repeat (constructor; [lia |]); constructor]).
    constructor.
Qed.
End TimeRanges.

(** ** The daily chart of the users page *)

Section UsersDaily.
Import Calendar UsersDailySpec.

Lemma upsert_fmap {K V W} `{EqDecision K} (g : V → W) (k : K) (init : V)
    (f : V → V) (f' : W → W) (m : list (K * V)) :
  (∀ v, g (f v) = f' (g v)) →
  (λ p, (p.1, g p.2)) <$> Coll.upsert k init f m
  = Coll.upsert k (g init) f' ((λ p, (p.1, g p.2)) <$> m).
Proof.
  intros Hg. induction m as [|[k0 v0] m IH]; cbn [Coll.upsert].
  - rewrite fmap_cons, fmap_nil. cbn [fst snd]. by rewrite Hg.
  - rewrite fmap_cons. cbn [fst snd Coll.upsert].
    destruct (decide (k0 = k)).
    + rewrite fmap_cons. cbn [fst snd]. by rewrite Hg.
    + rewrite fmap_cons, IH. done.
Qed.

Lemma users_dailyMap_from (rows : list Event)
    (m : list (Z * Feature.DayData)) :
  foldl Users.dailyStep (Some (asUsersDay <$> m)) (Users.raw <$> rows)
  = Some (asUsersDay <$> foldl Feature.addDaily m rows).
Proof.
  revert m. induction rows as [|e rows IH]; intros m; [done |].
  rewrite fmap_cons. cbn [foldl]. rewrite <- IH. f_equal.
  unfold Users.dailyStep, Users.addDaily, Feature.addDaily.
  cbn [Users.raw Users.raw_received_at Users.raw_firebase_uid mbind
       option_bind].
  f_equal. symmetry.
  pose proof (upsert_fmap
                (λ day, {| Users.users := set_map Some (Feature.users day);
                           Users.events := Feature.events day |})
                (isoDate (received_at e))
                {| Feature.events := 0; Feature.users := ∅ |}
                (λ day, {| Feature.events := Feature.events day + 1;
                           Feature.users := {[firebase_uid e]}
                                            ∪ Feature.users day |})
                (λ day, {| Users.users := {[Some (firebase_uid e)]}
                                          ∪ Users.users day;
                           Users.events := Users.events day + 1 |})
                m) as Hu.
  cbn [Feature.users Feature.events] in Hu.
  rewrite set_map_empty in Hu. apply Hu.
  intros v. cbn [Users.users Users.events].
  by rewrite set_map_union_L, set_map_singleton_L.
Qed.

(** X29 — users page, daily chart.  On rows that all have a timestamp and
    a user, the daily chart of the users page is the daily chart of the
    feature page: the same days with the same unique users and rows. *)
Theorem users_daily_as_feature (tz : Z) (rows : list Event) :
  Users.daily tz (Users.raw <$> rows)
  = Some (asUsersRow <$> Feature.daily tz rows).
Proof.
  unfold Users.daily, Users.dailyMap.
  pose proof (users_dailyMap_from rows []) as H. cbn [fmap list_fmap] in H.
  rewrite H. cbn [mbind option_bind]. f_equal.
  unfold Feature.daily. fold (Feature.dailyMap rows).
  rewrite <- slice_last_fmap, <- !list_fmap_compose. f_equal.
  apply list_fmap_ext. intros i [d day] _.
  unfold compose, asUsersRow, asUsersDay, Users.dailyRow.
  cbn [fst snd Users.users Users.events Feature.date Feature.d_users
       Feature.d_events].
  f_equal. unfold size_Z. by rewrite size_some.
Qed.
End UsersDaily.

(** ** The average processing time *)

Section ProcessingTime.
Import Overview OverviewSpec.

Lemma sum_from (l : list Z) (a : Z) :
  foldl Z.add a l = a + Users.sum l.
Proof.
  unfold Users.sum. revert a. induction l as [|x l IH]; intros a;
    cbn [foldl]; [lia |].
  rewrite (IH (a + x)), (IH (0 + x)). lia.
Qed.

Lemma sum_between (l : list Z) (lo hi : Z) :
  (∀ t, t ∈ l → lo ≤ t ≤ hi) →
  Z.of_nat (length l) * lo ≤ Users.sum l ≤ Z.of_nat (length l) * hi.
Proof.
  induction l as [|x l IH]; intros H; [unfold Users.sum; cbn; lia |].
  unfold Users.sum. cbn [foldl length]. rewrite sum_from.
  assert (lo ≤ x ≤ hi) by (apply H; left).
  assert (Z.of_nat (length l) * lo ≤ Users.sum l
          ≤ Z.of_nat (length l) * hi)
    by (apply IH; intros; apply H; by right).
  lia.
Qed.

Lemma elem_of_processingTimes (messages : list ChatMessage) (t : Z) :
  t ∈ processingTimes messages
  ↔ t ≠ 0 ∧ ∃ m, m ∈ messages ∧ processing_ms m = Some t.
Proof.
  unfold processingTimes. rewrite list_elem_of_omap. split.
  - intros (m & Hm & Ht). destruct (processing_ms m) as [n|] eqn:E;
      [| done].
    cbn in Ht. destruct (Z.eqb_spec n 0); [done |].
    injection Ht as <-. split; [done |]. by exists m.
  - intros (Hne & m & Hm & E). exists m. split; [done |].
    rewrite E. cbn. by destruct (Z.eqb_spec t 0).
Qed.

(** X30 — overview page, average processing time.  A message without
    processing time, or with the time 0, is left out.  When no message is
    left the number stays as it was; otherwise it is a whole number
    between the smallest and the largest of the times. *)
Theorem avg_processing_between (prev : jsnum)
    (messages : list ChatMessage) (lo hi : Z) :
  (∀ m t, m ∈ messages → processing_ms m = Some t → t ≠ 0 →
          lo ≤ t ≤ hi) →
  ((∃ m t, m ∈ messages ∧ processing_ms m = Some t ∧ t ≠ 0) →
   ∃ k : Z, avgProcessingMs prev messages = JS.of_Z k ∧ lo ≤ k ≤ hi)
  ∧ ((∀ m t, m ∈ messages → processing_ms m = Some t → t = 0) →
     avgProcessingMs prev messages = prev).
Proof.
  intros Hb. unfold avgProcessingMs.
  set (times := processingTimes messages).
  assert (Hin : ∀ t, t ∈ times → lo ≤ t ≤ hi).
  { intros t (Hne & m & Hm & E)%elem_of_processingTimes.
    by apply (Hb m). }
  split.
  - intros (m & t & Hm & E & Hne).
    assert (t ∈ times) as Ht
      by (apply elem_of_processingTimes; split; [done | by exists m]).
    destruct times as [|x l] eqn:El; [by apply elem_of_nil in Ht |].
    rewrite <- El in *. 
    assert (0 < Z.of_nat (length times)) as Hn
      by (rewrite El; cbn [length]; lia).
    replace (0 <? length times)%nat with true
      by (symmetry; apply Nat.ltb_lt; lia).
    rewrite round_div_closed_form by done.
    eexists. split; [reflexivity |].
    pose proof (sum_between times lo hi Hin) as Hs.
    set (n := Z.of_nat (length times)) in *.
    set (S := Users.sum times) in *. clearbody n S. split.
    + apply Z.div_le_lower_bound; nia.
    + enough ((2 * S + n) / (2 * n) < hi + 1) by lia.
      apply Z.div_lt_upper_bound; nia.
  - intros Hz. destruct times as [|x l] eqn:El; [done |].
    exfalso.
    assert (x ∈ times) as (Hne & m & Hm & E)%elem_of_processingTimes
      by (rewrite El; left).
    apply Hne. by apply (Hz m).
Qed.

Lemma avg_processing_between_witness :
  ∃ k : Z,
    avgProcessingMs (JS.of_Z 7) [timed 100; timed 0; timed 201]
    = JS.of_Z k
    ∧ 100 ≤ k ≤ 201 ∧ k = 151.
Proof.
  destruct (avg_processing_between (JS.of_Z 7)
              [timed 100; timed 0; timed 201] 100 201) as [H _].
  - intros m t Hm E Hne. unfold timed in Hm.
    repeat (apply elem_of_cons in Hm as [->|Hm];
            [cbn in E; injection E as <-; lia |]).
    by apply elem_of_nil in Hm.
  - destruct H as (k & Hk & Hr).
    + exists (timed 100), 100. split; [left | done].
    + exists k. split; [done |]. split; [done |].
      vm_compute in Hk. by injection Hk as <-.
Defined.
End ProcessingTime.

(** ** Buckets of the rows of a time range *)

Section FetchedBuckets.
Import Calendar BucketSpec DateFilter FetchSpec.

(** The rows of a time range are less than 367 days apart. *)
Lemma fetched_near (tz now : Z) (range : TimeRange) (rows : list Event)
    (e1 e2 : Event) :
  fetched tz now range rows → e1 ∈ rows → e2 ∈ rows →
  Z.abs (received_at e1 - received_at e2) < 367 * msPerDay.
Proof.
  intros Hf H1%Hf H2%Hf.
  pose proof (getDateFilter_within_year tz now range).
  unfold msPerDay in *. lia.
Qed.

(** C9.  The daily bucket of a day holds exactly the rows whose timestamp
    lies on that calendar day.  The weekly bucket of a label holds exactly
    the rows whose week, started on Monday, has that label, the label
    being month and day of the Monday; among the rows that the page has
    fetched for a time range, two rows have the same label, and so share
    their bucket, if and only if their timestamps fall in the same week
    started on Monday. *)
Theorem buckets_by_day_and_week (tz now : Z) (range : TimeRange)
    (rows : list Event) :
  fetched tz now range rows →
  (∀ (daily : list Event) (d : Z),
      Coll.get d (Feature.dailyMap daily)
      = match rowsOfDay d daily with
        | [] => None
        | l => Some {| Feature.events := Z.of_nat (length l);
                       Feature.users := uid_set l |}
        end)
  ∧ (∀ t d : Z, Day t = d ↔ d * msPerDay ≤ t < (d + 1) * msPerDay)
  ∧ (∀ k : string,
        Coll.get k (Users.weeklyMap tz rows)
        = match rowsOfWeekLabel tz k rows with
          | [] => None
          | l => Some {| Users.w_users := uid_set l;
                         Users.w_baskets :=
                           Z.of_nat
                             (length (named "basket_results_displayed" l)) |}
          end)
  ∧ (∀ e1 e2 : Event,
        e1 ∈ rows → e2 ∈ rows →
        (e2 ∈ rowsOfWeekLabel tz (Users.weekStart tz (received_at e1)) rows
         ↔ sameWeek tz (received_at e1) (received_at e2))).
Proof.
  intros Hf.
  split; [apply dailyMap_get |]. split; [apply Day_spec |].
  split; [apply weeklyMap_get |].
  intros e1 e2 H1 H2. unfold rowsOfWeekLabel.
  rewrite list_elem_of_filter, sameWeek_iff. split.
  - intros [Heq _]. symmetry. apply weekStart_inj; [| done].
    by apply (fetched_near tz now range rows).
  - intros Hs. split; [| done]. by rewrite !weekStart_day, Hs.
Qed.

(** A Wednesday and the Sunday after it, fetched with the Monday that
    follows for the range of seven days, share the bucket "Jan 01"; the
    Monday is in the next one. *)
Lemma buckets_by_day_and_week_witness :
  sameWeek 0 (19725 * msPerDay + 1000) (19729 * msPerDay + 2000)
  ∧ fst <$> Users.weeklyMap 0 one_week = ["Jan 01"; "Jan 08"]
  ∧ ¬ sameWeek 0 (19729 * msPerDay + 2000) (19730 * msPerDay).
Proof.
  assert (Hf : fetched 0 (19730 * msPerDay + 1000) R7d one_week).
  { intros e He. unfold one_week in He.
    repeat (apply elem_of_cons in He as [->|He]; [by vm_compute |]).
    by apply elem_of_nil in He. }
  pose proof (proj2 (proj2 (proj2
                (buckets_by_day_and_week 0 _ R7d one_week Hf)))) as H.
  assert (H1 : {| received_at := 19725 * msPerDay + 1000;
                  firebase_uid := "A"; event_name := "app_launch";
                  props := None |} ∈ one_week)
    by (by apply (list_elem_of_lookup_2 _ 0%nat)).
  assert (H2 : {| received_at := 19729 * msPerDay + 2000;
                  firebase_uid := "B";
                  event_name := "basket_results_displayed";
                  props := None |} ∈ one_week)
    by (by apply (list_elem_of_lookup_2 _ 1%nat)).
  assert (H3 : {| received_at := 19730 * msPerDay;
                  firebase_uid := "A"; event_name := "app_launch";
                  props := None |} ∈ one_week)
    by (by apply (list_elem_of_lookup_2 _ 2%nat)).
  split; [| split; [by vm_compute |]].
  - apply (H _ _ H1 H2). cbn [received_at].
    apply list_elem_of_filter. split; [by vm_compute | done].
  - intros Hs. apply (H _ _ H2 H3) in Hs. cbn [received_at] in Hs.
    apply list_elem_of_filter in Hs as [Hs _]. by vm_compute in Hs.
Defined.

(** Rows that no time range holds together can share a label: 1 January
    2018 and 1 January 2024 are Mondays of different weeks, and rows of
    these two weeks would go to one bucket. *)
Lemma labels_repeat_over_years :
  Users.weekStart 0 monday_2018 = Users.weekStart 0 monday_2024
  ∧ ¬ sameWeek 0 monday_2018 monday_2024
  ∧ (∀ now range, ¬ fetched 0 now range two_mondays).
Proof.
  split; [by vm_compute |]. split; [rewrite sameWeek_iff; by vm_compute |].
  intros now range Hf.
  pose proof (getDateFilter_within_year 0 now range) as Hr.
  assert (H1 : {| received_at := monday_2018; firebase_uid := "A";
                  event_name := "app_launch"; props := None |}
               ∈ two_mondays)
    by (by apply (list_elem_of_lookup_2 _ 0%nat)).
  assert (H2 : {| received_at := monday_2024; firebase_uid := "B";
                  event_name := "app_launch"; props := None |}
               ∈ two_mondays)
    by (by apply (list_elem_of_lookup_2 _ 1%nat)).
  apply Hf in H1, H2. cbn [received_at] in H1, H2.
  unfold monday_2018, monday_2024, msPerDay in *. lia.
Qed.
End FetchedBuckets.
